(** * RF3 flashcard trainer: review-queue scheduling, exam sessions and
    bulk text import

    Shallow embedding of the TypeScript sources
      - [types.ts] (src/unnamed/part_000): [Phrase], [Deck], [CardState];
      - [components/StudySession.tsx] (third part of
        src/components/Button.tsx): [calculateResult], [handleDontKnow],
        [handleKnow], [handleVerdict], [handleNext];
      - [components/ExamSession.tsx] (second part of
        src/components/Button.tsx): the init effect, [handleReveal],
        [handleVerdict];
      - [components/Importer.tsx] (src/unnamed/part_001):
        [handleManualImport];
      - [components/DeckEditor.tsx]: [confirmBatchSave];
      - [App.tsx] (src/unnamed/part_002): [handleCreateDeck].

    Conventions.
      - A JavaScript [number] that holds a counter, an index or a parsed
        integer is a [Z].  JavaScript numbers are IEEE 754 doubles, which
        hold every integer up to 2^53 in absolute value and only some of
        the larger ones.  The counters of a card ([consecutiveCorrect],
        [consecutiveWrong], [totalReviews]) can be seeded with any integer
        by an import line, so the additions on them are the rounded
        [Number_add].  The other sums (session tallies, indices, the
        timer, the statistics) start at 0 and grow by one per event or
        by the seconds of a session, which is exact up to 2^53; they are
        written with [+], as is the sum of a seeded counter and 0 in the
        import paths.  [%] is [Z.rem] (sign of the dividend), which is
        exact on doubles.
      - Arrays are lists; [Array.prototype] methods are modelled by the
        functions of section "JavaScript built-ins" below.
      - React state is an explicit record; an event handler is a function
        from the state before the event to the state after it.  The [deck]
        prop is part of that record: [onUpdateDeck] replaces it.  The
        callbacks [onReview], [onTimeUpdate] and [onSessionComplete] feed
        the statistics and are left out, as are the timers.
      - A handler that can [return null] or raise a [TypeError] returns a
        [Completion]; an event whose handler does so leaves the state as
        it was. *)

From Stdlib Require Import ZArith List Lia Permutation Sorted Ascii String Bool.
From Stdlib Require Import DecimalString.
From stdpp Require Import base option list gmap strings sorting.

Local Open Scope string_scope.
Local Open Scope list_scope.
Local Open Scope Z_scope.

(** ** JavaScript built-ins *)

(** Outcome of running a handler body. *)
Inductive Completion (A : Type) : Type :=
| Returns (a : A)
| ReturnsNull
| ThrowsTypeError.
Arguments Returns {A} a.
Arguments ReturnsNull {A}.
Arguments ThrowsTypeError {A}.

(** [Number.MAX_SAFE_INTEGER], 2^53 - 1. *)
Definition MAX_SAFE_INTEGER : Z := 9007199254740991.

(** The double nearest to the integer [z], ties to the even significand:
    [z] itself up to 2^53 in absolute value; beyond, [z] rounded to 53
    significant bits.  (Integers from 2^1024 on, which round to
    [Infinity], are outside the model.) *)
Definition Number_round (z : Z) : Z :=
  let a := Z.abs z in
  if a <=? MAX_SAFE_INTEGER + 1 then z else
  let e := Z.log2 a - 52 in
  let q := a / 2 ^ e in
  let r := a mod 2 ^ e in
  let half := 2 ^ (e - 1) in
  let q' := if r <? half then q
            else if half <? r then q + 1
            else if Z.even q then q else q + 1 in
  Z.sgn z * (q' * 2 ^ e).

(** [x + y] on two numbers that hold integers: the exact sum, rounded. *)
Definition Number_add (x y : Z) : Z := Number_round (x + y).

(** [Math.pow(b, e)] on integers.  For [b = 2], the only base the program
    uses, the double is the power itself for [0 <= e <= 1023].  For a
    larger [e] it is [Infinity], and for [e < 0] a fraction ([0] here);
    no theorem reads a value of [Math_pow] there other than by comparing
    it with an array length, which [Infinity] and the integer power
    exceed alike. *)
Definition Math_pow (b e : Z) : Z := b ^ e.

(** [arr.length] as a number. *)
Definition Array_length {A} (arr : list A) : Z := Z.of_nat (length arr).

(** [arr.shift()]: drops the first element, does nothing on [[]]. *)
Definition Array_shift {A} (arr : list A) : list A := tl arr.

(** [arr.push(x)]. *)
Definition Array_push {A} (arr : list A) (x : A) : list A := arr ++ [x].

(** Relative start index of [splice] and [slice]: a negative index counts
    from the end, everything is clamped to [0 .. length]. *)
Definition relativeIndex (i : Z) (len : nat) : nat :=
  if i <? 0 then Z.to_nat (Z.max (Z.of_nat len + i) 0)
  else Nat.min (Z.to_nat i) len.

(** [arr.splice(start, 0, x)]: inserts [x] before index [start]. *)
Definition Array_splice_insert {A} (arr : list A) (start : Z) (x : A) : list A :=
  let k := relativeIndex start (length arr) in
  firstn k arr ++ x :: skipn k arr.

(** [arr.slice(0, end)]. *)
Definition Array_slice0 {A} (arr : list A) (end_ : Z) : list A :=
  firstn (relativeIndex end_ (length arr)) arr.

(** [arr.find(pred)]. *)
Definition Array_find {A} (pred : A -> bool) (arr : list A) : option A :=
  List.find pred arr.

(** [arr.sort(cmp)] for a comparator returning a number: the sort is stable
    (ECMAScript 2019), [x] goes before [y] when [cmp x y < 0] and keeps its
    place relative to [y] when [cmp x y = 0].  Modelled by a stable
    insertion sort.  The two comparators of the import paths are total
    orders on lines with distinct indices, so for them the sorted array
    does not depend on the algorithm. *)
Fixpoint sort_insert {A} (cmp : A -> A -> Z) (x : A) (l : list A) : list A :=
  match l with
  | [] => [x]
  | y :: l' => if cmp x y <=? 0 then x :: y :: l' else y :: sort_insert cmp x l'
  end.

Fixpoint Array_sort {A} (cmp : A -> A -> Z) (arr : list A) : list A :=
  match arr with
  | [] => []
  | x :: arr' => sort_insert cmp x (Array_sort cmp arr')
  end.

(** The comparator lets [x] stand before [y]. *)
Definition notAfter {A} (cmp : A -> A -> Z) (x y : A) : Prop := cmp x y <= 0.

(** [arr.map((x, index) => f(x, index))]. *)
Fixpoint Array_mapi_from {A B} (f : A -> Z -> B) (i : Z) (arr : list A) : list B :=
  match arr with
  | [] => []
  | x :: arr' => f x i :: Array_mapi_from f (i + 1) arr'
  end.

Definition Array_mapi {A B} (f : A -> Z -> B) (arr : list A) : list B :=
  Array_mapi_from f 0 arr.

(** ** types.ts *)

Record Phrase : Type := mkPhrase {
  id : string;
  chinese : string;
  english : string;
  consecutiveCorrect : Z;
  consecutiveWrong : Z;
  totalReviews : Z;
  lastReviewedAt : option Z;
  note : option string
}.

(** The test [p => p.id === cur]. *)
Definition hasId (cur : string) : Phrase -> bool :=
  fun p => String.eqb (id p) cur.

(** [deck.id], [deck.name], [deck.phrases], [deck.queue].  [stats] and
    [sessionHistory] are optional fields no modelled handler reads or
    writes; they are left out. *)
Record Deck : Type := mkDeck {
  deck_id : string;
  deck_name : string;
  deck_phrases : list Phrase;
  deck_queue : list string
}.

Inductive CardState : Type := HIDDEN | VERIFYING | MISSED | REVIEWED.

(** ** components/StudySession.tsx *)

Module StudySession.

Record Feedback : Type := mkFeedback {
  insertIndex : Z;
  fb_isCorrect : bool
}.

Record State : Type := mkState {
  deck : Deck;
  queue : list string;
  currentPhraseId : option string;
  cardState : CardState;
  sessionStats_correct : Z;
  sessionStats_wrong : Z;
  feedback : option Feedback
}.

(** The [useState] initialisers. *)
Definition init (d : Deck) : State :=
  {| deck := d;
     queue := deck_queue d;
     currentPhraseId := head (deck_queue d);
     cardState := HIDDEN;
     sessionStats_correct := 0;
     sessionStats_wrong := 0;
     feedback := None |}.

Record Result : Type := mkResult {
  updatedPhrases : list Phrase;
  nextQueue : list string;
  insertOffset : Z
}.

(** Step 2 of [calculateResult]: the [deck.phrases.map] callback. *)
Definition updatePhrase (currentPhraseId : string) (isCorrect : bool)
    (now : Z) (p : Phrase) : Phrase :=
  if String.eqb (id p) currentPhraseId then
    {| id := id p;
       chinese := chinese p;
       english := english p;
       totalReviews := Number_add (totalReviews p) 1;
       consecutiveCorrect :=
         if isCorrect then Number_add (consecutiveCorrect p) 1 else 0;
       consecutiveWrong :=
         if isCorrect then 0 else Number_add (consecutiveWrong p) 1;
       lastReviewedAt := Some now;
       note := note p |}
  else p.

(** Step 3: the requested offset, the first value of [insertOffset]. *)
Definition requestedOffset (isCorrect : bool) (updatedPhrase : Phrase) : Z :=
  if negb isCorrect then
    if (consecutiveWrong updatedPhrase >? 0)
       && (Z.rem (consecutiveWrong updatedPhrase) 3 =? 0)
    then 10 else 2
  else Math_pow 2 (Number_add (consecutiveCorrect updatedPhrase) 1).

(** "Insert back into queue": the new queue and [actualInsertIndex].  In
    the first branch [nextQueue.length] is read after the [push]. *)
Definition reinsert (insertOffset : Z) (nextQueue : list string)
    (currentPhraseId : string) : list string * Z :=
  if insertOffset >? Array_length nextQueue then
    let nextQueue' := Array_push nextQueue currentPhraseId in
    (nextQueue', Array_length nextQueue')
  else
    (Array_splice_insert nextQueue insertOffset currentPhraseId, insertOffset).

(** [calculateResult(isCorrect)]; [now] is the value of [Date.now()].
    [!currentPhraseId] holds for [null] and for the empty string; the
    non-null assertion on [find] does nothing at run time, so a missing
    phrase raises on the first property access. *)
Definition calculateResult (st : State) (isCorrect : bool) (now : Z)
    : Completion Result :=
  match currentPhraseId st with
  | None => ReturnsNull
  | Some cur =>
    if String.eqb cur "" then ReturnsNull else
    let nextQueue := Array_shift (queue st) in
    let updatedPhrases :=
      map (updatePhrase cur isCorrect now) (deck_phrases (deck st)) in
    match Array_find (hasId cur) updatedPhrases with
    | None => ThrowsTypeError
    | Some updatedPhrase =>
      let insertOffset := requestedOffset isCorrect updatedPhrase in
      let '(nextQueue', actualInsertIndex) :=
        reinsert insertOffset nextQueue cur in
      Returns {| updatedPhrases := updatedPhrases;
                 nextQueue := nextQueue';
                 insertOffset := actualInsertIndex |}
    end
  end.

(** [onUpdateDeck({...deck, phrases, queue})]. *)
Definition withResult (d : Deck) (r : Result) : Deck :=
  {| deck_id := deck_id d;
     deck_name := deck_name d;
     deck_phrases := updatedPhrases r;
     deck_queue := nextQueue r |}.

Definition handleDontKnow (st : State) (now : Z) : State :=
  match calculateResult st false now with
  | Returns r =>
    {| deck := withResult (deck st) r;
       queue := nextQueue r;
       currentPhraseId := currentPhraseId st;
       cardState := MISSED;
       sessionStats_correct := sessionStats_correct st;
       sessionStats_wrong := sessionStats_wrong st + 1;
       feedback := Some {| insertIndex := insertOffset r; fb_isCorrect := false |} |}
  | _ => st
  end.

Definition handleKnow (st : State) : State :=
  {| deck := deck st;
     queue := queue st;
     currentPhraseId := currentPhraseId st;
     cardState := VERIFYING;
     sessionStats_correct := sessionStats_correct st;
     sessionStats_wrong := sessionStats_wrong st;
     feedback := feedback st |}.

Definition handleVerdict (st : State) (isCorrect : bool) (now : Z) : State :=
  match calculateResult st isCorrect now with
  | Returns r =>
    {| deck := withResult (deck st) r;
       queue := nextQueue r;
       currentPhraseId := currentPhraseId st;
       cardState := REVIEWED;
       sessionStats_correct := sessionStats_correct st + (if isCorrect then 1 else 0);
       sessionStats_wrong := sessionStats_wrong st + (if isCorrect then 0 else 1);
       feedback := Some {| insertIndex := insertOffset r; fb_isCorrect := isCorrect |} |}
  | _ => st
  end.

Definition handleNext (st : State) : State :=
  match queue st with
  | next :: _ =>
    {| deck := deck st;
       queue := queue st;
       currentPhraseId := Some next;
       cardState := HIDDEN;
       sessionStats_correct := sessionStats_correct st;
       sessionStats_wrong := sessionStats_wrong st;
       feedback := None |}
  | [] =>
    {| deck := deck st;
       queue := queue st;
       currentPhraseId := None;
       cardState := cardState st;
       sessionStats_correct := sessionStats_correct st;
       sessionStats_wrong := sessionStats_wrong st;
       feedback := feedback st |}
  end.

(** [handleSaveEdit()] with the three fields of the edit form.  The
    [isEditing] and [editForm] cells are not part of [State]. *)
Definition handleSaveEdit (st : State) (english_ chinese_ note_ : string)
    : State :=
  match currentPhraseId st with
  | None => st
  | Some cur =>
    if String.eqb cur "" then st else
    let updatedPhrases :=
      map (fun p => if hasId cur p then
                      {| id := id p;
                         consecutiveCorrect := consecutiveCorrect p;
                         consecutiveWrong := consecutiveWrong p;
                         totalReviews := totalReviews p;
                         lastReviewedAt := lastReviewedAt p;
                         english := english_;
                         chinese := chinese_;
                         note := Some note_ |}
                    else p)
          (deck_phrases (deck st)) in
    {| deck := {| deck_id := deck_id (deck st);
                  deck_name := deck_name (deck st);
                  deck_phrases := updatedPhrases;
                  deck_queue := deck_queue (deck st) |};
       queue := queue st;
       currentPhraseId := currentPhraseId st;
       cardState := cardState st;
       sessionStats_correct := sessionStats_correct st;
       sessionStats_wrong := sessionStats_wrong st;
       feedback := feedback st |}
  end.

(** [handleDeletePhrase()]; [confirmed] is the answer of [window.confirm]. *)
Definition handleDeletePhrase (st : State) (confirmed : bool) : State :=
  match currentPhraseId st with
  | None => st
  | Some cur =>
    if String.eqb cur "" || negb confirmed then st else
    let updatedPhrases :=
      List.filter (fun p => negb (String.eqb (id p) cur)) (deck_phrases (deck st)) in
    let updatedQueue :=
      List.filter (fun i => negb (String.eqb i cur)) (queue st) in
    let nextQueue :=
      List.filter (fun i => negb (String.eqb i cur)) (deck_queue (deck st)) in
    let deck' := {| deck_id := deck_id (deck st);
                    deck_name := deck_name (deck st);
                    deck_phrases := updatedPhrases;
                    deck_queue := nextQueue |} in
    match updatedQueue with
    | next :: _ =>
      {| deck := deck';
         queue := updatedQueue;
         currentPhraseId := Some next;
         cardState := HIDDEN;
         sessionStats_correct := sessionStats_correct st;
         sessionStats_wrong := sessionStats_wrong st;
         feedback := feedback st |}
    | [] =>
      {| deck := deck';
         queue := [];
         currentPhraseId := None;
         cardState := cardState st;
         sessionStats_correct := sessionStats_correct st;
         sessionStats_wrong := sessionStats_wrong st;
         feedback := feedback st |}
    end
  end.

(** The "Fallback" effect: a lost current card is replaced by the head of
    a non-empty queue. *)
Definition fallbackEffect (st : State) : State :=
  let lost := match currentPhraseId st with
              | None => true
              | Some cur => String.eqb cur ""
              end in
  match queue st with
  | next :: _ =>
    if lost then
      {| deck := deck st;
         queue := queue st;
         currentPhraseId := Some next;
         cardState := HIDDEN;
         sessionStats_correct := sessionStats_correct st;
         sessionStats_wrong := sessionStats_wrong st;
         feedback := feedback st |}
    else st
  | [] => st
  end.

(** The [keydown] listener; [typing] says that the edit form is open or
    that the key went to an input field. *)
Definition handleKeyDown (st : State) (typing : bool) (key : string) (now : Z)
    : State :=
  if typing then st else
  match cardState st with
  | HIDDEN =>
    if String.eqb key "1" then handleKnow st
    else if String.eqb key "2" then handleDontKnow st now
    else st
  | VERIFYING =>
    if String.eqb key "1" then handleVerdict st true now
    else if String.eqb key "2" then handleVerdict st false now
    else st
  | MISSED | REVIEWED =>
    if String.eqb key "1" || String.eqb key "2" || String.eqb key " "
       || String.eqb key "Enter"
    then handleNext st else st
  end.

(** What happens to a study session between deletions and edits. *)
Inductive Event : Type :=
| KeyDown (typing : bool) (key : string) (now : Z)
| Fallback.

Definition dispatch (st : State) (e : Event) : State :=
  match e with
  | KeyDown typing key now => handleKeyDown st typing key now
  | Fallback => fallbackEffect st
  end.

Definition run (st : State) (es : list Event) : State :=
  fold_left dispatch es st.

(** The accumulator of [renderStatsOverlay]. *)
Record Buckets : Type := mkBuckets {
  b_new : Z;
  w1 : Z; w2 : Z; w3 : Z; w4_5 : Z; w6_10 : Z; w10_plus : Z;
  c1 : Z; c2 : Z; c3 : Z; c4_5 : Z; c6_10 : Z; c10_plus : Z
}.

Definition noBuckets : Buckets := mkBuckets 0 0 0 0 0 0 0 0 0 0 0 0 0.

(** The callback of [deck.phrases.reduce] in [renderStatsOverlay]. *)
Definition countPhrase (acc : Buckets) (p : Phrase) : Buckets :=
  let '(mkBuckets n a1 a2 a3 a45 a610 a10 d1 d2 d3 d45 d610 d10) := acc in
  if totalReviews p =? 0 then
    mkBuckets (n + 1) a1 a2 a3 a45 a610 a10 d1 d2 d3 d45 d610 d10
  else if consecutiveWrong p >? 0 then
    let k := consecutiveWrong p in
    if k =? 1 then mkBuckets n (a1 + 1) a2 a3 a45 a610 a10 d1 d2 d3 d45 d610 d10
    else if k =? 2 then mkBuckets n a1 (a2 + 1) a3 a45 a610 a10 d1 d2 d3 d45 d610 d10
    else if k =? 3 then mkBuckets n a1 a2 (a3 + 1) a45 a610 a10 d1 d2 d3 d45 d610 d10
    else if k <=? 5 then mkBuckets n a1 a2 a3 (a45 + 1) a610 a10 d1 d2 d3 d45 d610 d10
    else if k <=? 10 then mkBuckets n a1 a2 a3 a45 (a610 + 1) a10 d1 d2 d3 d45 d610 d10
    else mkBuckets n a1 a2 a3 a45 a610 (a10 + 1) d1 d2 d3 d45 d610 d10
  else
    let k := consecutiveCorrect p in
    if k =? 1 then mkBuckets n a1 a2 a3 a45 a610 a10 (d1 + 1) d2 d3 d45 d610 d10
    else if k =? 2 then mkBuckets n a1 a2 a3 a45 a610 a10 d1 (d2 + 1) d3 d45 d610 d10
    else if k =? 3 then mkBuckets n a1 a2 a3 a45 a610 a10 d1 d2 (d3 + 1) d45 d610 d10
    else if k <=? 5 then mkBuckets n a1 a2 a3 a45 a610 a10 d1 d2 d3 (d45 + 1) d610 d10
    else if k <=? 10 then mkBuckets n a1 a2 a3 a45 a610 a10 d1 d2 d3 d45 (d610 + 1) d10
    else mkBuckets n a1 a2 a3 a45 a610 a10 d1 d2 d3 d45 d610 (d10 + 1).

Definition statsOverlay (phrases : list Phrase) : Buckets :=
  fold_left countPhrase phrases noBuckets.

End StudySession.

(** ** components/ExamSession.tsx *)

Module ExamSession.

Inductive ExamStep : Type := QUESTION | REVEAL | RESULT.

Record ExamResult : Type := mkExamResult {
  phrase : Phrase;
  correct : bool
}.

(** Props ([deck], [questionCount]), [useState] cells and the
    [isInitialized] ref of one mounted exam. *)
Record State : Type := mkState {
  deck : Deck;
  questionCount : Z;
  questions : list Phrase;
  currentIndex : Z;
  step : ExamStep;
  score : Z;
  isFinished : bool;
  sessionDuration : Z;
  results : list ExamResult;
  isInitialized : bool
}.

(** State at mount, before any effect has run. *)
Definition mount (d : Deck) (count : Z) : State :=
  {| deck := d;
     questionCount := count;
     questions := [];
     currentIndex := 0;
     step := QUESTION;
     score := 0;
     isFinished := false;
     sessionDuration := 0;
     results := [];
     isInitialized := false |}.

Section Random.

(** [shuffled xs] stands for [[...xs].sort(() => 0.5 - Math.random())]:
    what the engine's sort leaves in the copy under a comparator that
    answers at random.  Only its being a rearrangement of [xs] is
    ever assumed, and only where a theorem says so. *)
Variable shuffled : list Phrase -> list Phrase.

(** The "Initialize Exam" effect; it runs after mount and again each
    time [deck.phrases] or [questionCount] changes. *)
Definition initEffect (st : State) : State :=
  if isInitialized st then st else
  let shuffled_ := shuffled (deck_phrases (deck st)) in
  let selected :=
    Array_slice0 shuffled_
      (Z.min (questionCount st) (Array_length (deck_phrases (deck st)))) in
  {| deck := deck st;
     questionCount := questionCount st;
     questions := selected;
     currentIndex := currentIndex st;
     step := step st;
     score := score st;
     isFinished := isFinished st;
     sessionDuration := sessionDuration st;
     results := results st;
     isInitialized := true |}.

End Random.

Definition handleReveal (st : State) : State :=
  {| deck := deck st;
     questionCount := questionCount st;
     questions := questions st;
     currentIndex := currentIndex st;
     step := REVEAL;
     score := score st;
     isFinished := isFinished st;
     sessionDuration := sessionDuration st;
     results := results st;
     isInitialized := isInitialized st |}.

(** The [deck.phrases.map] callback of [handleVerdict]. *)
Definition updatePhrase (currentPhrase : Phrase) (correct : bool)
    (now : Z) (p : Phrase) : Phrase :=
  if String.eqb (id p) (id currentPhrase) then
    {| id := id p;
       chinese := chinese p;
       english := english p;
       totalReviews := Number_add (totalReviews p) 1;
       consecutiveCorrect :=
         if correct then Number_add (consecutiveCorrect p) 1 else 0;
       consecutiveWrong :=
         if correct then 0 else Number_add (consecutiveWrong p) 1;
       lastReviewedAt := Some now;
       note := note p |}
  else p.

(** [questions[currentIndex]]; [undefined] is [None]. *)
Definition questionAt (qs : list Phrase) (i : Z) : option Phrase :=
  if i <? 0 then None else nth_error qs (Z.to_nat i).

(** [handleVerdict(correct)]: raises when [questions[currentIndex]] is
    [undefined] (reading [.id]). *)
Definition handleVerdict (st : State) (correct : bool) (now : Z)
    : Completion State :=
  match questionAt (questions st) (currentIndex st) with
  | None => ThrowsTypeError
  | Some currentPhrase =>
    let updatedPhrases :=
      map (updatePhrase currentPhrase correct now) (deck_phrases (deck st)) in
    let more := currentIndex st <? Array_length (questions st) - 1 in
    Returns
      {| deck := {| deck_id := deck_id (deck st);
                    deck_name := deck_name (deck st);
                    deck_phrases := updatedPhrases;
                    deck_queue := deck_queue (deck st) |};
         questionCount := questionCount st;
         questions := questions st;
         currentIndex := if more then currentIndex st + 1 else currentIndex st;
         step := if more then QUESTION else RESULT;
         score := if correct then score st + 1 else score st;
         isFinished := if more then isFinished st else true;
         sessionDuration := sessionDuration st;
         results := results st ++ [{| phrase := currentPhrase; correct := correct |}];
         isInitialized := isInitialized st |}
  end.

(** What can happen to a mounted exam: the user's actions, and a re-run
    of the init effect (which the deck update of every verdict causes). *)
Inductive Event : Type :=
| Reveal
| Verdict (correct : bool) (now : Z)
| RerunInit.

Definition dispatch (shuffled : list Phrase -> list Phrase)
    (st : State) (e : Event) : State :=
  match e with
  | Reveal => handleReveal st
  | Verdict c now =>
    match handleVerdict st c now with
    | Returns st' => st'
    | _ => st
    end
  | RerunInit => initEffect shuffled st
  end.

Definition run (shuffled : list Phrase -> list Phrase)
    (st : State) (es : list Event) : State :=
  fold_left (dispatch shuffled) es st.

(** The timer's tick: nothing once the exam is finished (the interval is
    cleared). *)
Definition tick (st : State) : State :=
  if isFinished st then st else
  {| deck := deck st;
     questionCount := questionCount st;
     questions := questions st;
     currentIndex := currentIndex st;
     step := step st;
     score := score st;
     isFinished := isFinished st;
     sessionDuration := sessionDuration st + 1;
     results := results st;
     isInitialized := isInitialized st |}.

(** [handleExit()]: the arguments of the call of [onSessionComplete], when
    that optional prop is given; [None] when it is not called. *)
Definition handleExit (st : State) : option (Z * Z * Z) :=
  let answered := Array_length (results st) in
  if answered >? 0 then
    let correct_ := Array_length (List.filter correct (results st)) in
    let wrong := answered - correct_ in
    Some (sessionDuration st, correct_, wrong)
  else None.

(** The [keydown] listener, as far as it changes the state: once the exam
    is finished the keys only leave it. *)
Definition handleKeyDown (st : State) (key : string) (now : Z) : State :=
  if isFinished st then st else
  match step st with
  | QUESTION =>
    if String.eqb key " " || String.eqb key "Enter" || String.eqb key "1"
    then handleReveal st else st
  | REVEAL =>
    if String.eqb key "1" then
      match handleVerdict st true now with Returns st' => st' | _ => st end
    else if String.eqb key "2" then
      match handleVerdict st false now with Returns st' => st' | _ => st end
    else st
  | RESULT => st
  end.

(** An exam as its user drives it: keys, timer ticks and re-runs of the
    init effect. *)
Inductive UserEvent : Type :=
| KeyDown (key : string) (now : Z)
| Tick
| Rerender.

Definition userDispatch (shuffled : list Phrase -> list Phrase)
    (st : State) (e : UserEvent) : State :=
  match e with
  | KeyDown key now => handleKeyDown st key now
  | Tick => tick st
  | Rerender => initEffect shuffled st
  end.

Definition userRun (shuffled : list Phrase -> list Phrase)
    (st : State) (es : list UserEvent) : State :=
  fold_left (userDispatch shuffled) es st.

End ExamSession.

(** ** Host functions of the import paths *)

(** What the import code calls and the repository does not define: string
    methods, the global [parseInt] and the [uuid] package.  [parseInt]
    answers [None] for [NaN]; [uuidv4 n] is the id returned by the [n]-th
    call since the page was loaded. *)
Class Runtime : Type := mkRuntime {
  String_trim : string -> string;
  String_toLowerCase : string -> string;
  String_split : string -> string -> list string;
  parseInt : string -> option Z;
  uuidv4 : nat -> string
}.

(** The separator ['\n']. *)
Definition newline : string := String "010"%char EmptyString.

(** [text.split('\n').filter(l => l.trim().length > 0)] *)
Definition nonBlankLines `{Runtime} (text : string) : list string :=
  List.filter (fun l => (0 <? String.length (String_trim l))%nat)
              (String_split text newline).

(** [line.split('|').map(s => s.trim())] *)
Definition fieldsOf `{Runtime} (line : string) : list string :=
  map String_trim (String_split line "|").

(** [parts[k]] when it is read as a string after a length test, and
    [parts[k] || ''] otherwise: both are [''] past the end. *)
Definition part (parts : list string) (k : nat) : string := nth k parts "".

(** ** components/Importer.tsx *)

Module Importer.

Record ParsedItem : Type := mkParsedItem {
  item_english : string;
  item_chinese : string;
  item_note : string;
  progress : Z;
  position : option Z;
  originalIndex : Z
}.

Section WithRuntime.
Context `{Runtime}.

(** The callback of [lines.map((line, index) => ...)]; [null] is [None]. *)
Definition parseLine (line : string) (index : Z) : option ParsedItem :=
  let parts := fieldsOf line in
  if (length parts <? 2)%nat then None else
  let progress :=
    if (4 <=? length parts)%nat && negb (String.eqb (part parts 3) "") then
      match parseInt (part parts 3) with Some val => val | None => 0 end
    else 0 in
  let position :=
    if (5 <=? length parts)%nat && negb (String.eqb (part parts 4) "") then
      parseInt (part parts 4)
    else None in
  Some {| item_english := part parts 0;
          item_chinese := part parts 1;
          item_note := part parts 2;
          progress := progress;
          position := position;
          originalIndex := index |}.

(** [lines.map(...).filter(item => item !== null)] *)
Definition parsedItems (lines : list string) : list ParsedItem :=
  omap (fun x : option ParsedItem => x) (Array_mapi parseLine lines).

(** The comparator given to [parsedItems.sort]. *)
Definition compareItems (a b : ParsedItem) : Z :=
  match position a, position b with
  | Some _, None => -1
  | None, Some _ => 1
  | Some posA, Some posB =>
    if negb (posA =? posB) then posA - posB
    else originalIndex a - originalIndex b
  | None, None => originalIndex a - originalIndex b
  end.

(** The callback of [parsedItems.map(item => ...)], with the id that
    its call of [uuidv4()] returned. *)
Definition toPhrase (newId : string) (item : ParsedItem) : Phrase :=
  let correct := if progress item >? 0 then progress item else 0 in
  let wrong := if progress item <? 0 then Z.abs (progress item) else 0 in
  {| id := newId;
     english := item_english item;
     chinese := item_chinese item;
     note := Some (item_note item);
     consecutiveCorrect := correct;
     consecutiveWrong := wrong;
     totalReviews := correct + wrong;
     lastReviewedAt := None |}.

(** [items.map] where the callback draws one id per item; [n] is the
    number of ids drawn so far. *)
Fixpoint toPhrases (n : nat) (items : list ParsedItem) : list Phrase :=
  match items with
  | [] => []
  | item :: items' => toPhrase (uuidv4 n) item :: toPhrases (S n) items'
  end.

Inductive Outcome : Type :=
| SetError (message : string)
| OnImport (deckName : string) (phrases : list Phrase).

Definition sortedItems (manualText : string) : list ParsedItem :=
  Array_sort compareItems (parsedItems (nonBlankLines manualText)).

(** [handleManualImport()] with the form fields [deckName] and
    [manualText]; the two messages are abbreviated. *)
Definition handleManualImport (deckName manualText : string) (n : nat)
    : Outcome :=
  if String.eqb (String_trim deckName) "" then SetError "name" else
  let phrases := toPhrases n (sortedItems manualText) in
  if (length phrases =? 0)%nat then SetError "parse"
  else OnImport deckName phrases.

End WithRuntime.

End Importer.

(** ** App.tsx *)

Module App.

(** [handleCreateDeck(name, phrases)]: the deck appended to [decks]; [n]
    is the number of ids drawn before the call. *)
Definition handleCreateDeck `{Runtime} (name : string)
    (phrases : list Phrase) (n : nat) : Deck :=
  {| deck_id := uuidv4 n;
     deck_name := name;
     deck_phrases := phrases;
     deck_queue := map id phrases |}.








(** The updater of [updateDeck(updatedDeck)]. *)
Definition updateDeck (decks : list Deck) (updatedDeck : Deck) : list Deck :=
  map (fun d => if String.eqb (deck_id d) (deck_id updatedDeck)
                then updatedDeck else d) decks.

(** [confirmDeleteDeck()] with the cell [deckToDelete]. *)
Definition confirmDeleteDeck (decks : list Deck) (deckToDelete : option string)
    : list Deck :=
  match deckToDelete with
  | None => decks
  | Some i =>
    if String.eqb i "" then decks
    else List.filter (fun d => negb (String.eqb (deck_id d) i)) decks
  end.

(** The copies made by [performMerge]: one new id per phrase, counters
    back to 0. *)
Fixpoint copyPhrases `{Runtime} (n : nat) (ps : list Phrase) : list Phrase :=
  match ps with
  | [] => []
  | p :: ps' =>
    {| chinese := chinese p;
       english := english p;
       lastReviewedAt := lastReviewedAt p;
       note := note p;
       id := uuidv4 n;
       consecutiveCorrect := 0;
       consecutiveWrong := 0;
       totalReviews := 0 |} :: copyPhrases (S n) ps'
  end.

(** [performMerge(targetDeckId)] with the cell [mergingDeckId]: the decks
    afterwards. *)
Definition performMerge `{Runtime} (decks : list Deck)
    (mergingDeckId : option string) (targetDeckId : string) (n : nat)
    : list Deck :=
  match mergingDeckId with
  | None => decks
  | Some src =>
    if String.eqb src "" then decks else
    match Array_find (fun d => String.eqb (deck_id d) src) decks with
    | None => decks
    | Some sourceDeck =>
      let newPhrases := copyPhrases n (deck_phrases sourceDeck) in
      let newPhraseIds := map id newPhrases in
      map (fun d => if String.eqb (deck_id d) targetDeckId then
                      {| deck_id := deck_id d;
                         deck_name := deck_name d;
                         deck_phrases := deck_phrases d ++ newPhrases;
                         deck_queue := deck_queue d ++ newPhraseIds |}
                    else d) decks
    end
  end.

(** [initiateExam(deckId)]: the new [tempExamCount], when the deck is
    found. *)
Definition initiateExam (decks : list Deck) (deckId : string) : option Z :=
  match Array_find (fun d => String.eqb (deck_id d) deckId) decks with
  | Some deck => Some (Z.min 20 (Array_length (deck_phrases deck)))
  | None => None
  end.

End App.

(** ** components/DeckEditor.tsx *)

Module DeckEditor.

Record ParsedItem : Type := mkParsedItem {
  eng : string;
  chi : string;
  item_note : string;
  progress : Z;
  position : option Z;
  originalIndex : Z
}.

Section WithRuntime.
Context `{Runtime}.

(** [s.toLowerCase().trim()] *)
Definition keyOf (s : string) : string := String_trim (String_toLowerCase s).

(** [existingPhrasesMap] after the [phrases.forEach]: a later phrase
    with the same key replaces an earlier one. *)
Definition existingPhrasesMap (phrases : list Phrase) : gmap string Phrase :=
  fold_left (fun m p => <[keyOf (english p) := p]> m) phrases ∅.

(** [existingPhrasesMap.has(key)] *)
Definition has (m : gmap string Phrase) (key : string) : bool :=
  match m !! key with Some _ => true | None => false end.

Definition parseLine (line : string) (index : Z) : option ParsedItem :=
  let parts := fieldsOf line in
  if (length parts <? 2)%nat then None else
  let progress :=
    if (4 <=? length parts)%nat && negb (String.eqb (part parts 3) "") then
      match parseInt (part parts 3) with Some val => val | None => 0 end
    else 0 in
  let position :=
    if (5 <=? length parts)%nat && negb (String.eqb (part parts 4) "") then
      parseInt (part parts 4)
    else None in
  Some {| eng := part parts 0;
          chi := part parts 1;
          item_note := part parts 2;
          progress := progress;
          position := position;
          originalIndex := index |}.

Definition parsedItems (lines : list string) : list ParsedItem :=
  omap (fun x : option ParsedItem => x) (Array_mapi parseLine lines).

(** The comparator of "Sort based on position priority". *)
Definition compareItems (m : gmap string Phrase) (a b : ParsedItem) : Z :=
  match position a, position b with
  | Some _, None => -1
  | None, Some _ => 1
  | Some posA, Some posB =>
    if negb (posA =? posB) then posA - posB
    else
      let isOldA := has m (keyOf (eng a)) in
      let isOldB := has m (keyOf (eng b)) in
      if negb isOldA && isOldB then -1
      else if isOldA && negb isOldB then 1
      else originalIndex a - originalIndex b
  | None, None => originalIndex a - originalIndex b
  end.

Definition sortedItems (phrases : list Phrase) (batchText : string)
    : list ParsedItem :=
  Array_sort (compareItems (existingPhrasesMap phrases))
             (parsedItems (nonBlankLines batchText)).

(** The loop variables of [for (const item of parsedItems)] and the
    number of ids drawn so far. *)
Record Acc : Type := mkAcc {
  newPhrasesList : list Phrase;
  newQueue : list string;
  drawn : nat
}.

(** One iteration of the loop. *)
Definition saveItem (m : gmap string Phrase) (acc : Acc) (item : ParsedItem)
    : Acc :=
  let correct := if progress item >? 0 then progress item else 0 in
  let wrong := if progress item <? 0 then Z.abs (progress item) else 0 in
  match m !! keyOf (eng item) with
  | Some existing =>
    let totalReviews_ :=
      if correct + wrong >? totalReviews existing then correct + wrong
      else totalReviews existing in
    let p :=
      {| id := id existing;
         lastReviewedAt := lastReviewedAt existing;
         english := eng item;
         chinese := chi item;
         note := Some (item_note item);
         consecutiveCorrect := correct;
         consecutiveWrong := wrong;
         totalReviews := totalReviews_ |} in
    {| newPhrasesList := Array_push (newPhrasesList acc) p;
       newQueue := Array_push (newQueue acc) (id p);
       drawn := drawn acc |}
  | None =>
    let newId := uuidv4 (drawn acc) in
    {| newPhrasesList :=
         Array_push (newPhrasesList acc)
           {| id := newId;
              english := eng item;
              chinese := chi item;
              note := Some (item_note item);
              consecutiveCorrect := correct;
              consecutiveWrong := wrong;
              totalReviews := correct + wrong;
              lastReviewedAt := None |};
       newQueue := Array_push (newQueue acc) newId;
       drawn := S (drawn acc) |}
  end.

Definition saveItems (m : gmap string Phrase) (n : nat)
    (items : list ParsedItem) : Acc :=
  fold_left (saveItem m) items
    {| newPhrasesList := []; newQueue := []; drawn := n |}.

(** [confirmBatchSave()]: the deck handed to [onUpdateDeck]; [phrases],
    [deckName] and [batchText] are the editor's state. *)
Definition confirmBatchSave (deck : Deck) (deckName : string)
    (phrases : list Phrase) (batchText : string) (n : nat) : Deck :=
  let acc := saveItems (existingPhrasesMap phrases) n
                       (sortedItems phrases batchText) in
  {| deck_id := deck_id deck;
     deck_name := deckName;
     deck_phrases := newPhrasesList acc;
     deck_queue := newQueue acc |}.

End WithRuntime.

(** [confirmDeletePhrase()] with the cell [phraseToDelete]: the deck
    handed to [onUpdateDeck], if any. *)
Definition confirmDeletePhrase (deck : Deck) (deckName : string)
    (phrases : list Phrase) (phraseToDelete : option string) : option Deck :=
  match phraseToDelete with
  | None => None
  | Some i =>
    if String.eqb i "" then None else
    Some {| deck_id := deck_id deck;
            deck_name := deckName;
            deck_phrases :=
              List.filter (fun p => negb (String.eqb (id p) i)) phrases;
            deck_queue :=
              List.filter (fun qId => negb (String.eqb qId i)) (deck_queue deck) |}
  end.

(** [savePhrase()] with the cell [editingPhraseId] and the edit form. *)
Definition savePhrase (deck : Deck) (deckName : string)
    (phrases : list Phrase) (editingPhraseId : option string)
    (english_ chinese_ note_ : string) : option Deck :=
  match editingPhraseId with
  | None => None
  | Some i =>
    if String.eqb i "" then None else
    Some {| deck_id := deck_id deck;
            deck_name := deckName;
            deck_phrases :=
              map (fun p => if hasId i p then
                              {| id := id p;
                                 consecutiveCorrect := consecutiveCorrect p;
                                 consecutiveWrong := consecutiveWrong p;
                                 totalReviews := totalReviews p;
                                 lastReviewedAt := lastReviewedAt p;
                                 english := english_;
                                 chinese := chinese_;
                                 note := Some note_ |}
                            else p) phrases;
            deck_queue := deck_queue deck |}
  end.

(** [handleAddPhrase()]; [n] is the number of ids drawn so far. *)
Definition handleAddPhrase `{Runtime} (deck : Deck) (deckName : string)
    (phrases : list Phrase) (n : nat) : Deck :=
  let newPhrase :=
    {| id := uuidv4 n;
       english := "";
       chinese := "";
       note := Some "";
       consecutiveCorrect := 0;
       consecutiveWrong := 0;
       totalReviews := 0;
       lastReviewedAt := None |} in
  {| deck_id := deck_id deck;
     deck_name := deckName;
     deck_phrases := newPhrase :: phrases;
     deck_queue := id newPhrase :: deck_queue deck |}.

(** [new Map(phrases.map(p => [p.id, p]))]: the last phrase of an id wins. *)
Definition phraseMap (phrases : list Phrase) : gmap string Phrase :=
  fold_left (fun m p => <[id p := p]> m) phrases ∅.

(** [orderedPhrases] and [seenIds] of [generateBatchText]. *)
Record ExportAcc : Type := mkExportAcc {
  orderedPhrases : list Phrase;
  seenIds : gset string
}.

(** The callback of [deck.queue.forEach]. *)
Definition addQueued (m : gmap string Phrase) (acc : ExportAcc) (i : string)
    : ExportAcc :=
  match m !! i with
  | Some p => {| orderedPhrases := Array_push (orderedPhrases acc) p;
                 seenIds := {[ i ]} ∪ seenIds acc |}
  | None => acc
  end.

(** The callback of the second [phrases.forEach]. *)
Definition addRemaining (acc : ExportAcc) (p : Phrase) : ExportAcc :=
  if bool_decide (id p ∈ seenIds acc) then acc
  else {| orderedPhrases := Array_push (orderedPhrases acc) p;
          seenIds := seenIds acc |}.

(** The cards in the order of the exported text. *)
Definition exportOrder (deck : Deck) (phrases : list Phrase) : list Phrase :=
  let afterQueue :=
    fold_left (addQueued (phraseMap phrases)) (deck_queue deck)
              {| orderedPhrases := []; seenIds := ∅ |} in
  orderedPhrases (fold_left addRemaining phrases afterQueue).

(** The [progress] field written for a card. *)
Definition exportedProgress (p : Phrase) : Z :=
  if consecutiveCorrect p >? 0 then consecutiveCorrect p
  else if consecutiveWrong p >? 0 then - consecutiveWrong p
  else 0.

Section BatchText.
(** Template literals print numbers with this function. *)
Variable Number_toString : Z -> string.

(** The callback of [orderedPhrases.map((p, idx) => ...)]. *)
Definition batchLine (p : Phrase) (idx : Z) : string :=
  (english p ++ " | " ++ chinese p ++ " | " ++ default "" (note p) ++ " | "
   ++ Number_toString (exportedProgress p) ++ " | " ++ Number_toString idx)%string.

(** [generateBatchText()] *)
Definition generateBatchText (deck : Deck) (phrases : list Phrase) : string :=
  String.concat newline (Array_mapi batchLine (exportOrder deck phrases)).

End BatchText.

End DeckEditor.

(** ** Vocabulary of the properties *)

(** The two streak counters are not negative. *)
Definition countersNonNegative (p : Phrase) : Prop :=
  0 <= consecutiveCorrect p /\ 0 <= consecutiveWrong p.

(** Exactly one of the two streak counters is non-zero. *)
Definition exactlyOneNonZero (p : Phrase) : Prop :=
  (consecutiveCorrect p <> 0 /\ consecutiveWrong p = 0) \/
  (consecutiveCorrect p = 0 /\ consecutiveWrong p <> 0).

(** The streak counter that an answer with outcome [c] counts up. *)
Definition streakOf (c : bool) (p : Phrase) : Z :=
  if c then consecutiveCorrect p else consecutiveWrong p.

(** One answer, as the deck's card list sees it: the [map] of
    [StudySession.calculateResult] with the id of the current card, or the
    [map] of [ExamSession.handleVerdict] with the current question. *)
Inductive AnswerEvent : Type :=
| StudyAnswer (currentPhraseId : string) (isCorrect : bool) (now : Z)
| ExamAnswer (currentPhrase : Phrase) (correct : bool) (now : Z).

Definition answeredId (a : AnswerEvent) : string :=
  match a with
  | StudyAnswer cur _ _ => cur
  | ExamAnswer currentPhrase _ _ => id currentPhrase
  end.

Definition applyAnswer (ps : list Phrase) (a : AnswerEvent) : list Phrase :=
  match a with
  | StudyAnswer cur isCorrect now =>
    map (StudySession.updatePhrase cur isCorrect now) ps
  | ExamAnswer currentPhrase correct now =>
    map (ExamSession.updatePhrase currentPhrase correct now) ps
  end.

(** Number of answers in [evs] given to the card with id [x]. *)
Definition answersTo (x : string) (evs : list AnswerEvent) : nat :=
  length (List.filter (fun a => String.eqb (answeredId a) x) evs).

(** Order of two parsed lines of the importer: a line with a position
    before a line without, smaller position first, and line order between
    equal positions and between lines without position. *)
Definition importedBefore (a b : Importer.ParsedItem) : Prop :=
  match Importer.position a, Importer.position b with
  | Some posA, Some posB =>
    posA < posB \/
    (posA = posB /\ Importer.originalIndex a < Importer.originalIndex b)
  | Some _, None => True
  | None, Some _ => False
  | None, None => Importer.originalIndex a < Importer.originalIndex b
  end.

(** The same order on the parsed lines of the deck editor. *)
Definition lineOrderBefore (a b : DeckEditor.ParsedItem) : Prop :=
  match DeckEditor.position a, DeckEditor.position b with
  | Some posA, Some posB =>
    posA < posB \/
    (posA = posB /\ DeckEditor.originalIndex a < DeckEditor.originalIndex b)
  | Some _, None => True
  | None, Some _ => False
  | None, None => DeckEditor.originalIndex a < DeckEditor.originalIndex b
  end.

(** Order of two parsed lines of the deck editor, given the map [m] of the
    cards already in the deck: as above, but between equal positions a line
    whose key is not in [m] goes before one whose key is, and line order
    decides only between two new or two old lines. *)
Definition savedBefore `{Runtime} (m : gmap string Phrase)
    (a b : DeckEditor.ParsedItem) : Prop :=
  let isOldA := DeckEditor.has m (DeckEditor.keyOf (DeckEditor.eng a)) in
  let isOldB := DeckEditor.has m (DeckEditor.keyOf (DeckEditor.eng b)) in
  match DeckEditor.position a, DeckEditor.position b with
  | Some posA, Some posB =>
    posA < posB \/
    (posA = posB /\
     ((isOldA = false /\ isOldB = true) \/
      (isOldA = isOldB /\
       DeckEditor.originalIndex a < DeckEditor.originalIndex b)))
  | Some _, None => True
  | None, Some _ => False
  | None, None => DeckEditor.originalIndex a < DeckEditor.originalIndex b
  end.

(** Counters of a card made from a line with progress field [p]. *)
Definition seededBy (p : Z) (ph : Phrase) : Prop :=
  consecutiveCorrect ph = Z.max p 0 /\
  consecutiveWrong ph = Z.max (- p) 0 /\
  totalReviews ph = consecutiveCorrect ph + consecutiveWrong ph /\
  totalReviews ph = Z.abs p.

(** What one line of the deck editor contributes to the saved deck, given
    the map [m] of the cards already there: a line with a new key makes a
    card seeded by its progress field, a line with a known key keeps the
    card's id and lifts its [totalReviews] to the seeded sum if that is
    larger. *)
Definition savedAs `{Runtime} (m : gmap string Phrase)
    (item : DeckEditor.ParsedItem) (ph : Phrase) : Prop :=
  english ph = DeckEditor.eng item /\
  chinese ph = DeckEditor.chi item /\
  consecutiveCorrect ph = Z.max (DeckEditor.progress item) 0 /\
  consecutiveWrong ph = Z.max (- DeckEditor.progress item) 0 /\
  match m !! DeckEditor.keyOf (DeckEditor.eng item) with
  | None => seededBy (DeckEditor.progress item) ph /\ lastReviewedAt ph = None
  | Some existing =>
    id ph = id existing /\
    totalReviews ph
    = Z.max (totalReviews existing) (Z.abs (DeckEditor.progress item))
  end.

(** Some card of [phrases] has the id [i]. *)
Definition resolves (phrases : list Phrase) (i : string) : Prop :=
  exists p : Phrase, In p phrases /\ id p = i.

(** Every id in the deck's queue is the id of one of its cards. *)
Definition queueResolved (d : Deck) : Prop :=
  Forall (resolves (deck_phrases d)) (deck_queue d).

(** Sum of [totalReviews] over the cards. *)
Definition totalReviewsOf (ps : list Phrase) : Z :=
  fold_right Z.add 0 (map totalReviews ps).

(** Number of cards counted by the status overlay. *)
Definition bucketsTotal (b : StudySession.Buckets) : Z :=
  StudySession.b_new b
  + StudySession.w1 b + StudySession.w2 b + StudySession.w3 b
  + StudySession.w4_5 b + StudySession.w6_10 b + StudySession.w10_plus b
  + StudySession.c1 b + StudySession.c2 b + StudySession.c3 b
  + StudySession.c4_5 b + StudySession.c6_10 b + StudySession.c10_plus b.



(** The card keeps its id, counters and review time. *)
Definition sameProgress (p p' : Phrase) : Prop :=
  id p' = id p /\
  consecutiveCorrect p' = consecutiveCorrect p /\
  consecutiveWrong p' = consecutiveWrong p /\
  totalReviews p' = totalReviews p /\
  lastReviewedAt p' = lastReviewedAt p.

(** What a study session keeps from the deck [d] it was started on: its
    queue is a rearrangement of the deck's, the deck it has written back
    holds the same queue and the same card ids, and while a card is being
    asked ([HIDDEN], [VERIFYING]) it is the head of the queue. *)
Definition studyInvariant (d : Deck) (st : StudySession.State) : Prop :=
  Permutation (StudySession.queue st) (deck_queue d) /\
  deck_queue (StudySession.deck st) = StudySession.queue st /\
  map id (deck_phrases (StudySession.deck st)) = map id (deck_phrases d) /\
  match StudySession.cardState st with
  | HIDDEN | VERIFYING =>
    StudySession.currentPhraseId st = head (StudySession.queue st)
  | MISSED | REVIEWED => True
  end.

(** The streak of [p] as an import of its exported line gives it to [q]:
    the correct streak, and the wrong streak unless the correct one is
    positive. *)
Definition streakRestored (p q : Phrase) : Prop :=
  consecutiveCorrect q = consecutiveCorrect p /\
  consecutiveWrong q
  = (if consecutiveCorrect p >? 0 then 0 else consecutiveWrong p).

(** The review count of the card is not negative and can take [n] more
    increments without passing 2^53, up to where they are exact. *)
Definition roomFor (n : Z) (p : Phrase) : Prop :=
  0 <= totalReviews p /\ totalReviews p + n <= MAX_SAFE_INTEGER + 1.

(** The tallies of a study session against the review counts of the
    deck [d] it was started on. *)
Definition talliesAgree (d : Deck) (st : StudySession.State) : Prop :=
  totalReviewsOf (deck_phrases (StudySession.deck st))
  = totalReviewsOf (deck_phrases d)
    + StudySession.sessionStats_correct st
    + StudySession.sessionStats_wrong st /\
  0 <= StudySession.sessionStats_correct st /\
  0 <= StudySession.sessionStats_wrong st.

(** The books of an exam: the results list the questions answered so far,
    in order; the score is the number of correct results; an exam that is
    not finished asks the first question without a result; a finished one
    has a result for every question. *)
Definition examBooks (st : ExamSession.State) : Prop :=
  ExamSession.isInitialized st = true /\
  map ExamSession.phrase (ExamSession.results st)
  = firstn (length (ExamSession.results st)) (ExamSession.questions st) /\
  ExamSession.score st
  = Array_length (List.filter ExamSession.correct (ExamSession.results st)) /\
  if ExamSession.isFinished st then
    length (ExamSession.results st) = length (ExamSession.questions st) /\
    ExamSession.questions st <> []
  else
    ExamSession.currentIndex st = Array_length (ExamSession.results st) /\
    (ExamSession.questions st = [] \/
     (length (ExamSession.results st) < length (ExamSession.questions st))%nat).

(** The index of an initialised exam is inside its question list. *)
Definition indexInRange (st : ExamSession.State) : Prop :=
  ExamSession.isInitialized st = true /\
  0 <= ExamSession.currentIndex st /\
  (ExamSession.questions st = [] \/
   ExamSession.currentIndex st < Array_length (ExamSession.questions st)).

(** A card after an exam against the card before: the id is kept, and the
    card is the same unless its id is the id of one of the questions [qs]. *)
Definition touchedOnlyIfAsked (qs : list Phrase) (p p' : Phrase) : Prop :=
  id p' = id p /\ (In (id p) (map id qs) \/ p' = p).

(** ** Sample data *)

(** A card with the given id and counters and no other content. *)
Definition card (i : string) (cc cw tr : Z) : Phrase :=
  {| id := i;
     chinese := "";
     english := i;
     consecutiveCorrect := cc;
     consecutiveWrong := cw;
     totalReviews := tr;
     lastReviewedAt := None;
     note := None |}.

(** A deck whose queue lists its cards in order. *)
Definition deckOf (ps : list Phrase) : Deck :=
  {| deck_id := "deck";
     deck_name := "deck";
     deck_phrases := ps;
     deck_queue := map id ps |}.

Definition deckABCDE : Deck :=
  deckOf [card "A" 0 0 0; card "B" 0 0 0; card "C" 0 0 0;
          card "D" 0 0 0; card "E" 0 0 0].

Definition deckABC_missedTwice : Deck :=
  deckOf [card "A" 0 2 2; card "B" 0 0 0; card "C" 0 0 0].

Definition deckA (cc cw : Z) : Deck := deckOf [card "A" cc cw (cc + cw)].

(** Two decks with ids of their own. *)
Definition deckSrc : Deck :=
  {| deck_id := "src"; deck_name := "source";
     deck_phrases := [card "A" 0 2 2; card "B" 3 0 3];
     deck_queue := ["B"; "A"] |}.

Definition deckDst : Deck :=
  {| deck_id := "dst"; deck_name := "target";
     deck_phrases := [card "Z" 1 0 1];
     deck_queue := ["Z"] |}.

(** An exam of three questions on [deckABCDE], with a shuffle that left
    the cards in place, after its init effect. *)
Definition examABC : ExamSession.State :=
  ExamSession.initEffect (fun l => l) (ExamSession.mount deckABCDE 3).

(** A small runtime for the examples: ASCII only, one-character
    separators, decimal [parseInt] with an optional minus sign. *)
Module SampleRuntime.

Fixpoint splitOn (c : ascii) (s : string) : list string :=
  match s with
  | EmptyString => [EmptyString]
  | String a s' =>
    if Ascii.eqb a c then EmptyString :: splitOn c s'
    else match splitOn c s' with
         | [] => [String a EmptyString]
         | w :: ws => String a w :: ws
         end
  end.

Definition split (s sep : string) : list string :=
  match sep with
  | String c EmptyString => splitOn c s
  | _ => [s]
  end.

Fixpoint trimLeft (s : string) : string :=
  match s with
  | String a s' => if Ascii.eqb a " " then trimLeft s' else s
  | EmptyString => EmptyString
  end.

Fixpoint trimRight (s : string) : string :=
  match s with
  | EmptyString => EmptyString
  | String a s' =>
    match trimRight s' with
    | EmptyString => if Ascii.eqb a " " then EmptyString else String a EmptyString
    | t => String a t
    end
  end.

Definition trim (s : string) : string := trimRight (trimLeft s).

Definition lowerChar (a : ascii) : ascii :=
  let n := nat_of_ascii a in
  if ((65 <=? n) && (n <=? 90))%nat then ascii_of_nat (n + 32) else a.

Fixpoint toLowerCase (s : string) : string :=
  match s with
  | EmptyString => EmptyString
  | String a s' => String (lowerChar a) (toLowerCase s')
  end.

Definition digit (a : ascii) : option Z :=
  let n := nat_of_ascii a in
  if ((48 <=? n) && (n <=? 57))%nat then Some (Z.of_nat n - 48) else None.

(** Value of the longest prefix of digits, [None] when there is none. *)
Fixpoint digits (acc : option Z) (s : string) : option Z :=
  match s with
  | EmptyString => acc
  | String a s' =>
    match digit a with
    | Some d => digits (Some (10 * default 0 acc + d)) s'
    | None => acc
    end
  end.

Definition parse (s : string) : option Z :=
  match s with
  | String a s' =>
    if Ascii.eqb a "-" then Z.opp <$> digits None s' else digits None s
  | EmptyString => None
  end.

(** Decimal digits of an integer, as a template literal prints it. *)
Definition toString (z : Z) : string := NilZero.string_of_int (Z.to_int z).

Definition ids (n : nat) : string :=
  String "#" (String (ascii_of_nat (48 + n)) EmptyString).

Definition runtime : Runtime :=
  {| String_trim := trim;
     String_toLowerCase := toLowerCase;
     String_split := split;
     parseInt := parse;
     uuidv4 := ids |}.

(** Ids that never repeat: [n] marks after a sharp. *)
Fixpoint marks (n : nat) : string :=
  match n with
  | O => EmptyString
  | S k => String "i" (marks k)
  end.

Definition freshIds (n : nat) : string := String "#" (marks n).

Definition freshRuntime : Runtime :=
  {| String_trim := trim;
     String_toLowerCase := toLowerCase;
     String_split := split;
     parseInt := parse;
     uuidv4 := freshIds |}.

End SampleRuntime.

(** Three import lines: an explicit position 1, no position, an explicit
    position 0. *)
Definition sampleText : string :=
  ("pear | li | | 2 | 1" ++ newline ++ "fig | wu" ++ newline
   ++ "apple | ping | n | -3 | 0")%string.

(** Two lines with the same explicit position; only the first is already
    in the deck [deckOf [card "apple" 0 0 0]]. *)
Definition sampleBatch : string :=
  ("apple | ping | | 0 | 0" ++ newline ++ "pear | li | | 0 | 0")%string.

(** * Properties *)

(** ** Rounded addition *)

Section Numbers.

(** Up to 2^53 in absolute value the sum is exact. *)
Lemma Number_add_exact (x y : Z) :
  - (MAX_SAFE_INTEGER + 1) <= x + y <= MAX_SAFE_INTEGER + 1 ->
  Number_add x y = x + y.
Proof.
  intros H. unfold Number_add, Number_round.
  destruct (Z.leb_spec (Z.abs (x + y)) (MAX_SAFE_INTEGER + 1)); [reflexivity|lia].
Qed.

(** Rounding does not take a number that is not negative below a bound
    that is itself at most 2^53. *)
Lemma Number_round_lower (k z : Z) :
  0 <= z -> k <= z -> k <= MAX_SAFE_INTEGER + 1 -> k <= Number_round z.
Proof.
  intros Hpos Hkz Hk. unfold Number_round.
  destruct (Z.leb_spec (Z.abs z) (MAX_SAFE_INTEGER + 1)) as [_|Hbig]; [exact Hkz|].
  rewrite Z.abs_eq in * by exact Hpos. unfold MAX_SAFE_INTEGER in *.
  rewrite Z.sgn_pos by lia.
  assert (Hlog : 53 <= Z.log2 z).
  { apply Z.log2_le_pow2; [lia|].
    change (2 ^ 53) with 9007199254740992. lia. }
  set (e := Z.log2 z - 52) in *.
  assert (Hpow : 0 < 2 ^ e) by (apply Z.pow_pos_nonneg; lia).
  assert (Hsplit : 2 ^ Z.log2 z = 2 ^ 52 * 2 ^ e).
  { rewrite <- Z.pow_add_r by lia. f_equal. lia. }
  assert (Hle : 2 ^ 52 * 2 ^ e <= z).
  { rewrite <- Hsplit. apply Z.log2_spec. lia. }
  assert (Hq : 2 ^ 52 <= z / 2 ^ e).
  { apply Z.div_le_lower_bound; lia. }
  set (q := z / 2 ^ e) in *.
  assert (Hq' : q <= (if z mod 2 ^ e <? 2 ^ (e - 1) then q
                      else if 2 ^ (e - 1) <? z mod 2 ^ e then q + 1
                      else if Z.even q then q else q + 1)).
  { destruct (_ <? _); [lia|]. destruct (_ <? _); [lia|].
    destruct (Z.even q); lia. }
  assert (He : 2 <= 2 ^ e).
  { change 2 with (2 ^ 1) at 1. apply Z.pow_le_mono_r; lia. }
  change (2 ^ 52) with 4503599627370496 in *.
  nia.
Qed.

(** Adding 1 to a counter that is not negative gives at least 1 more
    than any bound below the counter, up to 2^53. *)
Lemma Number_add_one_lower (k x : Z) :
  0 <= x -> k <= x -> k <= MAX_SAFE_INTEGER -> k + 1 <= Number_add x 1.
Proof.
  intros Hx Hkx Hk. apply Number_round_lower; lia.
Qed.

(** At 2^53 adding 1 changes nothing: 2^53 + 1 is no double and the tie
    goes to the even significand. *)
Lemma Number_add_stalls :
  Number_add (MAX_SAFE_INTEGER + 1) 1 = MAX_SAFE_INTEGER + 1.
Proof. reflexivity. Qed.

End Numbers.

(** ** The study scheduler *)

Section Scheduler.
Import StudySession.

Implicit Types (st : State) (cur : string) (p : Phrase) (now : Z).

Lemma updatePhrase_id cur c now p : id (updatePhrase cur c now p) = id p.
Proof. unfold updatePhrase. now destruct (String.eqb (id p) cur). Qed.

Lemma updatePhrase_other cur c now p :
  id p <> cur -> updatePhrase cur c now p = p.
Proof.
  intros Hne. unfold updatePhrase.
  destruct (String.eqb (id p) cur) eqn:E; [|reflexivity].
  apply String.eqb_eq in E. contradiction.
Qed.

Lemma find_updated cur c now (ps : list Phrase) :
  Array_find (hasId cur) (map (updatePhrase cur c now) ps)
  = option_map (updatePhrase cur c now) (Array_find (hasId cur) ps).
Proof.
  unfold Array_find, hasId.
  induction ps as [|q ps IH]; simpl; [reflexivity|].
  rewrite updatePhrase_id.
  destruct (String.eqb (id q) cur); [reflexivity | exact IH].
Qed.

Lemma find_hasId cur (ps : list Phrase) p :
  Array_find (hasId cur) ps = Some p -> id p = cur /\ In p ps.
Proof.
  unfold Array_find. intros Hf. apply find_some in Hf as [Hin Hid].
  split; [now apply String.eqb_eq | exact Hin].
Qed.

(** [calculateResult] returns a result whenever the current card is set,
    has a non-empty id and is in the deck, and the result is the one
    built from [updatePhrase], [requestedOffset] and [reinsert]. *)
Lemma calculateResult_returns st cur p c now :
  currentPhraseId st = Some cur ->
  cur <> "" ->
  Array_find (hasId cur) (deck_phrases (deck st)) = Some p ->
  let k := requestedOffset c (updatePhrase cur c now p) in
  calculateResult st c now =
  Returns {| updatedPhrases := map (updatePhrase cur c now) (deck_phrases (deck st));
             nextQueue := fst (reinsert k (Array_shift (queue st)) cur);
             insertOffset := snd (reinsert k (Array_shift (queue st)) cur) |}.
Proof.
  intros Hcur Hne Hfind k. unfold calculateResult.
  rewrite Hcur.
  destruct (String.eqb cur "") eqn:E.
  { apply String.eqb_eq in E. contradiction. }
  rewrite find_updated, Hfind. simpl.
  fold k. now destruct (reinsert k (Array_shift (queue st)) cur).
Qed.

Lemma calculateResult_no_card st c now :
  currentPhraseId st = None -> calculateResult st c now = ReturnsNull.
Proof. intros Hc. unfold calculateResult. now rewrite Hc. Qed.

Lemma calculateResult_missing st cur c now :
  currentPhraseId st = Some cur ->
  cur <> "" ->
  Array_find (hasId cur) (deck_phrases (deck st)) = None ->
  calculateResult st c now = ThrowsTypeError.
Proof.
  intros Hcur Hne Hfind. unfold calculateResult. rewrite Hcur.
  destruct (String.eqb cur "") eqn:E.
  { apply String.eqb_eq in E. contradiction. }
  now rewrite find_updated, Hfind.
Qed.

Lemma relativeIndex_in_range (k : Z) (len : nat) :
  0 <= k <= Z.of_nat len -> relativeIndex k len = Z.to_nat k.
Proof.
  intros Hk. unfold relativeIndex.
  destruct (k <? 0) eqn:E; [apply Z.ltb_lt in E; lia | lia].
Qed.

(** The two branches of [reinsert]. *)
Lemma reinsert_push (k : Z) (rest : list string) cur :
  Array_length rest < k ->
  reinsert k rest cur = (rest ++ [cur], Array_length rest + 1).
Proof.
  intros Hk. unfold reinsert.
  destruct (k >? Array_length rest) eqn:E; [|lia].
  unfold Array_push, Array_length. rewrite length_app. simpl.
  f_equal. lia.
Qed.

Lemma reinsert_splice (k : Z) (rest : list string) cur :
  0 <= k <= Array_length rest ->
  reinsert k rest cur
  = (firstn (Z.to_nat k) rest ++ cur :: skipn (Z.to_nat k) rest, k).
Proof.
  intros Hk. unfold reinsert.
  destruct (k >? Array_length rest) eqn:E; [lia|].
  unfold Array_splice_insert. now rewrite relativeIndex_in_range.
Qed.

Lemma reinsert_at_end (rest : list string) cur :
  reinsert (Array_length rest) rest cur = (rest ++ [cur], Array_length rest).
Proof.
  rewrite reinsert_splice by (unfold Array_length; lia).
  unfold Array_length. rewrite Nat2Z.id, firstn_all, skipn_all. reflexivity.
Qed.

Lemma reinsert_Permutation (k : Z) (rest : list string) cur :
  Permutation (fst (reinsert k rest cur)) (cur :: rest).
Proof.
  unfold reinsert. destruct (k >? Array_length rest); simpl.
  - unfold Array_push. symmetry. apply Permutation_cons_append.
  - unfold Array_splice_insert.
    rewrite <- Permutation_middle. now rewrite firstn_skipn.
Qed.

Lemma requestedOffset_correct p :
  requestedOffset true p = 2 ^ Number_add (consecutiveCorrect p) 1.
Proof. reflexivity. Qed.

Lemma requestedOffset_wrong p :
  requestedOffset false p =
  if (consecutiveWrong p >? 0) && (consecutiveWrong p mod 3 =? 0)
  then 10 else 2.
Proof.
  unfold requestedOffset. simpl.
  destruct (consecutiveWrong p >? 0) eqn:E; simpl; [|reflexivity].
  rewrite Z.rem_mod_nonneg by lia. reflexivity.
Qed.

End Scheduler.

Section SchedulerClaims.
Import StudySession.

(** C1, with the bounds the code needs.  A correct answer in study mode:
    [calculateResult] returns and, for a streak from 0 up to
    [MAX_SAFE_INTEGER], the card's new [consecutiveCorrect] is the old one
    plus 1.  As long as the exponent [consecutiveCorrect' + 1] is at most
    1023, the card is put back with the requested offset
    [k = 2^(consecutiveCorrect' + 1)], a finite double; for every longer
    streak, [k] exceeds the length of any array and the card is appended
    to the rest of the queue.  In the queue [A,B,C,D,E] with [A] at
    [consecutiveCorrect = 0] this gives the queue [B,C,D,E,A] and the
    reported offset 4. *)
Theorem correct_answer_offset :
  (forall (st : State) (cur : string) (p : Phrase) (now : Z),
      currentPhraseId st = Some cur ->
      cur <> "" ->
      Array_find (hasId cur) (deck_phrases (deck st)) = Some p ->
      0 <= consecutiveCorrect p ->
      exists (r : Result) (p' : Phrase),
        calculateResult st true now = Returns r /\
        Array_find (hasId cur) (updatedPhrases r) = Some p' /\
        (consecutiveCorrect p <= MAX_SAFE_INTEGER ->
         consecutiveCorrect p' = consecutiveCorrect p + 1) /\
        (consecutiveCorrect p + 2 <= 1023 ->
         (nextQueue r, insertOffset r)
         = reinsert (2 ^ (consecutiveCorrect p' + 1))
                    (Array_shift (queue st)) cur) /\
        (1023 < consecutiveCorrect p + 2 ->
         Array_length (Array_shift (queue st)) < 2 ^ 1023 ->
         nextQueue r = Array_shift (queue st) ++ [cur]))
  /\
  (forall (st : State) (p : Phrase) (now : Z),
      queue st = ["A"; "B"; "C"; "D"; "E"] ->
      currentPhraseId st = Some "A" ->
      Array_find (hasId "A") (deck_phrases (deck st)) = Some p ->
      consecutiveCorrect p = 0 ->
      exists r : Result,
        calculateResult st true now = Returns r /\
        insertOffset r = 4 /\
        nextQueue r = ["B"; "C"; "D"; "E"; "A"]).
Proof.
  split.
  - intros st cur p now Hcur Hne Hfind Hcc.
    pose proof (calculateResult_returns st cur p true now Hcur Hne Hfind) as Hr.
    cbv zeta in Hr.
    eexists; exists (updatePhrase cur true now p).
    split; [exact Hr|]. cbn [updatedPhrases nextQueue insertOffset].
    rewrite find_updated, Hfind. split; [reflexivity|].
    assert (Hp : consecutiveCorrect (updatePhrase cur true now p)
                 = Number_add (consecutiveCorrect p) 1).
    { apply find_hasId in Hfind as [Hid _]. unfold updatePhrase.
      rewrite Hid, String.eqb_refl. reflexivity. }
    rewrite requestedOffset_correct, Hp.
    split; [|split].
    + intros Hmax. apply Number_add_exact. unfold MAX_SAFE_INTEGER in *. lia.
    + intros Hfin.
      rewrite (Number_add_exact (consecutiveCorrect p) 1)
        by (unfold MAX_SAFE_INTEGER; lia).
      rewrite (Number_add_exact (consecutiveCorrect p + 1) 1)
        by (unfold MAX_SAFE_INTEGER; lia).
      symmetry. apply surjective_pairing.
    + intros Hbig Hlen.
      assert (H1 : 1023 <= Number_add (consecutiveCorrect p) 1).
      { apply (Number_add_one_lower 1022);
          [lia | lia | unfold MAX_SAFE_INTEGER; lia]. }
      assert (H2 : 1024 <= Number_add (Number_add (consecutiveCorrect p) 1) 1).
      { apply (Number_add_one_lower 1023);
          [lia | lia | unfold MAX_SAFE_INTEGER; lia]. }
      assert (Hpow : 2 ^ 1023 <= 2 ^ Number_add (Number_add (consecutiveCorrect p) 1) 1).
      { apply Z.pow_le_mono_r; lia. }
      rewrite reinsert_push by lia. reflexivity.
  - intros st p now Hq Hcur Hfind Hcc.
    assert (Hne : "A" <> "") by discriminate.
    pose proof (calculateResult_returns st "A" p true now Hcur Hne Hfind) as Hr.
    eexists. split; [exact Hr|].
    assert (Hk : requestedOffset true (updatePhrase "A" true now p) = 4).
    { apply find_hasId in Hfind as [Hid _]. unfold updatePhrase.
      rewrite Hid. simpl. rewrite Hcc. reflexivity. }
    simpl. rewrite Hk, Hq. split; reflexivity.
Qed.

(** C1 as stated fails at a streak of 2^53, which one import line with
    that progress value seeds: [2^53 + 1] is rounded back to [2^53], so
    the correct answer leaves [consecutiveCorrect] as it was. *)
Lemma correct_streak_stalls :
  let p := card "A" (MAX_SAFE_INTEGER + 1) 0 (MAX_SAFE_INTEGER + 1) in
  exists (r : Result) (p' : Phrase),
    calculateResult (init (deckOf [p])) true 7 = Returns r /\
    Array_find (hasId "A") (updatedPhrases r) = Some p' /\
    consecutiveCorrect p' = consecutiveCorrect p /\
    consecutiveCorrect p' <> consecutiveCorrect p + 1.
Proof.
  intros p.
  assert (Hfind : Array_find (hasId "A") (deck_phrases (deck (init (deckOf [p]))))
                  = Some p) by reflexivity.
  pose proof (calculateResult_returns (init (deckOf [p])) "A" p true 7
                eq_refl ltac:(discriminate) Hfind) as Hr.
  cbv zeta in Hr.
  eexists; exists (updatePhrase "A" true 7 p).
  split; [exact Hr|]. cbn [updatedPhrases].
  rewrite find_updated, Hfind.
  split; [reflexivity|]. split; [reflexivity | discriminate].
Qed.

(** C2, with the bound the code needs.  A wrong answer in study mode:
    [calculateResult] returns; for a streak from 0 up to
    [MAX_SAFE_INTEGER] the card's new [consecutiveWrong] is the old one
    plus 1, and the requested offset [k] is 10 exactly when the new
    counter is positive and a multiple of 3, and 2 otherwise.  The test
    reads the incremented counter: the [n]-th miss in a row gets 10
    exactly when 3 divides [n], so not the first and not the second. *)
Theorem wrong_answer_offset :
  forall (st : State) (cur : string) (p : Phrase) (now : Z),
    currentPhraseId st = Some cur ->
    cur <> "" ->
    Array_find (hasId cur) (deck_phrases (deck st)) = Some p ->
    0 <= consecutiveWrong p ->
    consecutiveWrong p <= MAX_SAFE_INTEGER ->
    exists (r : Result) (p' : Phrase) (k : Z),
      calculateResult st false now = Returns r /\
      Array_find (hasId cur) (updatedPhrases r) = Some p' /\
      consecutiveWrong p' = consecutiveWrong p + 1 /\
      (nextQueue r, insertOffset r) = reinsert k (Array_shift (queue st)) cur /\
      (consecutiveWrong p' > 0 /\ consecutiveWrong p' mod 3 = 0 -> k = 10) /\
      (~ (consecutiveWrong p' > 0 /\ consecutiveWrong p' mod 3 = 0) -> k = 2) /\
      (forall n : Z, 1 <= n -> consecutiveWrong p = n - 1 ->
                     (k = 10 <-> (3 | n)) /\ (n = 1 \/ n = 2 -> k = 2)).
Proof.
  intros st cur p now Hcur Hne Hfind Hcw0 Hmax.
  pose proof (calculateResult_returns st cur p false now Hcur Hne Hfind) as Hr.
  simpl in Hr.
  set (p' := updatePhrase cur false now p) in *.
  assert (Hp : consecutiveWrong p' = consecutiveWrong p + 1).
  { apply find_hasId in Hfind as [Hid _]. subst p'. unfold updatePhrase.
    rewrite Hid, String.eqb_refl. cbn [consecutiveWrong].
    apply Number_add_exact. unfold MAX_SAFE_INTEGER in *. lia. }
  eexists; exists p', (requestedOffset false p').
  split; [exact Hr|]. simpl.
  rewrite find_updated, Hfind. split; [reflexivity|].
  split; [exact Hp|].
  split; [now destruct (reinsert _ _ _)|].
  rewrite requestedOffset_wrong.
  assert (Hten : consecutiveWrong p' > 0 /\ consecutiveWrong p' mod 3 = 0 ->
                 (if (consecutiveWrong p' >? 0) && (consecutiveWrong p' mod 3 =? 0)
                  then 10 else 2) = 10).
  { intros [Hpos Hmod].
    rewrite (proj2 (Z.gtb_gt _ _)) by lia.
    rewrite Hmod. reflexivity. }
  assert (Htwo : ~ (consecutiveWrong p' > 0 /\ consecutiveWrong p' mod 3 = 0) ->
                 (if (consecutiveWrong p' >? 0) && (consecutiveWrong p' mod 3 =? 0)
                  then 10 else 2) = 2).
  { intros Hn.
    destruct (consecutiveWrong p' >? 0) eqn:Epos; [|reflexivity].
    destruct (consecutiveWrong p' mod 3 =? 0) eqn:Emod; [|reflexivity].
    exfalso. apply Hn. apply Z.gtb_gt in Epos. apply Z.eqb_eq in Emod.
    split; assumption. }
  split; [exact Hten|]. split; [exact Htwo|].
  intros n Hn Hcw.
  assert (Hcw' : consecutiveWrong p' = n) by lia.
  rewrite Hcw' in *.
  destruct (Z.eq_dec (n mod 3) 0) as [Hmod|Hmod].
  - rewrite Hten by (split; [lia | exact Hmod]).
    split.
    + split; [intros _; apply Z.mod_divide; [lia | exact Hmod] | reflexivity].
    + intros [->| ->]; discriminate Hmod.
  - rewrite Htwo by (intros [_ H0]; contradiction).
    split.
    + split; [discriminate|].
      intros Hdiv. apply Z.mod_divide in Hdiv; [contradiction | lia].
    + reflexivity.
Qed.

(** C2 as stated fails at a streak of 2^53 misses, which one import line
    seeds: the wrong answer leaves [consecutiveWrong] at 2^53, and the
    code requests 2 although the prior value plus 1 is positive and a
    multiple of 3. *)
Lemma wrong_streak_stalls :
  let p := card "A" 0 (MAX_SAFE_INTEGER + 1) (MAX_SAFE_INTEGER + 1) in
  exists (r : Result) (p' : Phrase),
    calculateResult (init (deckOf [p; card "B" 0 0 0; card "C" 0 0 0])) false 7
    = Returns r /\
    Array_find (hasId "A") (updatedPhrases r) = Some p' /\
    consecutiveWrong p' = consecutiveWrong p /\
    consecutiveWrong p' <> consecutiveWrong p + 1 /\
    (consecutiveWrong p + 1 > 0 /\ (consecutiveWrong p + 1) mod 3 = 0) /\
    requestedOffset false p' = 2 /\
    nextQueue r = ["B"; "C"; "A"] /\ insertOffset r = 2.
Proof.
  intros p. eexists. eexists.
  split; [reflexivity|]. split; [reflexivity|].
  split; [reflexivity|]. split; [discriminate|].
  split; [split; reflexivity|].
  split; [reflexivity|]. split; reflexivity.
Qed.

Lemma correct_answer_offset_witness :
  let st := init deckABCDE in
  (currentPhraseId st = Some "A" /\ "A" <> "" /\
   Array_find (hasId "A") (deck_phrases (deck st)) = Some (card "A" 0 0 0) /\
   0 <= consecutiveCorrect (card "A" 0 0 0)) /\
  (exists (r : Result) (p' : Phrase),
    calculateResult st true 7 = Returns r /\
    Array_find (hasId "A") (updatedPhrases r) = Some p' /\
    (consecutiveCorrect (card "A" 0 0 0) <= MAX_SAFE_INTEGER ->
     consecutiveCorrect p' = consecutiveCorrect (card "A" 0 0 0) + 1) /\
    (consecutiveCorrect (card "A" 0 0 0) + 2 <= 1023 ->
     (nextQueue r, insertOffset r)
     = reinsert (2 ^ (consecutiveCorrect p' + 1)) (Array_shift (queue st)) "A") /\
    (1023 < consecutiveCorrect (card "A" 0 0 0) + 2 ->
     Array_length (Array_shift (queue st)) < 2 ^ 1023 ->
     nextQueue r = Array_shift (queue st) ++ ["A"]))
  /\
  (queue st = ["A"; "B"; "C"; "D"; "E"] /\
   consecutiveCorrect (card "A" 0 0 0) = 0) /\
  exists r : Result,
    calculateResult st true 7 = Returns r /\
    insertOffset r = 4 /\
    nextQueue r = ["B"; "C"; "D"; "E"; "A"].
Proof.
  split; [|split; [|split]].
  - repeat split; [discriminate | simpl; lia].
  - apply (proj1 correct_answer_offset (init deckABCDE) "A" (card "A" 0 0 0) 7);
      [reflexivity | discriminate | reflexivity | simpl; lia].
  - split; reflexivity.
  - apply (proj2 correct_answer_offset (init deckABCDE) (card "A" 0 0 0) 7);
      reflexivity.
Defined.

Lemma wrong_answer_offset_witness :
  let st := init deckABC_missedTwice in
  (currentPhraseId st = Some "A" /\ "A" <> "" /\
   Array_find (hasId "A") (deck_phrases (deck st)) = Some (card "A" 0 2 2) /\
   0 <= consecutiveWrong (card "A" 0 2 2) /\
   consecutiveWrong (card "A" 0 2 2) <= MAX_SAFE_INTEGER) /\
  exists (r : Result) (p' : Phrase) (k : Z),
    calculateResult st false 7 = Returns r /\
    Array_find (hasId "A") (updatedPhrases r) = Some p' /\
    consecutiveWrong p' = consecutiveWrong (card "A" 0 2 2) + 1 /\
    (nextQueue r, insertOffset r) = reinsert k (Array_shift (queue st)) "A" /\
    (consecutiveWrong p' > 0 /\ consecutiveWrong p' mod 3 = 0 -> k = 10) /\
    (~ (consecutiveWrong p' > 0 /\ consecutiveWrong p' mod 3 = 0) -> k = 2) /\
    (forall n : Z, 1 <= n -> consecutiveWrong (card "A" 0 2 2) = n - 1 ->
                   (k = 10 <-> (3 | n)) /\ (n = 1 \/ n = 2 -> k = 2)).
Proof.
  split.
  - repeat split; solve [discriminate | simpl; unfold MAX_SAFE_INTEGER; lia].
  - apply (wrong_answer_offset (init deckABC_missedTwice) "A" (card "A" 0 2 2) 7);
      [reflexivity | discriminate | reflexivity | simpl; lia
       | simpl; unfold MAX_SAFE_INTEGER; lia].
Defined.

(** C3, evaluated where the requested offset exceeds the length of the
    rest of the queue.  The card is appended, as the claim says, but the
    reported offset is the length of the rest plus 1: a queue holding
    only the answered card reports 1 for either answer, and the third
    miss in a row on [A] in [A,B,C] gives [B,C,A] and reports 3. *)
Theorem clamp_reports_past_the_end :
  (forall (isCorrect : bool) (now : Z),
      exists r : Result,
        calculateResult (init (deckA 0 0)) isCorrect now = Returns r /\
        nextQueue r = ["A"] /\ insertOffset r = 1)
  /\
  (forall now : Z,
      exists r : Result,
        calculateResult (init deckABC_missedTwice) false now = Returns r /\
        nextQueue r = ["B"; "C"; "A"] /\ insertOffset r = 3).
Proof.
  split.
  - intros [|] now; eexists; (split; [reflexivity|]); split; reflexivity.
  - intros now; eexists; (split; [reflexivity|]); split; reflexivity.
Qed.

(** C6.  One scheduler step on a duplicate-free queue whose head is the
    answered card returns a queue that is a permutation of the queue
    before: it is duplicate-free again, holds the answered id once and
    every id exactly as often as before. *)
Theorem queue_is_permutation :
  forall (st : State) (cur : string) (rest : list string) (p : Phrase)
         (isCorrect : bool) (now : Z),
    queue st = cur :: rest ->
    List.NoDup (cur :: rest) ->
    currentPhraseId st = Some cur ->
    cur <> "" ->
    Array_find (hasId cur) (deck_phrases (deck st)) = Some p ->
    exists r : Result,
      calculateResult st isCorrect now = Returns r /\
      Permutation (nextQueue r) (queue st) /\
      List.NoDup (nextQueue r) /\
      count_occ string_dec (nextQueue r) cur = 1%nat /\
      (forall x : string,
          count_occ string_dec (nextQueue r) x
          = count_occ string_dec (queue st) x).
Proof.
  intros st cur rest p c now Hq Hnd Hcur Hne Hfind.
  pose proof (calculateResult_returns st cur p c now Hcur Hne Hfind) as Hr.
  simpl in Hr. eexists. split; [exact Hr|]. simpl.
  rewrite Hq. simpl.
  set (k := requestedOffset c (updatePhrase cur c now p)).
  pose proof (reinsert_Permutation k rest cur) as Hperm.
  assert (Hnd' : List.NoDup (fst (reinsert k rest cur))).
  { eapply Permutation_NoDup; [symmetry; exact Hperm | exact Hnd]. }
  split; [exact Hperm|]. split; [exact Hnd'|]. split.
  - apply NoDup_count_occ'; [exact Hnd'|].
    eapply Permutation_in; [symmetry; exact Hperm | now left].
  - intros x. exact (proj1 (Permutation_count_occ string_dec _ _) Hperm x).
Qed.

Lemma queue_is_permutation_witness :
  let st := init deckABCDE in
  (queue st = "A" :: ["B"; "C"; "D"; "E"] /\
   currentPhraseId st = Some "A" /\ "A" <> "" /\
   Array_find (hasId "A") (deck_phrases (deck st)) = Some (card "A" 0 0 0)) /\
  exists r : Result,
    calculateResult st true 7 = Returns r /\
    Permutation (nextQueue r) (queue st) /\
    List.NoDup (nextQueue r) /\
    count_occ string_dec (nextQueue r) "A" = 1%nat /\
    (forall x : string,
        count_occ string_dec (nextQueue r) x
        = count_occ string_dec (queue st) x).
Proof.
  split.
  - repeat split; discriminate.
  - apply (queue_is_permutation (init deckABCDE) "A" ["B"; "C"; "D"; "E"]
             (card "A" 0 0 0) true 7);
      [reflexivity | | reflexivity | discriminate | reflexivity].
    repeat constructor; simpl; intuition discriminate.
Defined.

End SchedulerClaims.

(** ** Counters *)

Section Counters.

Lemma study_updatePhrase_hit cur c now p :
  id p = cur ->
  let p' := StudySession.updatePhrase cur c now p in
  consecutiveCorrect p'
  = (if c then Number_add (consecutiveCorrect p) 1 else 0) /\
  consecutiveWrong p'
  = (if c then 0 else Number_add (consecutiveWrong p) 1) /\
  totalReviews p' = Number_add (totalReviews p) 1.
Proof.
  intros <-. unfold StudySession.updatePhrase.
  rewrite String.eqb_refl. simpl. auto.
Qed.

Lemma exam_updatePhrase_hit cp c now p :
  id p = id cp ->
  let p' := ExamSession.updatePhrase cp c now p in
  consecutiveCorrect p'
  = (if c then Number_add (consecutiveCorrect p) 1 else 0) /\
  consecutiveWrong p'
  = (if c then 0 else Number_add (consecutiveWrong p) 1) /\
  totalReviews p' = Number_add (totalReviews p) 1.
Proof.
  intros Hid. unfold ExamSession.updatePhrase.
  rewrite Hid, String.eqb_refl. simpl. auto.
Qed.

Lemma exam_updatePhrase_id cp c now p :
  id (ExamSession.updatePhrase cp c now p) = id p.
Proof.
  unfold ExamSession.updatePhrase. now destruct (String.eqb (id p) (id cp)).
Qed.

Lemma exam_find_updated cp c now (ps : list Phrase) :
  Array_find (hasId (id cp)) (map (ExamSession.updatePhrase cp c now) ps)
  = option_map (ExamSession.updatePhrase cp c now)
               (Array_find (hasId (id cp)) ps).
Proof.
  unfold Array_find, hasId.
  induction ps as [|q ps IH]; simpl; [reflexivity|].
  rewrite exam_updatePhrase_id.
  destruct (String.eqb (id q) (id cp)); [reflexivity | exact IH].
Qed.

(** Counters after one answer, from the counters before: the other
    streak is 0, the streak of the outcome is at least 1, and it is the old
    one plus 1 when that was at most [MAX_SAFE_INTEGER]. *)
Lemma answered_counters (c : bool) (p p' : Phrase) :
  countersNonNegative p ->
  consecutiveCorrect p'
  = (if c then Number_add (consecutiveCorrect p) 1 else 0) ->
  consecutiveWrong p'
  = (if c then 0 else Number_add (consecutiveWrong p) 1) ->
  streakOf (negb c) p' = 0 /\
  1 <= streakOf c p' /\
  (streakOf c p <= MAX_SAFE_INTEGER -> streakOf c p' = streakOf c p + 1) /\
  exactlyOneNonZero p' /\ countersNonNegative p'.
Proof.
  intros [Hc Hw] Hc' Hw'.
  unfold exactlyOneNonZero, countersNonNegative, streakOf.
  assert (H1c : 0 + 1 <= Number_add (consecutiveCorrect p) 1)
    by (apply Number_add_one_lower; unfold MAX_SAFE_INTEGER; lia).
  assert (H1w : 0 + 1 <= Number_add (consecutiveWrong p) 1)
    by (apply Number_add_one_lower; unfold MAX_SAFE_INTEGER; lia).
  destruct c; cbn [negb]; rewrite Hc', Hw'.
  - split; [reflexivity|]. split; [lia|]. split; [|split; [left; lia | lia]].
    intros Hmax. apply Number_add_exact. unfold MAX_SAFE_INTEGER in *. lia.
  - split; [reflexivity|]. split; [lia|]. split; [|split; [right; lia | lia]].
    intros Hmax. apply Number_add_exact. unfold MAX_SAFE_INTEGER in *. lia.
Qed.

(** The deck after a study answer that [calculateResult] accepted. *)
Lemma study_handleVerdict_deck st cur p c now :
  StudySession.currentPhraseId st = Some cur ->
  cur <> "" ->
  Array_find (hasId cur) (deck_phrases (StudySession.deck st)) = Some p ->
  deck_phrases (StudySession.deck (StudySession.handleVerdict st c now))
  = applyAnswer (deck_phrases (StudySession.deck st)) (StudyAnswer cur c now).
Proof.
  intros Hcur Hne Hfind. unfold StudySession.handleVerdict.
  rewrite (calculateResult_returns st cur p c now Hcur Hne Hfind).
  reflexivity.
Qed.

Lemma study_handleDontKnow_deck st cur p now :
  StudySession.currentPhraseId st = Some cur ->
  cur <> "" ->
  Array_find (hasId cur) (deck_phrases (StudySession.deck st)) = Some p ->
  deck_phrases (StudySession.deck (StudySession.handleDontKnow st now))
  = applyAnswer (deck_phrases (StudySession.deck st)) (StudyAnswer cur false now).
Proof.
  intros Hcur Hne Hfind. unfold StudySession.handleDontKnow.
  rewrite (calculateResult_returns st cur p false now Hcur Hne Hfind).
  reflexivity.
Qed.

(** An exam verdict returns whenever there is a current question. *)
Lemma exam_handleVerdict_returns st cp c now :
  ExamSession.questionAt (ExamSession.questions st) (ExamSession.currentIndex st)
  = Some cp ->
  exists st',
    ExamSession.handleVerdict st c now = Returns st' /\
    deck_phrases (ExamSession.deck st')
    = applyAnswer (deck_phrases (ExamSession.deck st)) (ExamAnswer cp c now) /\
    ExamSession.questions st' = ExamSession.questions st /\
    ExamSession.isInitialized st' = ExamSession.isInitialized st.
Proof.
  intros Hq. unfold ExamSession.handleVerdict. rewrite Hq.
  eexists. split; [reflexivity|]. simpl. auto.
Qed.

Lemma applyAnswer_one (a : AnswerEvent) (ps : list Phrase) :
  Forall2 (fun q q' =>
             id q' = id q /\
             totalReviews q'
             = (if String.eqb (answeredId a) (id q)
                then Number_add (totalReviews q) 1 else totalReviews q))
          ps (applyAnswer ps a).
Proof.
  induction ps as [|q ps IH]; destruct a as [cur c now | cp c now]; simpl in *;
    constructor; try exact IH.
  - unfold StudySession.updatePhrase. rewrite (String.eqb_sym cur).
    destruct (String.eqb (id q) cur); simpl; split; reflexivity.
  - unfold ExamSession.updatePhrase. rewrite (String.eqb_sym (id cp)).
    destruct (String.eqb (id q) (id cp)); simpl; split; reflexivity.
Qed.

Lemma applyAnswers_total (evs : list AnswerEvent) (ps : list Phrase) :
  Forall2 (fun q q' =>
             id q' = id q /\
             (0 <= totalReviews q ->
              totalReviews q + Z.of_nat (answersTo (id q) evs)
              <= MAX_SAFE_INTEGER + 1 ->
              totalReviews q'
              = totalReviews q + Z.of_nat (answersTo (id q) evs)))
          ps (fold_left applyAnswer evs ps).
Proof.
  revert ps. induction evs as [|a evs IH]; intros ps; simpl.
  - induction ps; constructor;
      [split; [reflexivity | unfold answersTo; simpl; lia] | assumption].
  - pose proof (applyAnswer_one a ps) as H1.
    pose proof (IH (applyAnswer ps a)) as H2.
    revert H2. generalize (fold_left applyAnswer evs (applyAnswer ps a)).
    induction H1 as [|q q1 ps ps1 [Hid Htr] _ IH1]; intros l H2;
      inversion H2 as [|? q2 ? l2 [Hid2 Htr2] Hrest]; subst; constructor.
    + split; [congruence|]. rewrite Hid in Htr2.
      unfold answersTo in *. cbn [List.filter].
      destruct (String.eqb (answeredId a) (id q)); cbn [length] in *;
        intros H0 Hmax.
      * rewrite Number_add_exact in Htr by (unfold MAX_SAFE_INTEGER in *; lia).
        rewrite Htr2 by lia. lia.
      * rewrite Htr2 by lia. lia.
    + apply IH1. exact Hrest.
Qed.

End Counters.

Section CounterClaims.

(** C4, with the bound the code needs.  After an answer in study mode
    ([handleVerdict], or [handleDontKnow], which answers wrong) and after
    a verdict in exam mode, the answered card has the other streak at 0
    and the streak of the outcome at 1 or more, so exactly one of the two
    is non-zero; this needs only that the counters were not negative
    before, which the invariant on cards includes, and they are not
    negative after.  The streak of the outcome is the old one plus 1 when
    the old one was at most [MAX_SAFE_INTEGER]. *)
Theorem counters_exclusive_after_answer :
  (forall (st : StudySession.State) (cur : string) (p : Phrase)
          (isCorrect : bool) (now : Z),
      StudySession.currentPhraseId st = Some cur ->
      cur <> "" ->
      Array_find (hasId cur) (deck_phrases (StudySession.deck st)) = Some p ->
      countersNonNegative p ->
      (exists p' : Phrase,
          Array_find (hasId cur)
            (deck_phrases (StudySession.deck
                             (StudySession.handleVerdict st isCorrect now)))
          = Some p' /\
          streakOf (negb isCorrect) p' = 0 /\
          1 <= streakOf isCorrect p' /\
          (streakOf isCorrect p <= MAX_SAFE_INTEGER ->
           streakOf isCorrect p' = streakOf isCorrect p + 1) /\
          exactlyOneNonZero p' /\ countersNonNegative p') /\
      (exists p' : Phrase,
          Array_find (hasId cur)
            (deck_phrases (StudySession.deck
                             (StudySession.handleDontKnow st now)))
          = Some p' /\
          consecutiveCorrect p' = 0 /\
          1 <= consecutiveWrong p' /\
          (consecutiveWrong p <= MAX_SAFE_INTEGER ->
           consecutiveWrong p' = consecutiveWrong p + 1) /\
          exactlyOneNonZero p' /\ countersNonNegative p'))
  /\
  (forall (st : ExamSession.State) (currentPhrase p : Phrase)
          (correct : bool) (now : Z),
      ExamSession.questionAt (ExamSession.questions st)
                             (ExamSession.currentIndex st)
      = Some currentPhrase ->
      Array_find (hasId (id currentPhrase))
                 (deck_phrases (ExamSession.deck st)) = Some p ->
      countersNonNegative p ->
      exists (st' : ExamSession.State) (p' : Phrase),
        ExamSession.handleVerdict st correct now = Returns st' /\
        Array_find (hasId (id currentPhrase))
                   (deck_phrases (ExamSession.deck st')) = Some p' /\
        streakOf (negb correct) p' = 0 /\
        1 <= streakOf correct p' /\
        (streakOf correct p <= MAX_SAFE_INTEGER ->
         streakOf correct p' = streakOf correct p + 1) /\
        exactlyOneNonZero p' /\ countersNonNegative p').
Proof.
  split.
  - intros st cur p c now Hcur Hne Hfind Hnn.
    pose proof (find_hasId _ _ _ Hfind) as [Hid _].
    split.
    + exists (StudySession.updatePhrase cur c now p).
      rewrite (study_handleVerdict_deck st cur p c now Hcur Hne Hfind).
      cbn [applyAnswer]. rewrite find_updated, Hfind.
      destruct (study_updatePhrase_hit cur c now p Hid) as (Hc & Hw & _).
      split; [reflexivity|].
      exact (answered_counters c p _ Hnn Hc Hw).
    + exists (StudySession.updatePhrase cur false now p).
      rewrite (study_handleDontKnow_deck st cur p now Hcur Hne Hfind).
      cbn [applyAnswer]. rewrite find_updated, Hfind.
      destruct (study_updatePhrase_hit cur false now p Hid) as (Hc & Hw & _).
      split; [reflexivity|].
      exact (answered_counters false p _ Hnn Hc Hw).
  - intros st cp p c now Hq Hfind Hnn.
    pose proof (find_hasId _ _ _ Hfind) as [Hid _].
    destruct (exam_handleVerdict_returns st cp c now Hq)
      as (st' & Hret & Hdeck & _).
    exists st', (ExamSession.updatePhrase cp c now p).
    split; [exact Hret|]. rewrite Hdeck. cbn [applyAnswer].
    rewrite exam_find_updated, Hfind.
    destruct (exam_updatePhrase_hit cp c now p Hid) as (Hc & Hw & _).
    split; [reflexivity|].
    exact (answered_counters c p _ Hnn Hc Hw).
Qed.

(** C4 as stated fails at a streak of 2^53, which one import line seeds:
    the card satisfies the invariant, and a wrong answer, in study mode or
    in an exam, leaves its [consecutiveWrong] at 2^53 instead of
    incrementing it. *)
Lemma streak_not_incremented :
  let p := card "A" 0 (MAX_SAFE_INTEGER + 1) (MAX_SAFE_INTEGER + 1) in
  let d := deckOf [p; card "B" 0 0 0] in
  let st := ExamSession.initEffect (fun l => l) (ExamSession.mount d 2) in
  exactlyOneNonZero p /\ countersNonNegative p /\
  (exists p' : Phrase,
      Array_find (hasId "A")
        (deck_phrases (StudySession.deck
                         (StudySession.handleVerdict (StudySession.init d) false 7)))
      = Some p' /\
      consecutiveWrong p' = consecutiveWrong p /\
      consecutiveWrong p' <> consecutiveWrong p + 1) /\
  (exists (st' : ExamSession.State) (p' : Phrase),
      ExamSession.handleVerdict st false 7 = Returns st' /\
      Array_find (hasId "A") (deck_phrases (ExamSession.deck st')) = Some p' /\
      consecutiveWrong p' = consecutiveWrong p /\
      consecutiveWrong p' <> consecutiveWrong p + 1).
Proof.
  intros p d st.
  split; [right; split; [reflexivity | discriminate]|].
  split; [split; discriminate|].
  split.
  - eexists. split; [reflexivity|]. split; [reflexivity | discriminate].
  - eexists. eexists. split; [reflexivity|].
    split; [reflexivity|]. split; [reflexivity | discriminate].
Qed.

Lemma counters_exclusive_after_answer_witness :
  let st := StudySession.init deckABC_missedTwice in
  let p := card "A" 0 2 2 in
  (StudySession.currentPhraseId st = Some "A" /\ "A" <> "" /\
   Array_find (hasId "A") (deck_phrases (StudySession.deck st)) = Some p /\
   countersNonNegative p) /\
  (exists p' : Phrase,
    Array_find (hasId "A")
      (deck_phrases (StudySession.deck (StudySession.handleVerdict st true 7)))
    = Some p' /\
    streakOf (negb true) p' = 0 /\
    1 <= streakOf true p' /\
    (streakOf true p <= MAX_SAFE_INTEGER ->
     streakOf true p' = streakOf true p + 1) /\
    exactlyOneNonZero p' /\ countersNonNegative p')
  /\
  (ExamSession.questionAt (ExamSession.questions examABC)
                          (ExamSession.currentIndex examABC)
   = Some (card "A" 0 0 0) /\
   Array_find (hasId "A") (deck_phrases (ExamSession.deck examABC))
   = Some (card "A" 0 0 0) /\
   countersNonNegative (card "A" 0 0 0)) /\
  exists (st' : ExamSession.State) (p' : Phrase),
    ExamSession.handleVerdict examABC false 7 = Returns st' /\
    Array_find (hasId "A") (deck_phrases (ExamSession.deck st')) = Some p' /\
    streakOf (negb false) p' = 0 /\
    1 <= streakOf false p' /\
    (streakOf false (card "A" 0 0 0) <= MAX_SAFE_INTEGER ->
     streakOf false p' = streakOf false (card "A" 0 0 0) + 1) /\
    exactlyOneNonZero p' /\ countersNonNegative p'.
Proof.
  assert (Hnn : countersNonNegative (card "A" 0 2 2))
    by (unfold countersNonNegative; simpl; lia).
  assert (Hnn0 : countersNonNegative (card "A" 0 0 0))
    by (unfold countersNonNegative; simpl; lia).
  split; [|split; [|split]].
  - repeat split; solve [discriminate | simpl; lia].
  - exact (proj1 (proj1 counters_exclusive_after_answer
                    (StudySession.init deckABC_missedTwice) "A"
                    (card "A" 0 2 2) true 7
                    eq_refl ltac:(discriminate) eq_refl Hnn)).
  - repeat split; simpl; lia.
  - exact (proj2 counters_exclusive_after_answer examABC
             (card "A" 0 0 0) (card "A" 0 0 0) false 7 eq_refl eq_refl Hnn0).
Defined.

(** C5, with the bound the code needs.  An accepted answer maps the deck's
    cards through [applyAnswer] (study verdict, "don't know", exam
    verdict); [applyAnswer] replaces [totalReviews] of a card with the
    answered id by [Number_add totalReviews 1], whatever the outcome,
    which is [totalReviews + 1] for a count from 0 up to
    [MAX_SAFE_INTEGER], and leaves every other card's count alone; the
    handlers of the answer path that are not answers ([handleKnow],
    [handleNext], [handleReveal], the exam's init effect) leave the deck
    alone.  So after any sequence of answers that does not take a card's
    count beyond 2^53, the count has grown by the number of answers given
    to the card, and from 0 it equals that number. *)
Theorem total_reviews_counts_answers :
  (forall (st : StudySession.State) (cur : string) (p : Phrase)
          (isCorrect : bool) (now : Z),
      StudySession.currentPhraseId st = Some cur ->
      cur <> "" ->
      Array_find (hasId cur) (deck_phrases (StudySession.deck st)) = Some p ->
      deck_phrases (StudySession.deck
                      (StudySession.handleVerdict st isCorrect now))
      = applyAnswer (deck_phrases (StudySession.deck st))
                    (StudyAnswer cur isCorrect now) /\
      deck_phrases (StudySession.deck (StudySession.handleDontKnow st now))
      = applyAnswer (deck_phrases (StudySession.deck st))
                    (StudyAnswer cur false now))
  /\
  (forall (st : ExamSession.State) (currentPhrase : Phrase)
          (correct : bool) (now : Z),
      ExamSession.questionAt (ExamSession.questions st)
                             (ExamSession.currentIndex st)
      = Some currentPhrase ->
      exists st' : ExamSession.State,
        ExamSession.handleVerdict st correct now = Returns st' /\
        deck_phrases (ExamSession.deck st')
        = applyAnswer (deck_phrases (ExamSession.deck st))
                      (ExamAnswer currentPhrase correct now))
  /\
  (forall (a : AnswerEvent) (ps : list Phrase),
      Forall2 (fun q q' =>
                 id q' = id q /\
                 totalReviews q'
                 = (if String.eqb (answeredId a) (id q)
                    then Number_add (totalReviews q) 1 else totalReviews q) /\
                 (0 <= totalReviews q ->
                  totalReviews q <= MAX_SAFE_INTEGER ->
                  totalReviews q'
                  = totalReviews q
                    + (if String.eqb (answeredId a) (id q) then 1 else 0)))
              ps (applyAnswer ps a))
  /\
  (forall st : StudySession.State,
      StudySession.deck (StudySession.handleKnow st) = StudySession.deck st /\
      StudySession.deck (StudySession.handleNext st) = StudySession.deck st)
  /\
  (forall (shuffled : list Phrase -> list Phrase) (st : ExamSession.State),
      ExamSession.deck (ExamSession.handleReveal st) = ExamSession.deck st /\
      ExamSession.deck (ExamSession.initEffect shuffled st) = ExamSession.deck st)
  /\
  (forall (evs : list AnswerEvent) (ps : list Phrase),
      Forall2 (fun q q' =>
                 id q' = id q /\
                 (0 <= totalReviews q ->
                  totalReviews q + Z.of_nat (answersTo (id q) evs)
                  <= MAX_SAFE_INTEGER + 1 ->
                  totalReviews q'
                  = totalReviews q + Z.of_nat (answersTo (id q) evs)) /\
                 (totalReviews q = 0 ->
                  Z.of_nat (answersTo (id q) evs) <= MAX_SAFE_INTEGER + 1 ->
                  totalReviews q' = Z.of_nat (answersTo (id q) evs)))
              ps (fold_left applyAnswer evs ps)).
Proof.
  split; [|split; [|split; [|split; [|split]]]].
  - intros st cur p c now Hcur Hne Hfind. split.
    + exact (study_handleVerdict_deck st cur p c now Hcur Hne Hfind).
    + exact (study_handleDontKnow_deck st cur p now Hcur Hne Hfind).
  - intros st cp c now Hq.
    destruct (exam_handleVerdict_returns st cp c now Hq)
      as (st' & Hret & Hdeck & _).
    exists st'. split; assumption.
  - intros a ps.
    eapply Forall2_impl; [apply applyAnswer_one|].
    intros q q' [Hid Htr]. split; [exact Hid|]. split; [exact Htr|].
    intros H0 Hmax. rewrite Htr.
    destruct (String.eqb (answeredId a) (id q)); [|lia].
    apply Number_add_exact. unfold MAX_SAFE_INTEGER in *. lia.
  - intros st. split; [reflexivity|].
    unfold StudySession.handleNext. now destruct (StudySession.queue st).
  - intros shuffled st. split; [reflexivity|].
    unfold ExamSession.initEffect. now destruct (ExamSession.isInitialized st).
  - intros evs ps.
    eapply Forall2_impl; [apply applyAnswers_total|].
    intros q q' [Hid Htr]. split; [exact Hid|]. split; [exact Htr|].
    intros H0 Hmax. rewrite Htr by lia. lia.
Qed.

(** C5 as stated fails at a count of 2^53, which one import line seeds
    together with the streak: an answer, in study mode or in an exam,
    leaves [totalReviews] at 2^53. *)
Lemma total_reviews_stall :
  let p := card "A" 0 (MAX_SAFE_INTEGER + 1) (MAX_SAFE_INTEGER + 1) in
  let d := deckOf [p; card "B" 0 0 0] in
  let st := ExamSession.initEffect (fun l => l) (ExamSession.mount d 2) in
  (exists p' : Phrase,
      Array_find (hasId "A")
        (deck_phrases (StudySession.deck
                         (StudySession.handleVerdict (StudySession.init d) false 7)))
      = Some p' /\
      totalReviews p' = totalReviews p /\
      totalReviews p' <> totalReviews p + 1) /\
  (exists (st' : ExamSession.State) (p' : Phrase),
      ExamSession.handleVerdict st true 7 = Returns st' /\
      Array_find (hasId "A") (deck_phrases (ExamSession.deck st')) = Some p' /\
      totalReviews p' = totalReviews p /\
      totalReviews p' <> totalReviews p + 1).
Proof.
  intros p d st. split.
  - eexists. split; [reflexivity|]. split; [reflexivity | discriminate].
  - eexists. eexists. split; [reflexivity|].
    split; [reflexivity|]. split; [reflexivity | discriminate].
Qed.

Lemma total_reviews_counts_answers_witness :
  let st := StudySession.init deckABCDE in
  (StudySession.currentPhraseId st = Some "A" /\ "A" <> "" /\
   Array_find (hasId "A") (deck_phrases (StudySession.deck st))
   = Some (card "A" 0 0 0)) /\
  (deck_phrases (StudySession.deck (StudySession.handleVerdict st false 7))
   = applyAnswer (deck_phrases (StudySession.deck st)) (StudyAnswer "A" false 7) /\
   deck_phrases (StudySession.deck (StudySession.handleDontKnow st 7))
   = applyAnswer (deck_phrases (StudySession.deck st)) (StudyAnswer "A" false 7))
  /\
  ExamSession.questionAt (ExamSession.questions examABC)
                         (ExamSession.currentIndex examABC)
  = Some (card "A" 0 0 0) /\
  exists st' : ExamSession.State,
    ExamSession.handleVerdict examABC true 7 = Returns st' /\
    deck_phrases (ExamSession.deck st')
    = applyAnswer (deck_phrases (ExamSession.deck examABC))
                  (ExamAnswer (card "A" 0 0 0) true 7).
Proof.
  split; [|split; [|split]].
  - repeat split; discriminate.
  - exact (proj1 total_reviews_counts_answers
             (StudySession.init deckABCDE) "A" (card "A" 0 0 0) false 7
             eq_refl ltac:(discriminate) eq_refl).
  - reflexivity.
  - exact (proj1 (proj2 total_reviews_counts_answers) examABC
             (card "A" 0 0 0) true 7 eq_refl).
Defined.

End CounterClaims.

(** ** Exam sessions *)

Section Exam.
Import ExamSession.

Variable shuffled : list Phrase -> list Phrase.

Lemma initEffect_initialized st : isInitialized (initEffect shuffled st) = true.
Proof.
  unfold initEffect. destruct (isInitialized st) eqn:E; [exact E | reflexivity].
Qed.

Lemma initEffect_idle st :
  isInitialized st = true -> initEffect shuffled st = st.
Proof. intros Hi. unfold initEffect. now rewrite Hi. Qed.

Lemma initEffect_mount d count :
  questions (initEffect shuffled (mount d count))
  = Array_slice0 (shuffled (deck_phrases d))
                 (Z.min count (Array_length (deck_phrases d))).
Proof. reflexivity. Qed.

Lemma handleVerdict_frame st c now st' :
  handleVerdict st c now = Returns st' ->
  questions st' = questions st /\ isInitialized st' = isInitialized st.
Proof.
  unfold handleVerdict.
  destruct (questionAt (questions st) (currentIndex st)); [|discriminate].
  intros [= <-]. simpl. auto.
Qed.

(** One event on an initialised exam keeps the question list. *)
Lemma dispatch_frame st e :
  isInitialized st = true ->
  questions (dispatch shuffled st e) = questions st /\
  isInitialized (dispatch shuffled st e) = true.
Proof.
  intros Hi. destruct e as [|c now|]; simpl.
  - auto.
  - destruct (handleVerdict st c now) as [st'| |] eqn:E; auto.
    apply handleVerdict_frame in E as [Hq Hi']. rewrite Hq, Hi'. auto.
  - rewrite initEffect_idle by exact Hi. auto.
Qed.

Lemma run_frame es : forall st,
  isInitialized st = true ->
  questions (run shuffled st es) = questions st.
Proof.
  unfold run. induction es as [|e es IH]; intros st Hi; simpl; [reflexivity|].
  destruct (dispatch_frame st e Hi) as [Hq Hi'].
  rewrite IH by exact Hi'. exact Hq.
Qed.

Lemma slice0_length {A} (l : list A) (e : Z) :
  0 <= e -> Array_length (Array_slice0 l e) = Z.min e (Array_length l).
Proof.
  intros He. unfold Array_length, Array_slice0, relativeIndex.
  destruct (e <? 0) eqn:E; [apply Z.ltb_lt in E; lia|].
  rewrite length_firstn. lia.
Qed.

End Exam.

Section ExamClaims.
Import ExamSession.

(** C7.  In exam mode the question list is the one the init effect chose
    at mount: no sequence of reveals, verdicts and re-runs of the init
    effect changes it, and a verdict on the current question returns with
    the list, and so the position of every card in it, untouched. *)
Theorem exam_order_is_fixed :
  forall (shuffled : list Phrase -> list Phrase) (d : Deck) (count : Z)
         (es : list Event),
    let st0 := initEffect shuffled (mount d count) in
    let st := run shuffled st0 es in
    questions st = questions st0 /\
    (forall i : nat, nth_error (questions st) i = nth_error (questions st0) i) /\
    (forall (correct : bool) (now : Z) (currentPhrase : Phrase),
        questionAt (questions st) (currentIndex st) = Some currentPhrase ->
        exists st' : State,
          handleVerdict st correct now = Returns st' /\
          questions st' = questions st) /\
    (forall (correct : bool) (now : Z),
        questionAt (questions st) (currentIndex st) = None ->
        handleVerdict st correct now = ThrowsTypeError).
Proof.
  intros shuffled d count es st0 st.
  assert (Hq : questions st = questions st0).
  { apply run_frame. apply initEffect_initialized. }
  split; [exact Hq|]. split; [intros i; now rewrite Hq|]. split.
  - intros c now cp Hcp.
    destruct (exam_handleVerdict_returns st cp c now Hcp)
      as (st' & Hret & _ & Hqs & _).
    exists st'. split; assumption.
  - intros c now Hnone. unfold handleVerdict. now rewrite Hnone.
Qed.

(** C8, for a count that is not negative.  With a shuffle that
    rearranges the cards and a requested count of 0 or more, the init
    effect selects exactly
    [min(questionCount, deck.phrases.length)] cards; the selection and
    some list of left-over cards together are a rearrangement of the deck
    (no card is drawn twice), so the selected ids are distinct when the
    deck's are; a count of at least the deck size selects the whole deck
    and nothing raises. *)
Theorem exam_selects_min :
  forall (shuffled : list Phrase -> list Phrase) (d : Deck) (count : Z),
    (forall l : list Phrase, Permutation (shuffled l) l) ->
    0 <= count ->
    let st := initEffect shuffled (mount d count) in
    Array_length (questions st) = Z.min count (Array_length (deck_phrases d)) /\
    (exists unused : list Phrase,
        Permutation (questions st ++ unused) (deck_phrases d)) /\
    (List.NoDup (map id (deck_phrases d)) -> List.NoDup (map id (questions st))) /\
    (Array_length (deck_phrases d) <= count ->
     Array_length (questions st) = Array_length (deck_phrases d) /\
     Permutation (questions st) (deck_phrases d)).
Proof.
  intros shuffled d count Hperm Hcount st.
  assert (Hlen : Array_length (shuffled (deck_phrases d))
                 = Array_length (deck_phrases d)).
  { unfold Array_length. f_equal. apply Permutation_length, Hperm. }
  assert (Hq : questions st
               = Array_slice0 (shuffled (deck_phrases d))
                   (Z.min count (Array_length (deck_phrases d))))
    by reflexivity.
  assert (Hsplit : Permutation
                     (questions st ++
                      skipn (relativeIndex
                               (Z.min count (Array_length (deck_phrases d)))
                               (length (shuffled (deck_phrases d))))
                            (shuffled (deck_phrases d)))
                     (deck_phrases d)).
  { rewrite Hq. unfold Array_slice0. rewrite firstn_skipn. apply Hperm. }
  assert (Hn : Array_length (questions st)
               = Z.min count (Array_length (deck_phrases d))).
  { rewrite Hq, slice0_length, Hlen by (unfold Array_length; lia).
    unfold Array_length. lia. }
  split; [exact Hn|]. split; [eexists; exact Hsplit|]. split.
  - intros Hnd.
    assert (Hnd' : List.NoDup (map id (questions st) ++
                               map id (skipn (relativeIndex
                                 (Z.min count (Array_length (deck_phrases d)))
                                 (length (shuffled (deck_phrases d))))
                                 (shuffled (deck_phrases d))))).
    { rewrite <- map_app.
      eapply Permutation_NoDup; [|exact Hnd].
      symmetry. apply Permutation_map. exact Hsplit. }
    exact (NoDup_app_remove_r _ _ Hnd').
  - intros Hbig.
    assert (Hall : Array_length (questions st) = Array_length (deck_phrases d))
      by lia.
    split; [exact Hall|].
    rewrite Hq. unfold Array_slice0.
    rewrite firstn_all2; [apply Hperm|].
    unfold relativeIndex.
    destruct (_ <? 0) eqn:E;
      [apply Z.ltb_lt in E; unfold Array_length in *; lia|].
    unfold Array_length in *. lia.
Qed.

Lemma exam_selects_min_witness :
  let st := initEffect (@rev Phrase) (mount deckABCDE 7) in
  ((forall l : list Phrase, Permutation (rev l) l) /\ 0 <= 7) /\
  Array_length (questions st) = Z.min 7 (Array_length (deck_phrases deckABCDE)) /\
  (exists unused : list Phrase,
      Permutation (questions st ++ unused) (deck_phrases deckABCDE)) /\
  (List.NoDup (map id (deck_phrases deckABCDE)) ->
   List.NoDup (map id (questions st))) /\
  (Array_length (deck_phrases deckABCDE) <= 7 ->
   Array_length (questions st) = Array_length (deck_phrases deckABCDE) /\
   Permutation (questions st) (deck_phrases deckABCDE)).
Proof.
  split.
  - split; [intros l; symmetry; apply Permutation_rev | lia].
  - apply (exam_selects_min (@rev Phrase) deckABCDE 7);
      [intros l; symmetry; apply Permutation_rev | lia].
Defined.

(** C8 as stated fails for a count below 0, which the number field of the
    exam setup lets through: [Math.min(-2, 5)] is [-2], and [slice(0, -2)]
    drops the last two cards of the shuffle, so the exam asks three cards
    where the claim has the minimum of the count and the deck size. *)
Lemma negative_count_is_not_clamped :
  let st := initEffect (fun l => l) (mount deckABCDE (-2)) in
  map id (questions st) = ["A"; "B"; "C"] /\
  Array_length (questions st) = 3 /\
  Array_length (questions st)
  <> Z.min (-2) (Array_length (deck_phrases deckABCDE)).
Proof.
  intros st. split; [reflexivity|]. split; [reflexivity | discriminate].
Qed.

End ExamClaims.

(** ** Sorting with a comparator *)

Section Sorting.
Context {A : Type} (cmp : A -> A -> Z).

Hypothesis cmp_total : forall x y, notAfter cmp x y \/ notAfter cmp y x.
Hypothesis cmp_trans : forall x y z, notAfter cmp x y -> notAfter cmp y z -> notAfter cmp x z.

Lemma sort_insert_Permutation x l : Permutation (sort_insert cmp x l) (x :: l).
Proof.
  induction l as [|y l IH]; simpl; [reflexivity|].
  destruct (cmp x y <=? 0); [reflexivity|].
  rewrite IH. apply perm_swap.
Qed.

Lemma Array_sort_Permutation l : Permutation (Array_sort cmp l) l.
Proof.
  induction l as [|x l IH]; simpl; [reflexivity|].
  rewrite sort_insert_Permutation. now apply perm_skip.
Qed.

Lemma sort_insert_sorted x l :
  StronglySorted (notAfter cmp) l -> StronglySorted (notAfter cmp) (sort_insert cmp x l).
Proof.
  induction 1 as [|y l Hs IH Hy]; simpl.
  - repeat constructor.
  - destruct (cmp x y <=? 0) eqn:E.
    + apply Z.leb_le in E.
      constructor; [now constructor|].
      constructor; [exact E|].
      eapply List.Forall_impl; [|exact Hy].
      intros z Hyz. now apply cmp_trans with y.
    + apply Z.leb_gt in E.
      constructor; [exact IH|].
      eapply Permutation_Forall; [symmetry; apply sort_insert_Permutation|].
      constructor; [|exact Hy].
      destruct (cmp_total x y) as [Hxy|Hyx]; [unfold notAfter in Hxy; lia|exact Hyx].
Qed.

Lemma Array_sort_sorted l : StronglySorted (notAfter cmp) (Array_sort cmp l).
Proof.
  induction l as [|x l IH]; simpl; [constructor | now apply sort_insert_sorted].
Qed.

End Sorting.

(** A sorted list whose elements have distinct keys is sorted for any
    order that holds between two sorted elements with different keys. *)
Lemma StronglySorted_distinct {A} (R S : A -> A -> Prop) (f : A -> Z) l :
  (forall a b, R a b -> f a <> f b -> S a b) ->
  StronglySorted R l -> List.NoDup (map f l) -> StronglySorted S l.
Proof.
  intros HRS. induction 1 as [|a l Hs IH Ha]; intros Hnd; [constructor|].
  simpl in Hnd. apply NoDup_cons_iff in Hnd as [Hnin Hnd].
  constructor; [now apply IH|].
  apply List.Forall_forall. intros b Hb.
  apply HRS.
  - rewrite List.Forall_forall in Ha. now apply Ha.
  - intros Heq. apply Hnin. rewrite Heq. now apply in_map.
Qed.

Lemma increasing_NoDup (l : list Z) : StronglySorted Z.lt l -> List.NoDup l.
Proof.
  induction 1 as [|a l Hs IH Ha]; constructor; [|exact IH].
  intros Hin. rewrite List.Forall_forall in Ha. specialize (Ha a Hin). lia.
Qed.

(** ** Import order *)

Ltac split_eqb :=
  repeat match goal with
         | |- context [Z.eqb ?x ?y] => destruct (Z.eqb_spec x y)
         | H : context [Z.eqb ?x ?y] |- _ => destruct (Z.eqb_spec x y)
         end.

Section ImporterOrder.
Context `{Runtime}.
Import Importer.

Lemma compareItems_total a b :
  notAfter compareItems a b \/ notAfter compareItems b a.
Proof.
  unfold notAfter, compareItems.
  destruct (position a), (position b); split_eqb; simpl; lia.
Qed.

Lemma compareItems_trans a b c :
  notAfter compareItems a b -> notAfter compareItems b c ->
  notAfter compareItems a c.
Proof.
  unfold notAfter, compareItems.
  destruct (position a), (position b), (position c);
    split_eqb; simpl; lia.
Qed.

Lemma compareItems_strict a b :
  notAfter compareItems a b -> originalIndex a <> originalIndex b ->
  importedBefore a b.
Proof.
  unfold notAfter, compareItems, importedBefore.
  destruct (position a), (position b); split_eqb; simpl; lia.
Qed.

(** Items parsed from line [i] on carry increasing indices, all at
    least [i]. *)
Lemma parsed_indices lines : forall i,
  let items := omap (fun x : option ParsedItem => x)
                    (Array_mapi_from parseLine i lines) in
  Forall (fun it => i <= originalIndex it) items /\
  StronglySorted Z.lt (map originalIndex items).
Proof.
  induction lines as [|line lines IH]; intros i; simpl.
  - split; constructor.
  - destruct (IH (i + 1)) as [Hge Hs].
    assert (Hge' : Forall (fun it => i < originalIndex it)
                     (omap (fun x : option ParsedItem => x)
                           (Array_mapi_from parseLine (i + 1) lines))).
    { eapply List.Forall_impl; [|exact Hge]. simpl. intros; lia. }
    destruct (parseLine line i) as [it|] eqn:E; simpl.
    + assert (Hi : originalIndex it = i).
      { unfold parseLine in E.
        destruct (length (fieldsOf line) <? 2)%nat; [discriminate|].
        now injection E as <-. }
      split.
      * constructor; [lia|].
        eapply List.Forall_impl; [|exact Hge']. simpl. intros; lia.
      * constructor; [exact Hs|].
        rewrite Hi. apply Forall_map.
        eapply List.Forall_impl; [|exact Hge']. simpl. intros; lia.
    + split; [|exact Hs].
      eapply List.Forall_impl; [|exact Hge']. simpl. intros; lia.
Qed.

Lemma parsedItems_distinct lines :
  List.NoDup (map originalIndex (parsedItems lines)).
Proof. apply increasing_NoDup. apply (parsed_indices lines 0). Qed.

Lemma sortedItems_Permutation text :
  Permutation (sortedItems text) (parsedItems (nonBlankLines text)).
Proof. apply Array_sort_Permutation. Qed.

Lemma sortedItems_sorted text : StronglySorted importedBefore (sortedItems text).
Proof.
  apply StronglySorted_distinct
    with (R := notAfter compareItems) (f := originalIndex).
  - exact compareItems_strict.
  - apply Array_sort_sorted;
      [exact compareItems_total | exact compareItems_trans].
  - eapply Permutation_NoDup;
      [apply Permutation_map; symmetry; apply sortedItems_Permutation|].
    apply parsedItems_distinct.
Qed.

Lemma toPhrase_seeded newId item : seededBy (progress item) (toPhrase newId item).
Proof.
  unfold seededBy, toPhrase. simpl.
  destruct (Z.gtb_spec (progress item) 0), (Z.ltb_spec (progress item) 0); lia.
Qed.

Lemma toPhrases_pointwise items : forall n,
  Forall2 (fun item ph =>
             english ph = item_english item /\
             chinese ph = item_chinese item /\
             seededBy (progress item) ph /\
             lastReviewedAt ph = None)
          items (toPhrases n items).
Proof.
  induction items as [|item items IH]; intros n; simpl; constructor.
  - repeat split; try reflexivity; apply toPhrase_seeded.
  - apply IH.
Qed.

End ImporterOrder.

Section EditorOrder.
Context `{Runtime}.
Import DeckEditor.

Variable m : gmap string Phrase.

Ltac old_cases a b :=
  destruct (has m (keyOf (eng a))), (has m (keyOf (eng b))); simpl.

Lemma editor_compare_total a b :
  notAfter (compareItems m) a b \/ notAfter (compareItems m) b a.
Proof.
  unfold notAfter, compareItems.
  destruct (position a), (position b); split_eqb; simpl; try lia;
    old_cases a b; lia.
Qed.

Lemma editor_compare_trans a b c :
  notAfter (compareItems m) a b -> notAfter (compareItems m) b c ->
  notAfter (compareItems m) a c.
Proof.
  unfold notAfter, compareItems.
  destruct (position a), (position b), (position c);
    split_eqb; simpl; try lia;
    destruct (has m (keyOf (eng a))), (has m (keyOf (eng b))),
             (has m (keyOf (eng c))); simpl; lia.
Qed.

Lemma editor_compare_strict a b :
  notAfter (compareItems m) a b -> originalIndex a <> originalIndex b ->
  savedBefore m a b.
Proof.
  unfold notAfter, compareItems, savedBefore.
  destruct (position a), (position b); split_eqb; simpl; try lia;
    old_cases a b; intros; right; split; try reflexivity;
    solve [left; split; reflexivity | right; split; [reflexivity | lia] | lia].
Qed.

Lemma editor_parsed_indices lines : forall i,
  let items := omap (fun x : option ParsedItem => x)
                    (Array_mapi_from parseLine i lines) in
  Forall (fun it => i <= originalIndex it) items /\
  StronglySorted Z.lt (map originalIndex items).
Proof.
  induction lines as [|line lines IH]; intros i; simpl.
  - split; constructor.
  - destruct (IH (i + 1)) as [Hge Hs].
    assert (Hge' : Forall (fun it => i < originalIndex it)
                     (omap (fun x : option ParsedItem => x)
                           (Array_mapi_from parseLine (i + 1) lines))).
    { eapply List.Forall_impl; [|exact Hge]. simpl. intros; lia. }
    destruct (parseLine line i) as [it|] eqn:E; simpl.
    + assert (Hi : originalIndex it = i).
      { unfold parseLine in E.
        destruct (length (fieldsOf line) <? 2)%nat; [discriminate|].
        now injection E as <-. }
      split.
      * constructor; [lia|].
        eapply List.Forall_impl; [|exact Hge']. simpl. intros; lia.
      * constructor; [exact Hs|].
        rewrite Hi. apply Forall_map.
        eapply List.Forall_impl; [|exact Hge']. simpl. intros; lia.
    + split; [|exact Hs].
      eapply List.Forall_impl; [|exact Hge']. simpl. intros; lia.
Qed.

Lemma editor_sorted lines :
  StronglySorted (savedBefore m) (Array_sort (compareItems m) (parsedItems lines)).
Proof.
  apply StronglySorted_distinct
    with (R := notAfter (compareItems m)) (f := originalIndex).
  - exact editor_compare_strict.
  - apply Array_sort_sorted;
      [exact editor_compare_total | exact editor_compare_trans].
  - eapply Permutation_NoDup;
      [apply Permutation_map; symmetry; apply Array_sort_Permutation|].
    apply increasing_NoDup. apply (editor_parsed_indices lines 0).
Qed.

Lemma saveItems_fold items : forall acc,
  exists added : list Phrase,
    newPhrasesList (fold_left (saveItem m) items acc)
    = newPhrasesList acc ++ added /\
    newQueue (fold_left (saveItem m) items acc)
    = newQueue acc ++ map id added /\
    Forall2 (savedAs m) items added.
Proof.
  induction items as [|item items IH]; intros acc; simpl.
  - exists []. rewrite !app_nil_r. repeat split. constructor.
  - destruct (IH (saveItem m acc item)) as (added & Hp & Hq & Hall).
    assert (Hone : exists ph,
               newPhrasesList (saveItem m acc item) = newPhrasesList acc ++ [ph] /\
               newQueue (saveItem m acc item) = newQueue acc ++ [id ph] /\
               savedAs m item ph).
    { unfold saveItem, savedAs.
      destruct (m !! keyOf (eng item)) as [existing|] eqn:E; simpl;
        eexists; (split; [reflexivity|]); (split; [reflexivity|]);
        unfold seededBy; simpl;
        destruct (Z.gtb_spec (progress item) 0),
                 (Z.ltb_spec (progress item) 0);
        repeat split; try reflexivity; try lia;
        destruct (Z.gtb_spec (progress item + 0) (totalReviews existing));
        destruct (Z.gtb_spec (0 + Z.abs (progress item)) (totalReviews existing));
        destruct (Z.gtb_spec (0 + 0) (totalReviews existing));
        lia. }
    destruct Hone as (ph & Hp1 & Hq1 & Hsaved).
    exists (ph :: added). rewrite Hp, Hq, Hp1, Hq1, <- !app_assoc. simpl.
    repeat split. now constructor.
Qed.

End EditorOrder.

Section ImportClaims.

(** C9, as the code has it.  The importer orders the parsed lines by
    [importedBefore]: lines with a position before lines without,
    ascending positions, line order between equal positions and between
    lines without position.  The deck editor's batch save orders them by
    [savedBefore]: the same, except that between equal positions a line
    whose key is new to the deck goes before a line whose key is already
    there, and line order decides only after that.  In both, the sorted
    lines are a rearrangement of the parsed ones, the cards are made in
    that order, and the queue lists their ids in that order. *)
Theorem import_order :
  forall (R : Runtime),
    (forall text : string,
        let items := Importer.sortedItems text in
        Permutation items (Importer.parsedItems (nonBlankLines text)) /\
        StronglySorted importedBefore items /\
        forall (deckName : string) (n : nat),
          match Importer.handleManualImport deckName text n with
          | Importer.OnImport name phrases =>
            Forall2 (fun item ph =>
                       english ph = Importer.item_english item /\
                       chinese ph = Importer.item_chinese item)
                    items phrases /\
            forall k : nat,
              deck_queue (App.handleCreateDeck name phrases k) = map id phrases
          | Importer.SetError _ => True
          end)
    /\
    (forall (deck : Deck) (deckName : string) (phrases : list Phrase)
            (batchText : string) (n : nat),
        let m := DeckEditor.existingPhrasesMap phrases in
        let items := DeckEditor.sortedItems phrases batchText in
        let saved :=
          DeckEditor.confirmBatchSave deck deckName phrases batchText n in
        Permutation items (DeckEditor.parsedItems (nonBlankLines batchText)) /\
        StronglySorted (savedBefore m) items /\
        Forall2 (fun item ph =>
                   english ph = DeckEditor.eng item /\
                   chinese ph = DeckEditor.chi item)
                items (deck_phrases saved) /\
        deck_queue saved = map id (deck_phrases saved)).
Proof.
  intros R. split.
  - intros text items.
    split; [apply sortedItems_Permutation|].
    split; [apply sortedItems_sorted|].
    intros deckName n. unfold Importer.handleManualImport.
    destruct (String.eqb (String_trim deckName) ""); [exact I|].
    destruct (length _ =? 0)%nat; [exact I|].
    split; [|reflexivity].
    eapply Forall2_impl; [apply toPhrases_pointwise|].
    simpl. intros item ph (He & Hc & _). split; assumption.
  - intros deck deckName phrases batchText n m items saved.
    split; [apply Array_sort_Permutation|].
    split; [apply editor_sorted|].
    destruct (saveItems_fold m items
                {| DeckEditor.newPhrasesList := [];
                   DeckEditor.newQueue := [];
                   DeckEditor.drawn := n |})
      as (added & Hp & Hq & Hall).
    simpl in Hp, Hq.
    assert (Hsp : deck_phrases saved = added) by exact Hp.
    assert (Hsq : deck_queue saved = map id added) by exact Hq.
    rewrite Hsp, Hsq. split; [|reflexivity].
    eapply Forall2_impl; [exact Hall|].
    simpl. intros item ph (He & Hc & _). split; assumption.
Qed.

(** C9 as stated fails in the deck editor: [apple] is already in the
    deck, the batch text lists [apple] and then [pear], both at position
    0, and the save puts [pear] first. *)
Lemma editor_ties_not_in_line_order :
  let items := @DeckEditor.sortedItems SampleRuntime.runtime
                 [card "apple" 0 0 0] sampleBatch in
  map DeckEditor.eng items = ["pear"; "apple"] /\
  map DeckEditor.position items = [Some 0; Some 0] /\
  map DeckEditor.originalIndex items = [1; 0] /\
  ~ StronglySorted lineOrderBefore items.
Proof.
  vm_compute DeckEditor.sortedItems. simpl.
  repeat split.
  intros Hs. apply StronglySorted_inv in Hs as [_ Hhd].
  apply Forall_inv in Hhd. unfold lineOrderBefore in Hhd. simpl in Hhd. lia.
Qed.

(** C10.  A card made by the bulk import from a line with progress field
    [p] is [seededBy p]: [consecutiveCorrect] is [p] when positive,
    [consecutiveWrong] is [-p] when negative, and [totalReviews] is their
    sum, that is [|p|], with no review time.  This holds for every card
    the importer hands over and for every card the deck editor makes
    from a line whose key is new; a line whose key is known keeps the
    larger of the old count and [|p|].  With [p = 0] the count is 0. *)
Theorem imported_total_reviews :
  forall (R : Runtime),
    (forall (deckName text : string) (n : nat),
        match Importer.handleManualImport deckName text n with
        | Importer.OnImport _ phrases =>
          Forall2 (fun item ph =>
                     seededBy (Importer.progress item) ph /\
                     lastReviewedAt ph = None)
                  (Importer.sortedItems text) phrases
        | Importer.SetError _ => True
        end)
    /\
    (forall (deck : Deck) (deckName : string) (phrases : list Phrase)
            (batchText : string) (n : nat),
        Forall2 (savedAs (DeckEditor.existingPhrasesMap phrases))
                (DeckEditor.sortedItems phrases batchText)
                (deck_phrases
                   (DeckEditor.confirmBatchSave deck deckName phrases
                                                batchText n)))
    /\
    (forall (p : Z) (ph : Phrase),
        seededBy p ph ->
        totalReviews ph = Z.abs p /\ (p = 0 -> totalReviews ph = 0)).
Proof.
  intros R. split; [|split].
  - intros deckName text n. unfold Importer.handleManualImport.
    destruct (String.eqb (String_trim deckName) ""); [exact I|].
    destruct (length _ =? 0)%nat; [exact I|].
    eapply Forall2_impl; [apply toPhrases_pointwise|].
    simpl. intros item ph (_ & _ & Hs & Hl). split; assumption.
  - intros deck deckName phrases batchText n.
    destruct (saveItems_fold (DeckEditor.existingPhrasesMap phrases)
                (DeckEditor.sortedItems phrases batchText)
                {| DeckEditor.newPhrasesList := [];
                   DeckEditor.newQueue := [];
                   DeckEditor.drawn := n |})
      as (added & Hp & _ & Hall).
    simpl in Hp. unfold DeckEditor.confirmBatchSave, DeckEditor.saveItems.
    simpl. rewrite Hp. exact Hall.
  - intros p ph (_ & _ & _ & Habs). split; [exact Habs|].
    intros ->. exact Habs.
Qed.

Lemma imported_total_reviews_witness :
  let ph := @Importer.toPhrase "#0"
              {| Importer.item_english := "apple";
                 Importer.item_chinese := "ping";
                 Importer.item_note := "n";
                 Importer.progress := -3;
                 Importer.position := Some 0;
                 Importer.originalIndex := 2 |} in
  seededBy (-3) ph /\ totalReviews ph = Z.abs (-3) /\
  (-3 = 0 -> totalReviews ph = 0).
Proof.
  assert (Hs : seededBy (-3)
                 (@Importer.toPhrase "#0"
                    {| Importer.item_english := "apple";
                       Importer.item_chinese := "ping";
                       Importer.item_note := "n";
                       Importer.progress := -3;
                       Importer.position := Some 0;
                       Importer.originalIndex := 2 |}))
    by (unfold seededBy; simpl; lia).
  split; [exact Hs|].
  exact (proj2 (proj2 (imported_total_reviews SampleRuntime.runtime)) (-3) _ Hs).
Defined.

(** The three sample lines, imported: sorted by position, the line
    without position last, counters seeded from the progress field. *)
Example sample_import :
  match @Importer.handleManualImport SampleRuntime.runtime "d" sampleText 0 with
  | Importer.OnImport name phrases =>
    name = "d" /\
    map english phrases = ["apple"; "pear"; "fig"] /\
    map consecutiveCorrect phrases = [0; 2; 0] /\
    map consecutiveWrong phrases = [3; 0; 0] /\
    map totalReviews phrases = [3; 2; 0]
  | Importer.SetError _ => False
  end.
Proof. vm_compute. repeat split. Qed.

End ImportClaims.

(** * Further properties *)

(** ** The study session *)

Section StudyFurther.
Import StudySession.

Lemma filter_absent (cur : string) (l : list string) :
  ~ In cur l -> List.filter (fun i => negb (String.eqb i cur)) l = l.
Proof.
  induction l as [|x l IH]; intros Hnin; simpl; [reflexivity|].
  destruct (String.eqb_spec x cur) as [->|Hne]; simpl.
  - exfalso. apply Hnin. now left.
  - f_equal. apply IH. intros Hin. apply Hnin. now right.
Qed.

Lemma filter_present_gone (cur : string) (l : list string) :
  ~ In cur (List.filter (fun i => negb (String.eqb i cur)) l).
Proof.
  intros Hin. apply filter_In in Hin as [_ Hne].
  now rewrite String.eqb_refl in Hne.
Qed.

(** Where [reinsert] puts the card: at index [min k (length rest)] for a
    requested offset that is not negative. *)
Lemma reinsert_position (k : Z) (rest : list string) (cur : string) :
  0 <= k ->
  let i := Z.to_nat (Z.min k (Array_length rest)) in
  fst (reinsert k rest cur) = firstn i rest ++ cur :: skipn i rest.
Proof.
  intros Hk i. subst i.
  destruct (Z_lt_le_dec (Array_length rest) k) as [Hlt|Hle].
  - rewrite reinsert_push by exact Hlt. simpl.
    rewrite Z.min_r by lia. unfold Array_length.
    rewrite Nat2Z.id, firstn_all, skipn_all. reflexivity.
  - rewrite reinsert_splice by lia. simpl.
    rewrite Z.min_l by lia. reflexivity.
Qed.

Lemma requestedOffset_lower_bound (c : bool) (p : Phrase) :
  0 <= consecutiveCorrect p ->
  (if c then 2 else 2) <= requestedOffset c p /\
  (c = true -> consecutiveCorrect p >= 1 -> 4 <= requestedOffset c p).
Proof.
  intros Hcc. destruct c.
  - rewrite requestedOffset_correct. split.
    + assert (H1 : 0 + 1 <= Number_add (consecutiveCorrect p) 1)
        by (apply Number_add_one_lower; unfold MAX_SAFE_INTEGER; lia).
      change 2 with (2 ^ 1) at 1. apply Z.pow_le_mono_r; lia.
    + intros _ Hge.
      assert (H2 : 1 + 1 <= Number_add (consecutiveCorrect p) 1)
        by (apply Number_add_one_lower; unfold MAX_SAFE_INTEGER; lia).
      change 4 with (2 ^ 2). apply Z.pow_le_mono_r; lia.
  - rewrite requestedOffset_wrong. split; [|discriminate].
    destruct (_ && _); lia.
Qed.

(** X1.  An accepted answer takes the head off the queue and puts it back
    somewhere: when the head does not occur again further back, taking it
    out of the new queue leaves the other cards exactly as they were, in
    the same order, and the queue keeps its length. *)
Theorem reinsertion_keeps_the_other_cards :
  forall (st : State) (cur : string) (rest : list string) (p : Phrase)
         (isCorrect : bool) (now : Z),
    queue st = cur :: rest ->
    ~ In cur rest ->
    currentPhraseId st = Some cur ->
    cur <> "" ->
    Array_find (hasId cur) (deck_phrases (deck st)) = Some p ->
    exists r : Result,
      calculateResult st isCorrect now = Returns r /\
      List.filter (fun i => negb (String.eqb i cur)) (nextQueue r) = rest /\
      length (nextQueue r) = length (queue st).
Proof.
  intros st cur rest p c now Hq Hnin Hcur Hne Hfind.
  pose proof (calculateResult_returns st cur p c now Hcur Hne Hfind) as Hr.
  simpl in Hr. eexists. split; [exact Hr|]. simpl.
  rewrite Hq. simpl.
  set (k := requestedOffset c (updatePhrase cur c now p)).
  split.
  - unfold reinsert. destruct (k >? Array_length rest); simpl.
    + unfold Array_push. rewrite List.filter_app. simpl.
      rewrite String.eqb_refl. simpl.
      rewrite app_nil_r. now apply filter_absent.
    + unfold Array_splice_insert. rewrite List.filter_app. simpl.
      rewrite String.eqb_refl. simpl.
      rewrite <- List.filter_app, firstn_skipn. now apply filter_absent.
  - exact (Permutation_length (reinsert_Permutation k rest cur)).
Qed.

Lemma reinsertion_keeps_the_other_cards_witness :
  let st := init deckABCDE in
  (queue st = "A" :: ["B"; "C"; "D"; "E"] /\
   ~ In "A" ["B"; "C"; "D"; "E"] /\
   currentPhraseId st = Some "A" /\ "A" <> "" /\
   Array_find (hasId "A") (deck_phrases (deck st)) = Some (card "A" 0 0 0)) /\
  exists r : Result,
    calculateResult st false 7 = Returns r /\
    List.filter (fun i => negb (String.eqb i "A")) (nextQueue r)
    = ["B"; "C"; "D"; "E"] /\
    length (nextQueue r) = length (queue st).
Proof.
  assert (Hnin : ~ In "A" ["B"; "C"; "D"; "E"])
    by (simpl; intuition discriminate).
  split.
  - repeat split; solve [discriminate | exact Hnin].
  - exact (reinsertion_keeps_the_other_cards (init deckABCDE) "A"
             ["B"; "C"; "D"; "E"] (card "A" 0 0 0) false 7
             eq_refl Hnin eq_refl ltac:(discriminate) eq_refl).
Defined.

(** X2.  After an accepted answer the card sits at some index [i] of the
    new queue, behind the first [i] cards of the rest; [i] is at least 2
    after a wrong answer and at least 4 after a correct one, or the length
    of the rest when that is smaller.  So a card is never shown again
    before the next two (four) cards, if there are that many. *)
Theorem answered_card_goes_back :
  forall (st : State) (cur : string) (p : Phrase) (isCorrect : bool) (now : Z),
    currentPhraseId st = Some cur ->
    cur <> "" ->
    Array_find (hasId cur) (deck_phrases (deck st)) = Some p ->
    0 <= consecutiveCorrect p ->
    let rest := Array_shift (queue st) in
    exists (r : Result) (i : nat),
      calculateResult st isCorrect now = Returns r /\
      nextQueue r = firstn i rest ++ cur :: skipn i rest /\
      (i <= length rest)%nat /\
      Z.min (if isCorrect then 4 else 2) (Array_length rest) <= Z.of_nat i.
Proof.
  intros st cur p c now Hcur Hne Hfind Hcc rest.
  pose proof (calculateResult_returns st cur p c now Hcur Hne Hfind) as Hr.
  simpl in Hr.
  set (k := requestedOffset c (updatePhrase cur c now p)) in *.
  assert (Hk : (if c then 4 else 2) <= k).
  { subst k. pose proof (find_hasId _ _ _ Hfind) as [Hid _].
    destruct (study_updatePhrase_hit cur c now p Hid) as (Hc' & _ & _).
    assert (H1 : 0 + 1 <= Number_add (consecutiveCorrect p) 1)
      by (apply Number_add_one_lower; unfold MAX_SAFE_INTEGER; lia).
    destruct c.
    - apply requestedOffset_lower_bound; [lia | reflexivity | lia].
    - apply (requestedOffset_lower_bound false). lia. }
  assert (Hk0 : 0 <= k) by (destruct c; lia).
  eexists. exists (Z.to_nat (Z.min k (Array_length rest))).
  split; [exact Hr|]. simpl. fold rest.
  split; [apply reinsert_position; exact Hk0|].
  unfold Array_length in *. split; destruct c; lia.
Qed.

Lemma answered_card_goes_back_witness :
  let st := init deckABCDE in
  (currentPhraseId st = Some "A" /\ "A" <> "" /\
   Array_find (hasId "A") (deck_phrases (deck st)) = Some (card "A" 0 0 0) /\
   0 <= consecutiveCorrect (card "A" 0 0 0)) /\
  exists (r : Result) (i : nat),
    calculateResult st false 7 = Returns r /\
    nextQueue r
    = firstn i (Array_shift (queue st)) ++ "A" :: skipn i (Array_shift (queue st)) /\
    (i <= length (Array_shift (queue st)))%nat /\
    Z.min 2 (Array_length (Array_shift (queue st))) <= Z.of_nat i.
Proof.
  split.
  - repeat split; solve [discriminate | simpl; lia].
  - exact (answered_card_goes_back (init deckABCDE) "A" (card "A" 0 0 0) false 7
             eq_refl ltac:(discriminate) eq_refl ltac:(simpl; lia)).
Defined.

End StudyFurther.

Section StudyRuns.
Import StudySession.

(** The three ways [calculateResult] can end. *)
Lemma calculateResult_cases (st : State) (c : bool) (now : Z) :
  calculateResult st c now = ReturnsNull \/
  calculateResult st c now = ThrowsTypeError \/
  exists (cur : string) (p : Phrase),
    currentPhraseId st = Some cur /\ cur <> "" /\
    Array_find (hasId cur) (deck_phrases (deck st)) = Some p /\
    calculateResult st c now =
    Returns {| updatedPhrases := map (updatePhrase cur c now) (deck_phrases (deck st));
               nextQueue :=
                 fst (reinsert (requestedOffset c (updatePhrase cur c now p))
                               (Array_shift (queue st)) cur);
               insertOffset :=
                 snd (reinsert (requestedOffset c (updatePhrase cur c now p))
                               (Array_shift (queue st)) cur) |}.
Proof.
  destruct (currentPhraseId st) as [cur|] eqn:Hcur.
  - destruct (String.eqb_spec cur "") as [->|Hne].
    + left. unfold calculateResult. now rewrite Hcur.
    + destruct (Array_find (hasId cur) (deck_phrases (deck st))) as [p|] eqn:Hf.
      * right; right. exists cur, p. repeat split; try assumption.
        now apply calculateResult_returns.
      * right; left. now apply (calculateResult_missing st cur).
  - left. now apply calculateResult_no_card.
Qed.

Lemma map_id_updatePhrase cur c now (ps : list Phrase) :
  map id (map (updatePhrase cur c now) ps) = map id ps.
Proof.
  rewrite map_map. apply map_ext. intros q. apply updatePhrase_id.
Qed.

(** An answer while the current card is the head of the queue. *)
Lemma answer_keeps_invariant (d : Deck) (st st' : State) (c : bool) (now : Z)
    (cs : CardState) (sc sw : Z) :
  studyInvariant d st ->
  currentPhraseId st = head (queue st) ->
  cs = MISSED \/ cs = REVIEWED ->
  st' = match calculateResult st c now with
        | Returns r =>
          {| deck := withResult (deck st) r;
             queue := nextQueue r;
             currentPhraseId := currentPhraseId st;
             cardState := cs;
             sessionStats_correct := sc;
             sessionStats_wrong := sw;
             feedback := Some {| insertIndex := insertOffset r; fb_isCorrect := c |} |}
        | _ => st
        end ->
  studyInvariant d st'.
Proof.
  intros (Hperm & Hdq & Hids & Hcs) Hhead Hcase ->.
  destruct (calculateResult_cases st c now) as [E|[E|(cur & p & Hcur & Hne & Hf & E)]];
    rewrite E; try (repeat split; assumption).
  unfold studyInvariant. simpl.
  assert (Hq : queue st = cur :: Array_shift (queue st)).
  { rewrite Hcur in Hhead. destruct (queue st); [discriminate|].
    simpl in *. congruence. }
  split; [|split; [reflexivity|split]].
  - etransitivity; [apply reinsert_Permutation|]. rewrite <- Hq. exact Hperm.
  - rewrite map_id_updatePhrase. exact Hids.
  - destruct Hcase as [-> | ->]; exact I.
Qed.

Lemma dispatch_keeps_invariant (d : Deck) (st : State) (e : Event) :
  studyInvariant d st -> studyInvariant d (dispatch st e).
Proof.
  intros Hinv. destruct e as [typing key now|]; simpl.
  - unfold handleKeyDown. destruct typing; [exact Hinv|].
    destruct (cardState st) eqn:Hcs.
    + destruct (String.eqb key "1").
      * destruct Hinv as (H1 & H2 & H3 & H4). rewrite Hcs in H4.
        repeat split; assumption.
      * destruct (String.eqb key "2"); [|exact Hinv].
        eapply (answer_keeps_invariant d st _ false now MISSED);
          [exact Hinv | | now left | reflexivity].
        destruct Hinv as (_ & _ & _ & H4). now rewrite Hcs in H4.
    + assert (Hhead : currentPhraseId st = head (queue st)).
      { destruct Hinv as (_ & _ & _ & H4). now rewrite Hcs in H4. }
      destruct (String.eqb key "1");
        [|destruct (String.eqb key "2"); [|exact Hinv]].
      * eapply (answer_keeps_invariant d st _ true now REVIEWED);
          [exact Hinv | exact Hhead | now right | reflexivity].
      * eapply (answer_keeps_invariant d st _ false now REVIEWED);
          [exact Hinv | exact Hhead | now right | reflexivity].
    + destruct (_ || _); [|exact Hinv].
      destruct Hinv as (H1 & H2 & H3 & _). unfold handleNext.
      destruct (queue st) eqn:Hq; unfold studyInvariant; simpl;
        rewrite ?Hq, ?Hcs; repeat split; try assumption; congruence.
    + destruct (_ || _); [|exact Hinv].
      destruct Hinv as (H1 & H2 & H3 & _). unfold handleNext.
      destruct (queue st) eqn:Hq; unfold studyInvariant; simpl;
        rewrite ?Hq, ?Hcs; repeat split; try assumption; congruence.
  - unfold fallbackEffect.
    destruct (queue st) as [|next q] eqn:Hq; [exact Hinv|].
    destruct (match currentPhraseId st with
              | Some cur => String.eqb cur ""
              | None => true
              end); [|exact Hinv].
    destruct Hinv as (H1 & H2 & H3 & _).
    unfold studyInvariant; simpl; rewrite ?Hq.
    repeat split; try assumption; congruence.
Qed.

(** X3.  Whatever keys are pressed in a study session (and whenever the
    fallback effect runs), the working queue stays a rearrangement of the
    queue of the deck the session was started on, the deck written back
    carries the same queue and the same card ids, and the card being asked
    is the head of the queue. *)
Theorem study_session_invariant :
  forall (d : Deck) (es : list Event), studyInvariant d (run (init d) es).
Proof.
  intros d es.
  assert (H0 : studyInvariant d (init d)).
  { unfold studyInvariant, init. simpl. repeat split; reflexivity. }
  unfold run. revert H0. generalize (init d).
  induction es as [|e es IH]; intros st Hinv; simpl; [exact Hinv|].
  apply IH. now apply dispatch_keeps_invariant.
Qed.

End StudyRuns.

Section StudyTallies.
Import StudySession.

Lemma map_updatePhrase_absent cur c now (ps : list Phrase) :
  ~ In cur (map id ps) -> map (updatePhrase cur c now) ps = ps.
Proof.
  induction ps as [|q ps IH]; intros Hnin; simpl; [reflexivity|].
  rewrite updatePhrase_other by (intros Heq; apply Hnin; left; exact Heq).
  f_equal. apply IH. intros Hin. apply Hnin. now right.
Qed.

(** With distinct ids and review counts below 2^53, one answer adds
    exactly 1 to the sum of the review counts. *)
Lemma totalReviewsOf_answer cur c now (ps : list Phrase) (p : Phrase) :
  List.NoDup (map id ps) ->
  Forall (roomFor 1) ps ->
  Array_find (hasId cur) ps = Some p ->
  totalReviewsOf (map (updatePhrase cur c now) ps) = totalReviewsOf ps + 1.
Proof.
  unfold totalReviewsOf, Array_find, hasId.
  induction ps as [|q ps IH]; intros Hnd Hroom Hf; simpl in *; [discriminate|].
  apply NoDup_cons_iff in Hnd as [Hnin Hnd].
  apply Forall_cons_iff in Hroom as [[Hq0 Hq1] Hroom].
  destruct (String.eqb_spec (id q) cur) as [Heq|Hne].
  - rewrite map_updatePhrase_absent by (rewrite <- Heq; exact Hnin).
    destruct (study_updatePhrase_hit cur c now q Heq) as (_ & _ & Ht).
    simpl in Ht. rewrite Ht.
    rewrite Number_add_exact by (unfold MAX_SAFE_INTEGER in *; lia). lia.
  - rewrite updatePhrase_other by exact Hne.
    rewrite IH by assumption. lia.
Qed.

(** An answer uses up one of the increments a card has room for. *)
Lemma map_updatePhrase_room cur c now (n : Z) (ps : list Phrase) :
  0 <= n ->
  Forall (roomFor (n + 1)) ps ->
  Forall (roomFor n) (map (updatePhrase cur c now) ps).
Proof.
  intros Hn Hroom. apply Forall_map.
  eapply List.Forall_impl; [|exact Hroom].
  intros q [Hq0 Hq1]. unfold roomFor, updatePhrase.
  destruct (String.eqb (id q) cur); cbn [totalReviews]; [|lia].
  rewrite Number_add_exact by (unfold MAX_SAFE_INTEGER in *; lia). lia.
Qed.

(** What an event does to the deck's cards: nothing, or one answer. *)
Lemma dispatch_phrases (st : State) (e : Event) :
  deck_phrases (deck (dispatch st e)) = deck_phrases (deck st) \/
  exists (cur : string) (c : bool) (now : Z),
    deck_phrases (deck (dispatch st e))
    = map (updatePhrase cur c now) (deck_phrases (deck st)).
Proof.
  assert (Hv : forall c now,
             deck_phrases (deck (handleVerdict st c now))
             = deck_phrases (deck st) \/
             exists (cur : string) (c' : bool) (now' : Z),
               deck_phrases (deck (handleVerdict st c now))
               = map (updatePhrase cur c' now') (deck_phrases (deck st))).
  { intros c now. unfold handleVerdict.
    destruct (calculateResult_cases st c now)
      as [E|[E|(cur & p & _ & _ & _ & E)]]; rewrite E; [now left | now left|].
    right. exists cur, c, now. reflexivity. }
  assert (Hd : forall now,
             deck_phrases (deck (handleDontKnow st now))
             = deck_phrases (deck st) \/
             exists (cur : string) (c' : bool) (now' : Z),
               deck_phrases (deck (handleDontKnow st now))
               = map (updatePhrase cur c' now') (deck_phrases (deck st))).
  { intros now. unfold handleDontKnow.
    destruct (calculateResult_cases st false now)
      as [E|[E|(cur & p & _ & _ & _ & E)]]; rewrite E; [now left | now left|].
    right. exists cur, false, now. reflexivity. }
  destruct e as [typing key now|]; simpl.
  - unfold handleKeyDown. destruct typing; [now left|].
    destruct (cardState st).
    + destruct (String.eqb key "1"); [now left|].
      destruct (String.eqb key "2"); [apply Hd | now left].
    + destruct (String.eqb key "1"); [apply Hv|].
      destruct (String.eqb key "2"); [apply Hv | now left].
    + destruct (_ || _); [|now left].
      unfold handleNext. destruct (queue st); now left.
    + destruct (_ || _); [|now left].
      unfold handleNext. destruct (queue st); now left.
  - unfold fallbackEffect. destruct (queue st); [now left|].
    destruct (match currentPhraseId st with
              | Some cur => String.eqb cur ""
              | None => true
              end); now left.
Qed.

Lemma answer_keeps_tallies (d : Deck) (st : State) (c : bool) (now : Z) :
  List.NoDup (map id (deck_phrases (deck st))) ->
  Forall (roomFor 1) (deck_phrases (deck st)) ->
  talliesAgree d st ->
  talliesAgree d (handleVerdict st c now) /\
  talliesAgree d (handleDontKnow st now).
Proof.
  intros Hnd Hroom (Hsum & Hc & Hw).
  unfold handleVerdict, handleDontKnow.
  split.
  - destruct (calculateResult_cases st c now)
      as [E|[E|(cur & p & Hcur & Hne & Hf & E)]];
      rewrite E; try (repeat split; assumption).
    unfold talliesAgree. simpl.
    rewrite (totalReviewsOf_answer cur c now _ p Hnd Hroom Hf).
    destruct c; repeat split; lia.
  - destruct (calculateResult_cases st false now)
      as [E|[E|(cur & p & Hcur & Hne & Hf & E)]];
      rewrite E; try (repeat split; assumption).
    unfold talliesAgree. simpl.
    rewrite (totalReviewsOf_answer cur false now _ p Hnd Hroom Hf).
    repeat split; lia.
Qed.

Lemma dispatch_keeps_tallies (d : Deck) (st : State) (e : Event) :
  List.NoDup (map id (deck_phrases (deck st))) ->
  Forall (roomFor 1) (deck_phrases (deck st)) ->
  talliesAgree d st -> talliesAgree d (dispatch st e).
Proof.
  intros Hnd Hroom Ht.
  destruct (answer_keeps_tallies d st true 0 Hnd Hroom Ht) as [_ Hdk0].
  destruct e as [typing key now|]; simpl.
  - destruct (answer_keeps_tallies d st true now Hnd Hroom Ht) as [Hvt Hdk].
    destruct (answer_keeps_tallies d st false now Hnd Hroom Ht) as [Hvf _].
    unfold handleKeyDown. destruct typing; [exact Ht|].
    destruct (cardState st).
    + destruct (String.eqb key "1"); [exact Ht|].
      destruct (String.eqb key "2"); [exact Hdk | exact Ht].
    + destruct (String.eqb key "1"); [exact Hvt|].
      destruct (String.eqb key "2"); [exact Hvf | exact Ht].
    + destruct (_ || _); [|exact Ht].
      unfold handleNext. destruct (queue st); exact Ht.
    + destruct (_ || _); [|exact Ht].
      unfold handleNext. destruct (queue st); exact Ht.
  - unfold fallbackEffect. destruct (queue st); [exact Ht|].
    destruct (match currentPhraseId st with
              | Some cur => String.eqb cur ""
              | None => true
              end); exact Ht.
Qed.

(** X4.  In a study session that is driven by key presses and runs of the
    fallback effect, on a deck whose cards have distinct ids and review
    counts that these events cannot take beyond 2^53, the session's two
    tallies add up to what the deck's review counts have gained: every
    accepted answer raises one tally and one card's [totalReviews] by 1,
    and no other key touches either. *)
Theorem study_tallies_match_the_deck :
  forall (d : Deck) (es : list Event),
    List.NoDup (map id (deck_phrases d)) ->
    Forall (roomFor (Z.of_nat (length es))) (deck_phrases d) ->
    let st := run (init d) es in
    totalReviewsOf (deck_phrases (deck st))
    = totalReviewsOf (deck_phrases d)
      + sessionStats_correct st + sessionStats_wrong st /\
    0 <= sessionStats_correct st /\ 0 <= sessionStats_wrong st.
Proof.
  intros d es Hnd Hroom st.
  assert (H : forall es s,
             studyInvariant d s -> talliesAgree d s ->
             Forall (roomFor (Z.of_nat (length es))) (deck_phrases (deck s)) ->
             talliesAgree d (fold_left dispatch es s)).
  { clear es Hroom st.
    induction es as [|e es IH]; intros s Hinv Ht Hroom; simpl; [exact Ht|].
    assert (Hroom' : Forall (roomFor (Z.of_nat (length es) + 1))
                            (deck_phrases (deck s))).
    { eapply List.Forall_impl; [|exact Hroom].
      intros q [Hq0 Hq1]. cbn [length] in Hq1. split; lia. }
    apply IH; [now apply dispatch_keeps_invariant | |].
    - apply dispatch_keeps_tallies; [| |exact Ht].
      + destruct Hinv as (_ & _ & Hids & _). now rewrite Hids.
      + eapply List.Forall_impl; [|exact Hroom'].
        intros q [Hq0 Hq1]. split; lia.
    - destruct (dispatch_phrases s e) as [E|(cur & c & now & E)]; rewrite E.
      + eapply List.Forall_impl; [|exact Hroom'].
        intros q [Hq0 Hq1]. split; lia.
      + apply map_updatePhrase_room; [lia | exact Hroom']. }
  apply H.
  - unfold studyInvariant, init. simpl. repeat split; reflexivity.
  - unfold talliesAgree, init. simpl. repeat split; lia.
  - exact Hroom.
Qed.

Lemma study_tallies_match_the_deck_witness :
  let es := [KeyDown false "2" 7; KeyDown false " " 8;
             KeyDown false "1" 9; KeyDown false "1" 10] in
  let st := run (init deckABCDE) es in
  (List.NoDup (map id (deck_phrases deckABCDE)) /\
   Forall (roomFor (Z.of_nat (length es))) (deck_phrases deckABCDE)) /\
  totalReviewsOf (deck_phrases (deck st))
  = totalReviewsOf (deck_phrases deckABCDE)
    + sessionStats_correct st + sessionStats_wrong st /\
  0 <= sessionStats_correct st /\ 0 <= sessionStats_wrong st.
Proof.
  assert (Hnd : List.NoDup (map id (deck_phrases deckABCDE))).
  { simpl. repeat constructor; simpl; intuition discriminate. }
  assert (Hroom : Forall (roomFor 4) (deck_phrases deckABCDE)).
  { repeat constructor; simpl; unfold MAX_SAFE_INTEGER; lia. }
  split; [split; [exact Hnd | exact Hroom]|].
  exact (study_tallies_match_the_deck deckABCDE
           [KeyDown false "2" 7; KeyDown false " " 8;
            KeyDown false "1" 9; KeyDown false "1" 10] Hnd Hroom).
Defined.

(** Deleting the card on screen is outside X4: after a miss on [A], which
    counts one review, the deletion takes [A] and its review count out of
    the deck while the tally keeps it. *)
Remark deleting_a_card_drops_its_reviews :
  let st := handleDeletePhrase (handleDontKnow (init deckABCDE) 7) true in
  totalReviewsOf (deck_phrases (deck st)) = 0 /\
  totalReviewsOf (deck_phrases deckABCDE) = 0 /\
  sessionStats_correct st = 0 /\ sessionStats_wrong st = 1.
Proof. repeat split; reflexivity. Qed.

End StudyTallies.

Section StudyEditing.
Import StudySession.

Lemma resolves_filter (ps : list Phrase) (cur i : string) :
  i <> cur -> resolves ps i ->
  resolves (List.filter (fun p => negb (String.eqb (id p) cur)) ps) i.
Proof.
  intros Hne (p & Hin & Hid). exists p. split; [|exact Hid].
  apply filter_In. split; [exact Hin|].
  rewrite Hid. now destruct (String.eqb_spec i cur).
Qed.

Lemma queueResolved_filter (ps : list Phrase) (q : list string) (cur : string) :
  Forall (resolves ps) q ->
  Forall (resolves (List.filter (fun p => negb (String.eqb (id p) cur)) ps))
         (List.filter (fun i => negb (String.eqb i cur)) q).
Proof.
  intros Hall. apply List.Forall_forall. intros i Hin.
  apply filter_In in Hin as [Hin Hne].
  apply resolves_filter.
  - intros ->. now rewrite String.eqb_refl in Hne.
  - rewrite List.Forall_forall in Hall. now apply Hall.
Qed.

Lemma find_filtered_out (ps : list Phrase) (cur : string) :
  Array_find (hasId cur)
             (List.filter (fun p => negb (String.eqb (id p) cur)) ps) = None.
Proof.
  unfold Array_find, hasId. induction ps as [|q ps IH]; simpl; [reflexivity|].
  destruct (String.eqb (id q) cur) eqn:E; simpl; [exact IH|].
  now rewrite E.
Qed.

(** X5.  A confirmed deletion of the current card in a study session
    takes its id out of the working queue and of the deck's queue and its
    card out of the deck, keeps the other ids in order, moves on to the
    new head of the queue (or to no card when the queue is empty), and
    leaves every queued id of the deck with a card if that was so before.
    A deletion that is not confirmed changes nothing. *)
Theorem study_delete_removes_the_card :
  forall (st : State) (cur : string),
    currentPhraseId st = Some cur ->
    cur <> "" ->
    let st' := handleDeletePhrase st true in
    queue st' = List.filter (fun i => negb (String.eqb i cur)) (queue st) /\
    deck_queue (deck st')
    = List.filter (fun i => negb (String.eqb i cur)) (deck_queue (deck st)) /\
    ~ In cur (queue st') /\
    ~ In cur (deck_queue (deck st')) /\
    Array_find (hasId cur) (deck_phrases (deck st')) = None /\
    currentPhraseId st' = head (queue st') /\
    (queueResolved (deck st) -> queueResolved (deck st')) /\
    handleDeletePhrase st false = st.
Proof.
  intros st cur Hcur Hne st'.
  assert (Hfalse : handleDeletePhrase st false = st).
  { unfold handleDeletePhrase. rewrite Hcur. now rewrite orb_true_r. }
  assert (Hst' : st' = handleDeletePhrase st true) by reflexivity.
  unfold handleDeletePhrase in Hst'. rewrite Hcur in Hst'.
  destruct (String.eqb_spec cur "") as [E|_]; [contradiction|].
  simpl in Hst'.
  destruct (List.filter (fun i => negb (String.eqb i cur)) (queue st))
    as [|next q'] eqn:Hq; rewrite Hst';
    cbn [queue deck deck_queue deck_phrases currentPhraseId head].
  - split; [reflexivity|]. split; [reflexivity|].
    split; [intros []|]. split; [apply filter_present_gone|].
    split; [apply find_filtered_out|]. split; [reflexivity|].
    split; [|exact Hfalse].
    intros Hres. unfold queueResolved in *.
    cbn [deck_queue deck_phrases]. now apply queueResolved_filter.
  - split; [reflexivity|]. split; [reflexivity|].
    split; [rewrite <- Hq; apply filter_present_gone|].
    split; [apply filter_present_gone|].
    split; [apply find_filtered_out|]. split; [reflexivity|].
    split; [|exact Hfalse].
    intros Hres. unfold queueResolved in *.
    cbn [deck_queue deck_phrases]. now apply queueResolved_filter.
Qed.

Lemma study_delete_removes_the_card_witness :
  let st := init deckABCDE in
  let st' := handleDeletePhrase st true in
  (currentPhraseId st = Some "A" /\ "A" <> "") /\
  queue st' = List.filter (fun i => negb (String.eqb i "A")) (queue st) /\
  deck_queue (deck st')
  = List.filter (fun i => negb (String.eqb i "A")) (deck_queue (deck st)) /\
  ~ In "A" (queue st') /\
  ~ In "A" (deck_queue (deck st')) /\
  Array_find (hasId "A") (deck_phrases (deck st')) = None /\
  currentPhraseId st' = head (queue st') /\
  (queueResolved (deck st) -> queueResolved (deck st')) /\
  handleDeletePhrase st false = st.
Proof.
  split.
  - split; [reflexivity | discriminate].
  - exact (study_delete_removes_the_card (init deckABCDE) "A"
             eq_refl ltac:(discriminate)).
Defined.

Lemma countPhrase_total (acc : Buckets) (p : Phrase) :
  bucketsTotal (countPhrase acc p) = bucketsTotal acc + 1 /\
  b_new (countPhrase acc p)
  = b_new acc + (if totalReviews p =? 0 then 1 else 0).
Proof.
  destruct acc. unfold countPhrase, bucketsTotal.
  repeat match goal with
         | |- context [if ?b then _ else _] => destruct b
         end; simpl; split; lia.
Qed.

(** X6.  The status overlay of the study screen counts every card of the
    deck in exactly one of its thirteen rows: the counts add up to the
    number of cards, and the row of new cards holds exactly the cards with
    [totalReviews = 0]. *)
Theorem stats_overlay_counts_every_card :
  forall phrases : list Phrase,
    bucketsTotal (statsOverlay phrases) = Array_length phrases /\
    b_new (statsOverlay phrases)
    = Array_length (List.filter (fun p => totalReviews p =? 0) phrases).
Proof.
  intros phrases. unfold statsOverlay.
  assert (H : forall ps acc,
             bucketsTotal (fold_left countPhrase ps acc)
             = bucketsTotal acc + Array_length ps /\
             b_new (fold_left countPhrase ps acc)
             = b_new acc
               + Array_length (List.filter (fun p => totalReviews p =? 0) ps)).
  { induction ps as [|p ps IH]; intros acc; simpl.
    - unfold Array_length. simpl. split; lia.
    - destruct (IH (countPhrase acc p)) as [H1 H2].
      destruct (countPhrase_total acc p) as [H3 H4].
      rewrite H1, H2, H3, H4. unfold Array_length.
      destruct (totalReviews p =? 0); simpl length; split; lia. }
  destruct (H phrases noBuckets) as [H1 H2].
  rewrite H1, H2. unfold bucketsTotal, noBuckets. simpl. split; lia.
Qed.

(** X7.  Saving an edit of the current card in a study session changes
    texts only: every card keeps its id, counters and review time, and
    the queues, the card on display and the tallies stay as they are. *)
Theorem study_edit_keeps_progress :
  forall (st : State) (english_ chinese_ note_ : string),
    let st' := handleSaveEdit st english_ chinese_ note_ in
    Forall2 sameProgress (deck_phrases (deck st)) (deck_phrases (deck st')) /\
    deck_queue (deck st') = deck_queue (deck st) /\
    queue st' = queue st /\
    currentPhraseId st' = currentPhraseId st /\
    cardState st' = cardState st /\
    sessionStats_correct st' = sessionStats_correct st /\
    sessionStats_wrong st' = sessionStats_wrong st.
Proof.
  intros st e c n st'. subst st'. unfold handleSaveEdit.
  assert (Hrefl : forall ps : list Phrase, Forall2 sameProgress ps ps).
  { induction ps; constructor; [repeat split | assumption]. }
  destruct (currentPhraseId st) as [cur|] eqn:Hcur;
    [|repeat split; try reflexivity; try assumption; apply Hrefl].
  destruct (String.eqb cur "");
    [repeat split; try reflexivity; try assumption; apply Hrefl|].
  simpl. repeat split; try reflexivity; try assumption.
  induction (deck_phrases (deck st)) as [|q ps IH]; simpl; constructor;
    [|exact IH].
  destruct (hasId cur q); repeat split.
Qed.

End StudyEditing.

(** ** Exam sessions, further *)

Section ExamFurther.
Import ExamSession.

Variable shuffled : list Phrase -> list Phrase.

Lemma firstn_snoc_nth {A} (l : list A) (i : nat) (x : A) :
  nth_error l i = Some x -> firstn (S i) l = firstn i l ++ [x].
Proof.
  revert i. induction l as [|y l IH]; intros [|i] Hn; simpl in *;
    try discriminate.
  - now injection Hn as ->.
  - f_equal. now apply IH.
Qed.

Lemma questionAt_cases (qs : list Phrase) (i : Z) :
  0 <= i ->
  (i < Array_length qs /\ exists cp, questionAt qs i = Some cp
                                      /\ nth_error qs (Z.to_nat i) = Some cp) \/
  (Array_length qs <= i /\ questionAt qs i = None).
Proof.
  intros Hi. unfold questionAt, Array_length.
  destruct (i <? 0) eqn:E; [apply Z.ltb_lt in E; lia|].
  destruct (nth_error qs (Z.to_nat i)) as [cp|] eqn:Hn.
  - left. split; [|exists cp; split; reflexivity].
    assert (Z.to_nat i < length qs)%nat
      by (apply nth_error_Some; rewrite Hn; discriminate).
    lia.
  - right. split; [|reflexivity].
    apply nth_error_None in Hn. lia.
Qed.

Lemma dispatch_index (st : State) (e : Event) :
  indexInRange st -> indexInRange (dispatch shuffled st e).
Proof.
  intros (Hi & H0 & Hr). destruct e as [|c now|]; simpl.
  - repeat split; assumption.
  - unfold handleVerdict.
    destruct (questionAt (questions st) (currentIndex st)) as [cp|];
      [|repeat split; assumption].
    unfold indexInRange. simpl. split; [exact Hi|].
    destruct (Z.ltb_spec (currentIndex st) (Array_length (questions st) - 1));
      split; try lia; destruct Hr as [Hr|Hr]; auto; right; lia.
  - rewrite initEffect_idle by exact Hi. repeat split; assumption.
Qed.

Lemma run_index (es : list Event) : forall st,
  indexInRange st -> indexInRange (run shuffled st es).
Proof.
  unfold run. induction es as [|e es IH]; intros st H; simpl; [exact H|].
  apply IH. now apply dispatch_index.
Qed.

Lemma mounted_index (d : Deck) (count : Z) :
  indexInRange (initEffect shuffled (mount d count)).
Proof.
  unfold indexInRange. simpl. split; [reflexivity|]. split; [lia|].
  destruct (Array_slice0 _ _) eqn:E; [now left|right].
  unfold Array_length. simpl. lia.
Qed.

Lemma keyDown_books (st : State) (key : string) (now : Z) :
  examBooks st -> examBooks (handleKeyDown st key now).
Proof.
  intros Hb. unfold handleKeyDown.
  destruct (isFinished st) eqn:Hfin; [exact Hb|].
  assert (Hverdict : forall c,
             examBooks (match handleVerdict st c now with
                        | Returns st' => st'
                        | _ => st
                        end)).
  { intros c. destruct Hb as (Hi & Hres & Hscore & Hrest).
    rewrite Hfin in Hrest. destruct Hrest as [Hidx Hmore].
    unfold handleVerdict.
    destruct (questionAt_cases (questions st) (currentIndex st))
      as [(Hlt & cp & Hq & Hn)|(Hge & Hq)];
      [rewrite Hidx; unfold Array_length; lia | | ];
      rewrite Hq;
      [|unfold examBooks; rewrite Hfin; repeat split; assumption].
    rewrite Hidx in Hn. unfold Array_length in Hn. rewrite Nat2Z.id in Hn.
    unfold examBooks. simpl.
    rewrite length_app, map_app, List.filter_app. simpl.
    replace (length (results st) + 1)%nat with (S (length (results st))) by lia.
    split; [exact Hi|]. split.
    { rewrite (firstn_snoc_nth _ _ _ Hn). now rewrite Hres. }
    split.
    { unfold Array_length in *. rewrite length_app.
      destruct c; simpl; lia. }
    unfold Array_length in *. rewrite ?length_app. cbn [length].
    destruct (Z.ltb_spec (currentIndex st)
                         (Z.of_nat (length (questions st)) - 1)).
    - rewrite Hfin. split; [lia|]. right. lia.
    - split; [lia|]. intros Hnil. rewrite Hnil in Hn.
      destruct (length (results st)); discriminate. }
  destruct (step st).
  - destruct (_ || _); [|exact Hb].
    unfold examBooks, handleReveal. simpl. exact Hb.
  - destruct (String.eqb key "1"); [apply Hverdict|].
    destruct (String.eqb key "2"); [apply Hverdict | exact Hb].
  - exact Hb.
Qed.

Lemma userDispatch_books (st : State) (e : UserEvent) :
  examBooks st -> examBooks (userDispatch shuffled st e).
Proof.
  intros Hb. destruct e as [key now| |]; simpl.
  - now apply keyDown_books.
  - unfold tick. destruct (isFinished st) eqn:Hfin; [exact Hb|].
    unfold examBooks in *. simpl. now rewrite Hfin in *.
  - destruct Hb as (Hi & Hrest).
    rewrite initEffect_idle by exact Hi. split; assumption.
Qed.

Lemma userRun_books (es : list UserEvent) : forall st,
  examBooks st -> examBooks (userRun shuffled st es).
Proof.
  unfold userRun. induction es as [|e es IH]; intros st H; simpl; [exact H|].
  apply IH. now apply userDispatch_books.
Qed.

Lemma mounted_books (d : Deck) (count : Z) :
  examBooks (initEffect shuffled (mount d count)).
Proof.
  unfold examBooks. simpl. repeat split.
  destruct (Array_slice0 _ _); [now left | right; simpl; lia].
Qed.

End ExamFurther.

Section ExamFurtherClaims.
Import ExamSession.

(** X8.  Once the init effect has run, the index of the current question
    never leaves the question list, whatever reveals, verdicts and re-runs
    of the init effect follow: a verdict always returns when the exam has
    questions, and it raises (reading [.id] of [undefined]) exactly when
    the exam has none, as for a requested count of 0 or an empty deck. *)
Theorem exam_verdict_never_raises :
  forall (shuffled : list Phrase -> list Phrase) (d : Deck) (count : Z)
         (es : list Event) (correct : bool) (now : Z),
    let st := run shuffled (initEffect shuffled (mount d count)) es in
    0 <= currentIndex st /\
    match questions st with
    | [] => handleVerdict st correct now = ThrowsTypeError
    | _ :: _ => exists st' : State, handleVerdict st correct now = Returns st'
    end.
Proof.
  intros shuffled d count es c now st.
  destruct (run_index shuffled es _ (mounted_index shuffled d count))
    as (_ & H0 & Hr).
  fold st in H0, Hr. split; [exact H0|].
  destruct (questionAt_cases (questions st) (currentIndex st) H0)
    as [(Hlt & cp & Hq & _)|(Hge & Hq)].
  - destruct (questions st) eqn:E.
    + unfold Array_length in Hlt. simpl in Hlt. lia.
    + rewrite <- E in Hq.
      destruct (exam_handleVerdict_returns st cp c now Hq) as (st' & Hret & _).
      now exists st'.
  - destruct Hr as [Hnil|Hlt]; [|lia].
    rewrite Hnil in *. unfold handleVerdict. now rewrite Hnil, Hq.
Qed.

(** X9.  As its user drives it (keys, timer ticks, re-renders), an exam
    keeps its books: the results are the questions answered so far, in the
    order of the question list; the score is the number of correct
    results; while the exam is not finished the current question is the
    first one without a result; and the exam is finished exactly when a
    non-empty question list has a result for every question. *)
Theorem exam_results_follow_questions :
  forall (shuffled : list Phrase -> list Phrase) (d : Deck) (count : Z)
         (es : list UserEvent),
    let st := userRun shuffled (initEffect shuffled (mount d count)) es in
    map phrase (results st) = firstn (length (results st)) (questions st) /\
    score st = Array_length (List.filter ExamSession.correct (results st)) /\
    (length (results st) <= length (questions st))%nat /\
    (isFinished st = true <->
     length (results st) = length (questions st) /\ questions st <> []) /\
    (isFinished st = true \/ currentIndex st = Array_length (results st)).
Proof.
  intros shuffled d count es st.
  destruct (userRun_books shuffled es _ (mounted_books shuffled d count))
    as (_ & Hres & Hscore & Hrest).
  fold st in Hres, Hscore, Hrest.
  split; [exact Hres|]. split; [exact Hscore|].
  destruct (isFinished st).
  - destruct Hrest as [Hlen Hne]. split; [lia|]. split; [|now left].
    split; [intros _; split; assumption | reflexivity].
  - destruct Hrest as [Hidx Hmore]. split; [|split; [|now right]].
    + destruct Hmore as [Hnil|Hlt]; [|lia].
      rewrite Hnil in Hres. rewrite firstn_nil in Hres.
      destruct (results st); [simpl; lia | discriminate].
    + split; [discriminate|]. intros [Hlen Hne]. exfalso.
      destruct Hmore as [Hnil|Hlt]; [contradiction | lia].
Qed.

(** X10.  Leaving an exam reports nothing when no question was answered;
    otherwise it reports the elapsed seconds, the score as the number of
    correct answers and the rest of the answered questions as wrong, so
    the two numbers add up to the number of answers given. *)
Theorem exam_exit_report :
  forall (shuffled : list Phrase -> list Phrase) (d : Deck) (count : Z)
         (es : list UserEvent),
    let st := userRun shuffled (initEffect shuffled (mount d count)) es in
    match handleExit st with
    | Some (duration, correctCount, wrongCount) =>
      duration = sessionDuration st /\
      correctCount = score st /\
      correctCount + wrongCount = Array_length (results st) /\
      0 <= correctCount /\ 0 <= wrongCount /\
      results st <> []
    | None => results st = [] /\ score st = 0
    end.
Proof.
  intros shuffled d count es st.
  destruct (userRun_books shuffled es _ (mounted_books shuffled d count))
    as (_ & _ & Hscore & _).
  fold st in Hscore. unfold handleExit.
  pose proof (filter_length_le ExamSession.correct (results st)) as Hle.
  unfold Array_length in *.
  destruct (Z.gtb_spec (Z.of_nat (length (results st))) 0) as [Hpos|Hzero].
  - repeat split; try lia.
    intros Hnil. rewrite Hnil in Hpos. simpl in Hpos. lia.
  - assert (Hnil : results st = [])
      by (destruct (results st); [reflexivity | simpl in Hzero; lia]).
    split; [exact Hnil|]. rewrite Hscore, Hnil. reflexivity.
Qed.

Lemma touched_refl (qs ps : list Phrase) : Forall2 (touchedOnlyIfAsked qs) ps ps.
Proof. induction ps; constructor; [split; auto | assumption]. Qed.

Lemma touched_step (qs ps ps1 : list Phrase) (cp : Phrase) (c : bool) (now : Z) :
  In cp qs ->
  Forall2 (touchedOnlyIfAsked qs) ps ps1 ->
  Forall2 (touchedOnlyIfAsked qs) ps (map (updatePhrase cp c now) ps1).
Proof.
  intros Hcp. induction 1 as [|p p1 ps ps1 [Hid Hsame] _ IH]; simpl;
    constructor; [|exact IH].
  split; [rewrite exam_updatePhrase_id; exact Hid|].
  destruct Hsame as [Hin | ->]; [now left|].
  unfold updatePhrase.
  destruct (String.eqb_spec (id p) (id cp)) as [Heq|_]; [|now right].
  left. rewrite Heq. now apply in_map.
Qed.

(** X11.  An exam writes to the deck only through the cards it asks: after
    any reveals, verdicts and re-runs of the init effect the deck has the
    same id, name and queue and the same card ids in the same order, and a
    card whose id is not the id of a question is exactly as it was. *)
Theorem exam_leaves_the_rest_of_the_deck :
  forall (shuffled : list Phrase -> list Phrase) (d : Deck) (count : Z)
         (es : list Event),
    let st0 := initEffect shuffled (mount d count) in
    let st := run shuffled st0 es in
    deck_id (deck st) = deck_id d /\
    deck_name (deck st) = deck_name d /\
    deck_queue (deck st) = deck_queue d /\
    map id (deck_phrases (deck st)) = map id (deck_phrases d) /\
    Forall2 (touchedOnlyIfAsked (questions st0))
            (deck_phrases d) (deck_phrases (deck st)).
Proof.
  intros shuffled d count es st0 st.
  assert (H : forall es s,
             isInitialized s = true ->
             questions s = questions st0 ->
             (deck_id (deck s) = deck_id d /\
              deck_name (deck s) = deck_name d /\
              deck_queue (deck s) = deck_queue d /\
              Forall2 (touchedOnlyIfAsked (questions st0))
                      (deck_phrases d) (deck_phrases (deck s))) ->
             let s' := run shuffled s es in
             deck_id (deck s') = deck_id d /\
             deck_name (deck s') = deck_name d /\
             deck_queue (deck s') = deck_queue d /\
             Forall2 (touchedOnlyIfAsked (questions st0))
                     (deck_phrases d) (deck_phrases (deck s'))).
  { clear es st. unfold run.
    induction es as [|e es IH]; intros s Hi Hqs Hinv; simpl; [exact Hinv|].
    destruct (dispatch_frame shuffled s e Hi) as [Hq' Hi'].
    apply IH; [exact Hi' | congruence |].
    destruct Hinv as (H1 & H2 & H3 & H4).
    destruct e as [|c now|]; simpl.
    - repeat split; assumption.
    - unfold handleVerdict.
      destruct (questionAt (questions s) (currentIndex s)) as [cp|] eqn:Hq;
        [|repeat split; assumption].
      simpl. repeat split; try assumption.
      apply touched_step; [|exact H4].
      unfold questionAt in Hq. rewrite Hqs in Hq.
      destruct (currentIndex s <? 0); [discriminate|].
      exact (nth_error_In _ _ Hq).
    - rewrite initEffect_idle by exact Hi. repeat split; assumption. }
  destruct (H es st0 (initEffect_initialized shuffled _) eq_refl)
    as (H1 & H2 & H3 & H4).
  { simpl. repeat split. apply touched_refl. }
  fold st in H1, H2, H3, H4.
  repeat split; try assumption.
  clear - H4. induction H4 as [|p p' ps ps' [Hid _] _ IH]; simpl;
    [reflexivity | congruence].
Qed.

End ExamFurtherClaims.

(** ** Import and the deck list, further *)

Section ImportFurther.
Context `{Runtime}.

Lemma importer_parsed_length (lines : list string) : forall i,
  length (omap (fun x : option Importer.ParsedItem => x)
               (Array_mapi_from Importer.parseLine i lines))
  = length (List.filter (fun l => negb (length (fieldsOf l) <? 2)%nat) lines).
Proof.
  induction lines as [|line lines IH]; intros i; simpl; [reflexivity|].
  unfold Importer.parseLine at 1.
  destruct (length (fieldsOf line) <? 2)%nat; simpl; [apply IH|].
  f_equal. apply IH.
Qed.

Lemma toPhrases_ids (items : list Importer.ParsedItem) : forall n,
  map id (Importer.toPhrases n items) = map uuidv4 (seq n (length items)).
Proof.
  induction items as [|item items IH]; intros n; simpl; [reflexivity|].
  f_equal. apply IH.
Qed.

Lemma toPhrases_length (items : list Importer.ParsedItem) (n : nat) :
  length (Importer.toPhrases n items) = length items.
Proof.
  rewrite <- (length_map id), toPhrases_ids, length_map, length_seq. reflexivity.
Qed.

Lemma map_injective_NoDup {A B} (f : A -> B) (l : list A) :
  (forall x y, f x = f y -> x = y) -> List.NoDup l -> List.NoDup (map f l).
Proof.
  intros Hinj. induction 1 as [|x l Hnin _ IH]; simpl; constructor; [|exact IH].
  intros Hin. apply in_map_iff in Hin as (y & Hxy & Hy).
  apply Hinj in Hxy. subst y. contradiction.
Qed.

Lemma map_id_resolved (ps : list Phrase) : Forall (resolves ps) (map id ps).
Proof.
  apply List.Forall_forall. intros i Hin.
  apply in_map_iff in Hin as (p & Hid & Hp). now exists p.
Qed.

End ImportFurther.

Section ImportFurtherClaims.

(** X12.  The manual import skips every non-blank line that has fewer than
    two fields and makes one card for each of the others, with the ids
    drawn one after the other.  It refuses (sets an error, imports
    nothing) exactly when the deck name is blank or no line has two
    fields. *)
Theorem manual_import_outcome :
  forall (R : Runtime) (deckName text : string) (n : nat),
    let parsable :=
      List.filter (fun l => negb (length (fieldsOf l) <? 2)%nat)
                  (nonBlankLines text) in
    match Importer.handleManualImport deckName text n with
    | Importer.SetError _ => String_trim deckName = "" \/ parsable = []
    | Importer.OnImport name phrases =>
      name = deckName /\
      String_trim deckName <> "" /\
      parsable <> [] /\
      length phrases = length parsable /\
      map id phrases = map uuidv4 (seq n (length parsable))
    end.
Proof.
  intros R deckName text n parsable.
  assert (Hlen : length (Importer.sortedItems text) = length parsable).
  { rewrite (Permutation_length (sortedItems_Permutation text)).
    apply importer_parsed_length. }
  unfold Importer.handleManualImport.
  destruct (String.eqb_spec (String_trim deckName) "") as [Hblank|Hname];
    [now left|].
  rewrite toPhrases_length, Hlen.
  destruct (Nat.eqb_spec (length parsable) 0) as [H0|Hpos].
  - right. now apply length_zero_iff_nil.
  - repeat split; try assumption.
    + intros Hnil. apply Hpos. now rewrite Hnil.
    + now rewrite toPhrases_length.
    + now rewrite toPhrases_ids, Hlen.
Qed.

Lemma freshIds_injective (i j : nat) :
  SampleRuntime.freshIds i = SampleRuntime.freshIds j -> i = j.
Proof.
  unfold SampleRuntime.freshIds. intros [= Hm]. revert j Hm.
  induction i as [|i IH]; intros [|j] Hm; simpl in Hm;
    try discriminate; [reflexivity|].
  injection Hm as Hm. f_equal. now apply IH.
Qed.

(** X13.  A deck made from a manual import is well formed when the id
    generator never repeats: its queue lists the ids of its cards in the
    order of the cards, has no duplicates, and every queued id has its
    card. *)
Theorem imported_deck_is_well_formed :
  forall (R : Runtime) (deckName text : string) (n k : nat),
    (forall i j : nat, uuidv4 i = uuidv4 j -> i = j) ->
    match Importer.handleManualImport deckName text n with
    | Importer.OnImport name phrases =>
      let d := App.handleCreateDeck name phrases k in
      deck_phrases d = phrases /\
      deck_queue d = map id phrases /\
      List.NoDup (deck_queue d) /\
      queueResolved d
    | Importer.SetError _ => True
    end.
Proof.
  intros R deckName text n k Hinj.
  unfold Importer.handleManualImport.
  destruct (String.eqb (String_trim deckName) ""); [exact I|].
  destruct (length _ =? 0)%nat; [exact I|].
  simpl. split; [reflexivity|]. split; [reflexivity|]. split.
  - rewrite toPhrases_ids. apply map_injective_NoDup; [exact Hinj|].
    apply seq_NoDup.
  - unfold queueResolved. simpl. apply map_id_resolved.
Qed.

Lemma imported_deck_is_well_formed_witness :
  (forall i j : nat,
      @uuidv4 SampleRuntime.freshRuntime i = @uuidv4 SampleRuntime.freshRuntime j ->
      i = j) /\
  match @Importer.handleManualImport SampleRuntime.freshRuntime "d" sampleText 0 with
  | Importer.OnImport name phrases =>
    let d := @App.handleCreateDeck SampleRuntime.freshRuntime name phrases 3 in
    deck_phrases d = phrases /\
    deck_queue d = map id phrases /\
    List.NoDup (deck_queue d) /\
    queueResolved d
  | Importer.SetError _ => True
  end.
Proof.
  split; [exact freshIds_injective|].
  exact (imported_deck_is_well_formed SampleRuntime.freshRuntime "d" sampleText
           0 3 freshIds_injective).
Defined.

End ImportFurtherClaims.

Section AppFurther.
Import App.





End AppFurther.

Section DeckList.
Import App.

Lemma resolves_app_l (ps qs : list Phrase) (i : string) :
  resolves ps i -> resolves (ps ++ qs) i.
Proof.
  intros (p & Hin & Hid). exists p. split; [|exact Hid].
  apply in_or_app. now left.
Qed.

Lemma resolves_app_r (ps qs : list Phrase) (i : string) :
  resolves qs i -> resolves (ps ++ qs) i.
Proof.
  intros (p & Hin & Hid). exists p. split; [|exact Hid].
  apply in_or_app. now right.
Qed.

Lemma copyPhrases_spec `{Runtime} (ps : list Phrase) : forall n,
  map id (copyPhrases n ps) = map uuidv4 (seq n (length ps)) /\
  Forall2 (fun p q =>
             english q = english p /\ chinese q = chinese p /\
             note q = note p /\ lastReviewedAt q = lastReviewedAt p /\
             consecutiveCorrect q = 0 /\ consecutiveWrong q = 0 /\
             totalReviews q = 0)
          ps (copyPhrases n ps).
Proof.
  induction ps as [|p ps IH]; intros n; simpl.
  - split; [reflexivity | constructor].
  - destruct (IH (S n)) as [Hids Hall]. split; [now f_equal|].
    constructor; [repeat split | exact Hall].
Qed.

(** X15.  Merging a deck into a target appends, to the target's cards and
    to the end of its queue, one copy of every card of the source, with a
    newly drawn id, the same texts, note and review time, and all three
    counters at 0; every other deck is left as it is, and every queued id
    still has its card.  When the source deck is not found nothing
    changes. *)
Theorem merge_appends_fresh_copies :
  forall (R : Runtime) (decks : list Deck) (src target : string) (n : nat),
    src <> "" ->
    let decks' := performMerge decks (Some src) target n in
    match Array_find (fun d => String.eqb (deck_id d) src) decks with
    | None => decks' = decks
    | Some sourceDeck =>
      let copies := copyPhrases n (deck_phrases sourceDeck) in
      Forall2 (fun d d' =>
                 if String.eqb (deck_id d) target then
                   deck_id d' = deck_id d /\
                   deck_name d' = deck_name d /\
                   deck_phrases d' = deck_phrases d ++ copies /\
                   deck_queue d' = deck_queue d ++ map id copies
                 else d' = d)
              decks decks' /\
      map id copies = map uuidv4 (seq n (length (deck_phrases sourceDeck))) /\
      Forall2 (fun p q =>
                 english q = english p /\ chinese q = chinese p /\
                 note q = note p /\ lastReviewedAt q = lastReviewedAt p /\
                 consecutiveCorrect q = 0 /\ consecutiveWrong q = 0 /\
                 totalReviews q = 0)
              (deck_phrases sourceDeck) copies /\
      (Forall queueResolved decks -> Forall queueResolved decks')
    end.
Proof.
  intros R decks src target n Hne decks'. subst decks'.
  unfold performMerge.
  destruct (String.eqb_spec src "") as [E|_]; [contradiction|].
  destruct (Array_find _ decks) as [s|]; [|reflexivity].
  destruct (copyPhrases_spec (deck_phrases s) n) as [Hids Hcopies].
  simpl. split; [|split; [exact Hids|split; [exact Hcopies|]]].
  - induction decks as [|d decks IH]; simpl; constructor; [|exact IH].
    destruct (String.eqb (deck_id d) target); simpl; auto.
  - intros Hall. induction Hall as [|d decks Hd _ IH]; simpl; constructor;
      [|exact IH].
    destruct (String.eqb (deck_id d) target); [|exact Hd].
    unfold queueResolved in *. simpl.
    apply Forall_app. split.
    + eapply List.Forall_impl; [|exact Hd]. intros i. apply resolves_app_l.
    + eapply List.Forall_impl; [|apply map_id_resolved].
      intros i. apply resolves_app_r.
Qed.

Lemma merge_appends_fresh_copies_witness :
  let decks := [deckSrc; deckDst] in
  "src" <> "" /\
  match Array_find (fun d => String.eqb (deck_id d) "src") decks with
  | None =>
    @performMerge SampleRuntime.freshRuntime decks (Some "src") "dst" 0 = decks
  | Some sourceDeck =>
    let copies :=
      @copyPhrases SampleRuntime.freshRuntime 0 (deck_phrases sourceDeck) in
    Forall2 (fun d d' =>
               if String.eqb (deck_id d) "dst" then
                 deck_id d' = deck_id d /\
                 deck_name d' = deck_name d /\
                 deck_phrases d' = deck_phrases d ++ copies /\
                 deck_queue d' = deck_queue d ++ map id copies
               else d' = d)
            decks
            (@performMerge SampleRuntime.freshRuntime decks (Some "src") "dst" 0) /\
    map id copies
    = map (@uuidv4 SampleRuntime.freshRuntime)
          (seq 0 (length (deck_phrases sourceDeck))) /\
    Forall2 (fun p q =>
               english q = english p /\ chinese q = chinese p /\
               note q = note p /\ lastReviewedAt q = lastReviewedAt p /\
               consecutiveCorrect q = 0 /\ consecutiveWrong q = 0 /\
               totalReviews q = 0)
            (deck_phrases sourceDeck) copies /\
    (Forall queueResolved decks ->
     Forall queueResolved
       (@performMerge SampleRuntime.freshRuntime decks (Some "src") "dst" 0))
  end.
Proof.
  split; [discriminate|].
  exact (merge_appends_fresh_copies SampleRuntime.freshRuntime
           [deckSrc; deckDst] "src" "dst" 0 ltac:(discriminate)).
Defined.

(** X16.  A deck update never adds or removes a deck: the list keeps its
    deck ids, in order.  So when the deck was deleted in the meantime, the
    update is dropped: updating a list from which the deck's id was just
    deleted gives that list back, without the deck. *)
Theorem deck_update_keeps_the_deck_list :
  forall (decks : list Deck) (updatedDeck : Deck),
    deck_id updatedDeck <> "" ->
    let remaining := confirmDeleteDeck decks (Some (deck_id updatedDeck)) in
    map deck_id (updateDeck decks updatedDeck) = map deck_id decks /\
    ~ In (deck_id updatedDeck) (map deck_id remaining) /\
    updateDeck remaining updatedDeck = remaining.
Proof.
  intros decks u Hne remaining. subst remaining. unfold confirmDeleteDeck.
  destruct (String.eqb_spec (deck_id u) "") as [E|_]; [contradiction|].
  split; [|split].
  - unfold updateDeck. induction decks as [|d decks IH]; simpl; [reflexivity|].
    destruct (String.eqb_spec (deck_id d) (deck_id u)) as [Heq|_];
      simpl; now f_equal.
  - intros Hin. apply in_map_iff in Hin as (d & Hid & Hd).
    apply filter_In in Hd as [_ Hd].
    rewrite Hid, String.eqb_refl in Hd. discriminate.
  - unfold updateDeck. induction decks as [|d decks IH]; simpl; [reflexivity|].
    destruct (String.eqb (deck_id d) (deck_id u)) eqn:E; simpl; [exact IH|].
    rewrite E. now f_equal.
Qed.

Lemma deck_update_keeps_the_deck_list_witness :
  let decks := [deckABCDE; deckA 1 0] in
  let remaining := confirmDeleteDeck decks (Some (deck_id deckABCDE)) in
  deck_id deckABCDE <> "" /\
  map deck_id (updateDeck decks deckABCDE) = map deck_id decks /\
  ~ In (deck_id deckABCDE) (map deck_id remaining) /\
  updateDeck remaining deckABCDE = remaining.
Proof.
  split; [discriminate|].
  exact (deck_update_keeps_the_deck_list [deckABCDE; deckA 1 0] deckABCDE
           ltac:(discriminate)).
Defined.

(** X20.  The exam set-up offers [min(20, number of cards)] questions
    for a deck it finds (and nothing for a deck it does not find); this
    count is never negative, and an exam started with it asks exactly that
    many questions. *)
Theorem default_exam_size :
  forall (shuffled : list Phrase -> list Phrase) (decks : list Deck)
         (deckId : string),
    (forall l : list Phrase, Permutation (shuffled l) l) ->
    match Array_find (fun d => String.eqb (deck_id d) deckId) decks with
    | Some deck =>
      exists count : Z,
        initiateExam decks deckId = Some count /\
        count = Z.min 20 (Array_length (deck_phrases deck)) /\
        0 <= count /\
        Array_length
          (ExamSession.questions
             (ExamSession.initEffect shuffled (ExamSession.mount deck count)))
        = count
    | None => initiateExam decks deckId = None
    end.
Proof.
  intros shuffled decks deckId Hperm. unfold initiateExam.
  destruct (Array_find _ decks) as [deck|]; [|reflexivity].
  eexists. split; [reflexivity|]. split; [reflexivity|].
  assert (H0 : 0 <= Z.min 20 (Array_length (deck_phrases deck)))
    by (unfold Array_length; lia).
  split; [exact H0|].
  rewrite initEffect_mount, slice0_length by (unfold Array_length in *; lia).
  unfold Array_length in *.
  rewrite (Permutation_length (Hperm (deck_phrases deck))). lia.
Qed.

Lemma default_exam_size_witness :
  (forall l : list Phrase, Permutation (rev l) l) /\
  match Array_find (fun d => String.eqb (deck_id d) "src") [deckSrc; deckDst] with
  | Some deck =>
    exists count : Z,
      initiateExam [deckSrc; deckDst] "src" = Some count /\
      count = Z.min 20 (Array_length (deck_phrases deck)) /\
      0 <= count /\
      Array_length
        (ExamSession.questions
           (ExamSession.initEffect (@rev Phrase) (ExamSession.mount deck count)))
      = count
  | None => initiateExam [deckSrc; deckDst] "src" = None
  end.
Proof.
  split; [intros l; symmetry; apply Permutation_rev|].
  exact (default_exam_size (@rev Phrase) [deckSrc; deckDst] "src"
           (fun l => Permutation_sym (Permutation_rev l))).
Defined.

End DeckList.

(** ** The deck editor, further *)

Section EditorExport.
Import DeckEditor.

Lemma filter_agree {A} (P Q : A -> Prop)
    `{forall x, Decision (P x)} `{forall x, Decision (Q x)} (l : list A) :
  (forall x, In x l -> (P x <-> Q x)) -> filter P l = filter Q l.
Proof.
  induction l as [|x l IH]; intros Hpq; [reflexivity|].
  rewrite !filter_cons.
  assert (Hx : P x <-> Q x) by (apply Hpq; now left).
  rewrite IH by (intros y Hy; apply Hpq; now right).
  destruct (decide (P x)), (decide (Q x)); tauto || reflexivity.
Qed.

Lemma phraseMap_fold (ps : list Phrase) : forall m0 : gmap string Phrase,
  List.NoDup (map id ps) ->
  (forall p, In p ps ->
             fold_left (fun m p => <[id p := p]> m) ps m0 !! id p = Some p) /\
  (forall i, ~ In i (map id ps) ->
             fold_left (fun m p => <[id p := p]> m) ps m0 !! i = m0 !! i).
Proof.
  induction ps as [|q ps IH]; intros m0 Hnd; simpl.
  - split; [intros p [] | reflexivity].
  - apply NoDup_cons_iff in Hnd as [Hnin Hnd].
    destruct (IH (<[id q := q]> m0) Hnd) as [IH1 IH2].
    split.
    + intros p [<-|Hin]; [|now apply IH1].
      rewrite IH2 by exact Hnin. apply lookup_insert_eq.
    + intros i Hi. rewrite IH2 by (intros Hin; apply Hi; now right).
      apply lookup_insert_ne. intros Heq. apply Hi. now left.
Qed.

(** With distinct ids the map finds exactly the cards of the list. *)
Lemma phraseMap_lookup (ps : list Phrase) (i : string) (p : Phrase) :
  List.NoDup (map id ps) ->
  phraseMap ps !! i = Some p <-> In p ps /\ id p = i.
Proof.
  intros Hnd. destruct (phraseMap_fold ps ∅ Hnd) as [H1 H2].
  unfold phraseMap. split.
  - intros Hl.
    destruct (in_dec string_dec i (map id ps)) as [Hin|Hnin].
    + apply in_map_iff in Hin as (q & Hid & Hq).
      pose proof (H1 q Hq) as Hq'. rewrite Hid, Hl in Hq'.
      injection Hq' as ->. split; assumption.
    + rewrite H2 in Hl by exact Hnin. rewrite lookup_empty in Hl. discriminate.
  - intros [Hin <-]. now apply H1.
Qed.

Lemma addQueued_fold (m : gmap string Phrase) (q : list string) :
  forall acc : ExportAcc,
    orderedPhrases (fold_left (addQueued m) q acc)
    = orderedPhrases acc ++ omap (fun i => m !! i) q /\
    (forall i, i ∈ seenIds (fold_left (addQueued m) q acc) <->
               i ∈ seenIds acc \/ (In i q /\ is_Some (m !! i))).
Proof.
  induction q as [|j q IH]; intros acc; simpl.
  - rewrite app_nil_r. split; [reflexivity|].
    intros i. split; [now left | intros [H|[[] _]]; exact H].
  - destruct (IH (addQueued m acc j)) as [IH1 IH2].
    split.
    + rewrite IH1. unfold addQueued.
      destruct (m !! j) as [p|]; simpl; [|reflexivity].
      unfold Array_push. now rewrite <- app_assoc.
    + intros i. rewrite IH2. unfold addQueued.
      destruct (m !! j) as [p|] eqn:Hj; simpl.
      * rewrite elem_of_union, elem_of_singleton. clear IH IH1 IH2.
        assert (Hs : is_Some (Some p)) by now exists p.
        split.
        -- intros [[Heq|Hacc]|[Hin Hi]];
             [subst i; right; split; [now left | now rewrite Hj]
             | now left | right; split; [now right | exact Hi]].
        -- intros [Hacc|[[Heq|Hin] Hi]];
             [left; now right | left; left; now symmetry
             | right; split; assumption].
      * clear IH IH1 IH2. split.
        -- intros [Hacc|[Hin Hi]];
             [now left | right; split; [now right | exact Hi]].
        -- intros [Hacc|[[Heq|Hin] Hi]];
             [now left | subst i; rewrite Hj in Hi; now destruct Hi
             | right; split; assumption].
Qed.

Lemma addRemaining_fold (ps : list Phrase) : forall acc : ExportAcc,
  orderedPhrases (fold_left addRemaining ps acc)
  = orderedPhrases acc ++ filter (fun p => id p ∉ seenIds acc) ps.
Proof.
  induction ps as [|p ps IH]; intros acc; simpl.
  - now rewrite app_nil_r.
  - rewrite IH, filter_cons. unfold addRemaining.
    destruct (decide (id p ∉ seenIds acc)) as [Hnin|Hin].
    + rewrite bool_decide_eq_false_2 by exact Hnin.
      simpl. unfold Array_push. now rewrite <- app_assoc.
    + rewrite bool_decide_eq_true_2 by (apply dec_stable; exact Hin).
      reflexivity.
Qed.

(** X17.  With distinct card ids and a duplicate-free queue, the text
    export lists every card of the editor exactly once: first the cards of
    the queue, in queue order (queue ids without a card are skipped), then
    the cards that are not queued, in deck order. *)
Theorem export_lists_every_card_once :
  forall (deck : Deck) (phrases : list Phrase),
    List.NoDup (map id phrases) ->
    List.NoDup (deck_queue deck) ->
    exportOrder deck phrases
    = omap (fun i => phraseMap phrases !! i) (deck_queue deck)
      ++ filter (fun p => id p ∉ deck_queue deck) phrases /\
    map id (omap (fun i => phraseMap phrases !! i) (deck_queue deck))
    = filter (fun i => i ∈ map id phrases) (deck_queue deck) /\
    Permutation (exportOrder deck phrases) phrases.
Proof.
  intros deck phrases Hnd Hq.
  set (m := phraseMap phrases).
  set (q := deck_queue deck) in *.
  assert (Hlook : forall i p, m !! i = Some p <-> In p phrases /\ id p = i)
    by (intros; now apply phraseMap_lookup).
  destruct (addQueued_fold m q {| orderedPhrases := []; seenIds := ∅ |})
    as [Hord Hseen].
  assert (Hfilter :
            filter (fun p => id p ∉ seenIds
                      (fold_left (addQueued m) q
                                 {| orderedPhrases := []; seenIds := ∅ |}))
                   phrases
            = filter (fun p => id p ∉ q) phrases).
  { apply filter_agree. intros p Hp.
    rewrite Hseen. simpl. rewrite list_elem_of_In. split.
    - intros Hn Hin. apply Hn. right. split; [exact Hin|].
      exists p. apply Hlook. now split.
    - intros Hn [Hemp|[Hin _]]; [set_solver | contradiction]. }
  assert (Hexp : exportOrder deck phrases
                 = omap (fun i => m !! i) q
                   ++ filter (fun p => id p ∉ q) phrases).
  { unfold exportOrder. fold m q. rewrite addRemaining_fold, Hord, Hfilter.
    reflexivity. }
  split; [exact Hexp|]. split.
  - clear Hexp Hfilter Hord Hseen Hq. induction q as [|i q IH]; simpl; [reflexivity|].
    rewrite filter_cons.
    destruct (m !! i) as [p|] eqn:Hi.
    + apply Hlook in Hi as [Hin Hid].
      rewrite decide_True
        by (apply list_elem_of_In, in_map_iff; now exists p).
      simpl. f_equal; [exact Hid | exact IH].
    + rewrite decide_False; [exact IH|].
      intros Hin. apply list_elem_of_In, in_map_iff in Hin as (p & Hid & Hp).
      assert (Hs : m !! i = Some p) by (apply Hlook; now split).
      congruence.
  - rewrite Hexp.
    rewrite <- (filter_app_complement (fun p => id p ∈ q) phrases) at 2.
    apply Permutation_app; [|reflexivity].
    assert (Hndp : NoDup phrases).
    { apply NoDup_ListNoDup. eapply NoDup_map_inv. exact Hnd. }
    apply NoDup_Permutation.
    + clear Hexp Hfilter Hord Hseen.
      apply NoDup_ListNoDup in Hq.
      induction Hq as [|i q Hnin Hq IH]; simpl; [constructor|].
      destruct (m !! i) as [p|] eqn:Hi; [|exact IH].
      constructor; [|exact IH].
      intros Hp. apply list_elem_of_omap in Hp as (j & Hj & Hjp).
      apply Hlook in Hi as [_ Hid]. apply Hlook in Hjp as [_ Hid'].
      apply Hnin. congruence.
    + now apply NoDup_filter.
    + intros p. rewrite list_elem_of_omap, list_elem_of_filter. split.
      * intros (i & Hi & Hip). apply Hlook in Hip as [Hin Hid].
        split; [|now apply list_elem_of_In].
        now rewrite Hid.
      * intros [Hin Hp]. exists (id p).
        split; [exact Hin|].
        apply Hlook. split; [now apply list_elem_of_In | reflexivity].
Qed.

Lemma export_lists_every_card_once_witness :
  let deck := {| deck_id := "deck"; deck_name := "deck";
                 deck_phrases := deck_phrases deckABC_missedTwice;
                 deck_queue := ["C"; "A"] |} in
  let phrases := deck_phrases deckABC_missedTwice in
  (List.NoDup (map id phrases) /\ List.NoDup (deck_queue deck)) /\
  exportOrder deck phrases
  = omap (fun i => phraseMap phrases !! i) (deck_queue deck)
    ++ filter (fun p => id p ∉ deck_queue deck) phrases /\
  map id (omap (fun i => phraseMap phrases !! i) (deck_queue deck))
  = filter (fun i => i ∈ map id phrases) (deck_queue deck) /\
  Permutation (exportOrder deck phrases) phrases.
Proof.
  assert (H1 : List.NoDup (map id (deck_phrases deckABC_missedTwice))).
  { simpl. repeat constructor; simpl; intuition discriminate. }
  assert (H2 : List.NoDup ["C"; "A"]).
  { repeat constructor; simpl; intuition discriminate. }
  split; [split; assumption|].
  exact (export_lists_every_card_once
           {| deck_id := "deck"; deck_name := "deck";
              deck_phrases := deck_phrases deckABC_missedTwice;
              deck_queue := ["C"; "A"] |}
           (deck_phrases deckABC_missedTwice) H1 H2).
Defined.

End EditorExport.

Section EditorFurther.
Import DeckEditor.

Lemma exportedProgress_split (p : Phrase) :
  countersNonNegative p ->
  Z.max (exportedProgress p) 0 = consecutiveCorrect p /\
  Z.max (- exportedProgress p) 0
  = (if consecutiveCorrect p >? 0 then 0 else consecutiveWrong p).
Proof.
  intros [Hc Hw]. unfold exportedProgress.
  destruct (Z.gtb_spec (consecutiveCorrect p) 0);
    destruct (Z.gtb_spec (consecutiveWrong p) 0); lia.
Qed.

(** X18.  The line that the export writes for a card ([batchLine]), read
    back by the [parseLine] of either import path, gives an item with the
    card's exported progress, and the card made from that item has the
    card's [consecutiveCorrect]; it has its [consecutiveWrong] too unless
    the card had both counters positive, in which case the wrong streak
    comes back as 0.  This is for a line that splits at ['|'] into the
    five fields it was written from, which a ['|'] inside a text
    prevents, and a [parseInt] that reads the printed progress back. *)
Theorem exported_progress_restores_the_streak :
  forall (R : Runtime) (Number_toString : Z -> string) (p : Phrase)
         (idx index : Z),
    let line := batchLine Number_toString p idx in
    countersNonNegative p ->
    fieldsOf line
    = map String_trim [english p; chinese p; default "" (note p);
                       Number_toString (exportedProgress p);
                       Number_toString idx] ->
    String_trim (Number_toString (exportedProgress p)) <> "" ->
    parseInt (String_trim (Number_toString (exportedProgress p)))
    = Some (exportedProgress p) ->
    (exists item : Importer.ParsedItem,
        Importer.parseLine line index = Some item /\
        Importer.progress item = exportedProgress p /\
        forall newId : string,
          streakRestored p (Importer.toPhrase newId item))
    /\
    (exists item : ParsedItem,
        parseLine line index = Some item /\
        progress item = exportedProgress p /\
        forall (m : gmap string Phrase) (acc : Acc),
        exists q : Phrase,
          newPhrasesList (saveItem m acc item) = newPhrasesList acc ++ [q] /\
          streakRestored p q)
    /\
    (consecutiveCorrect p = 0 \/ consecutiveWrong p = 0 ->
     (if consecutiveCorrect p >? 0 then 0 else consecutiveWrong p)
     = consecutiveWrong p).
Proof.
  intros R toStr p idx index line Hnn Hsplit Hne Hparse.
  destruct (exportedProgress_split p Hnn) as [Hc Hw].
  assert (Hnonempty : String.eqb (String_trim (toStr (exportedProgress p))) ""
                      = false)
    by (apply String.eqb_neq; exact Hne).
  split; [|split].
  - unfold Importer.parseLine. rewrite Hsplit.
    cbn [map length Nat.ltb Nat.leb part nth andb negb].
    rewrite Hnonempty, Hparse. cbn [negb andb].
    eexists. split; [reflexivity|]. cbn [Importer.progress].
    split; [reflexivity|].
    intros newId.
    destruct (toPhrase_seeded newId
                {| Importer.item_english := String_trim (english p);
                   Importer.item_chinese := String_trim (chinese p);
                   Importer.item_note := String_trim (default "" (note p));
                   Importer.progress := exportedProgress p;
                   Importer.position :=
                     if negb (String.eqb (String_trim (toStr idx)) "")
                     then parseInt (String_trim (toStr idx)) else None;
                   Importer.originalIndex := index |})
      as (Hc' & Hw' & _).
    cbn [Importer.progress] in Hc', Hw'.
    split; [rewrite <- Hc; exact Hc' | rewrite <- Hw; exact Hw'].
  - unfold parseLine. rewrite Hsplit.
    cbn [map length Nat.ltb Nat.leb part nth andb negb].
    rewrite Hnonempty, Hparse. cbn [negb andb].
    eexists. split; [reflexivity|]. cbn [progress].
    split; [reflexivity|].
    intros m acc.
    assert (Hcc : (if exportedProgress p >? 0 then exportedProgress p else 0)
                  = Z.max (exportedProgress p) 0)
      by (destruct (Z.gtb_spec (exportedProgress p) 0); lia).
    assert (Hcw : (if exportedProgress p <? 0 then Z.abs (exportedProgress p)
                   else 0)
                  = Z.max (- exportedProgress p) 0)
      by (destruct (Z.ltb_spec (exportedProgress p) 0); lia).
    unfold saveItem, streakRestored. cbn [progress eng chi item_note].
    rewrite Hcc, Hcw, Hc, Hw.
    destruct (m !! keyOf (String_trim (english p))); simpl; eexists;
      (split; [reflexivity|]); simpl; split; reflexivity.
  - destruct Hnn as [Hc0 Hw0].
    destruct (Z.gtb_spec (consecutiveCorrect p) 0); intros [?|?]; lia.
Qed.

Lemma exported_progress_restores_the_streak_witness :
  let R := SampleRuntime.runtime in
  let p := card "A" 0 2 2 in
  let line := batchLine SampleRuntime.toString p 0 in
  (line = "A |  |  | -2 | 0" /\
   countersNonNegative p /\
   fieldsOf line
   = map String_trim [english p; chinese p; default "" (note p);
                      SampleRuntime.toString (exportedProgress p);
                      SampleRuntime.toString 0] /\
   String_trim (SampleRuntime.toString (exportedProgress p)) <> "" /\
   parseInt (String_trim (SampleRuntime.toString (exportedProgress p)))
   = Some (exportedProgress p)) /\
  exists item : Importer.ParsedItem,
    Importer.parseLine line 0 = Some item /\
    Importer.progress item = exportedProgress p /\
    forall newId : string, streakRestored p (Importer.toPhrase newId item).
Proof.
  assert (Hnn : countersNonNegative (card "A" 0 2 2))
    by (unfold countersNonNegative; simpl; lia).
  split.
  - split; [reflexivity|]. split; [exact Hnn|].
    split; [reflexivity|]. split; [discriminate | reflexivity].
  - exact (proj1 (exported_progress_restores_the_streak
                    SampleRuntime.runtime SampleRuntime.toString
                    (card "A" 0 2 2) 0 0 Hnn eq_refl
                    ltac:(discriminate) eq_refl)).
Defined.

(** A ['|'] inside a text shifts the fields of the exported line: the
    card [a|b] with a correct streak of 3 is read back with progress 0. *)
Remark bar_in_text_shifts_the_fields :
  let p := {| id := "A"; english := "a|b"; chinese := "x";
              consecutiveCorrect := 3; consecutiveWrong := 0;
              totalReviews := 3; lastReviewedAt := None; note := None |} in
  let line := batchLine SampleRuntime.toString p 0 in
  exportedProgress p = 3 /\
  @fieldsOf SampleRuntime.runtime line = ["a"; "b"; "x"; ""; "3"; "0"] /\
  option_map Importer.progress
             (@Importer.parseLine SampleRuntime.runtime line 0) = Some 0 /\
  option_map progress (@parseLine SampleRuntime.runtime line 0) = Some 0.
Proof. repeat split; reflexivity. Qed.

Lemma resolves_cons (ps : list Phrase) (q : Phrase) (i : string) :
  resolves ps i -> resolves (q :: ps) i.
Proof. intros (p & Hin & Hid). exists p. split; [now right | exact Hid]. Qed.

(** X19.  The editor's operations keep every queued id with its card,
    given that the queue was resolved by the editor's cards before: adding
    a card puts it first in the cards and in the queue with counters 0;
    deleting one removes the card and its id from the queue; saving an
    edit changes texts only and leaves ids, counters, review times and the
    queue alone; a batch save makes the queue the list of ids of the saved
    cards.  Without a card picked, delete and save hand nothing over. *)
Theorem editor_keeps_the_queue_resolved :
  forall (R : Runtime) (deck : Deck) (deckName : string) (phrases : list Phrase),
    Forall (resolves phrases) (deck_queue deck) ->
    (forall n : nat,
        let d' := handleAddPhrase deck deckName phrases n in
        queueResolved d' /\
        head (deck_queue d') = Some (uuidv4 n) /\
        exists p, deck_phrases d' = p :: phrases /\ id p = uuidv4 n /\
                  consecutiveCorrect p = 0 /\ consecutiveWrong p = 0 /\
                  totalReviews p = 0)
    /\
    (forall i : string,
        match confirmDeletePhrase deck deckName phrases (Some i) with
        | Some d' =>
          queueResolved d' /\ ~ In i (deck_queue d') /\
          Array_find (hasId i) (deck_phrases d') = None
        | None => i = ""
        end)
    /\
    (forall (i english_ chinese_ note_ : string),
        match savePhrase deck deckName phrases (Some i) english_ chinese_ note_ with
        | Some d' =>
          queueResolved d' /\ deck_queue d' = deck_queue deck /\
          Forall2 sameProgress phrases (deck_phrases d')
        | None => i = ""
        end)
    /\
    (forall (batchText : string) (n : nat),
        let d' := confirmBatchSave deck deckName phrases batchText n in
        queueResolved d' /\ deck_queue d' = map id (deck_phrases d'))
    /\
    confirmDeletePhrase deck deckName phrases None = None /\
    (forall e c n, savePhrase deck deckName phrases None e c n = None).
Proof.
  intros R deck deckName phrases Hres.
  split; [|split; [|split; [|split; [|split; reflexivity]]]].
  - intros n d'. subst d'. unfold handleAddPhrase, queueResolved. simpl.
    split; [|split; [reflexivity|]].
    + constructor.
      * eexists. split; [now left | reflexivity].
      * eapply List.Forall_impl; [|exact Hres]. intros i. apply resolves_cons.
    + eexists. repeat split.
  - intros i. unfold confirmDeletePhrase.
    destruct (String.eqb_spec i "") as [E|_]; [exact E|].
    unfold queueResolved. simpl.
    split; [now apply queueResolved_filter|].
    split; [apply filter_present_gone | apply find_filtered_out].
  - intros i e c n. unfold savePhrase.
    destruct (String.eqb_spec i "") as [E|_]; [exact E|].
    unfold queueResolved. simpl.
    assert (Hsame : Forall2 sameProgress phrases
                      (map (fun p => if hasId i p then
                                       {| id := id p;
                                          consecutiveCorrect := consecutiveCorrect p;
                                          consecutiveWrong := consecutiveWrong p;
                                          totalReviews := totalReviews p;
                                          lastReviewedAt := lastReviewedAt p;
                                          english := e;
                                          chinese := c;
                                          note := Some n |}
                                     else p) phrases)).
    { clear Hres. induction phrases as [|q ps IH]; simpl; constructor;
        [|exact IH].
      destruct (hasId i q); repeat split. }
    split; [|split; [reflexivity | exact Hsame]].
    eapply List.Forall_impl; [|exact Hres].
    intros j (p & Hin & Hid).
    clear Hres. induction Hsame as [|a b l l' Hab _ IH]; [destruct Hin|].
    destruct Hin as [->|Hin].
    + exists b. split; [now left|]. destruct Hab as [Hb _]. congruence.
    + destruct (IH Hin) as (p' & Hp' & Hid'). exists p'.
      split; [now right | exact Hid'].
  - intros batchText n d'. subst d'.
    destruct (saveItems_fold (existingPhrasesMap phrases)
                (sortedItems phrases batchText)
                {| newPhrasesList := []; newQueue := []; drawn := n |})
      as (added & Hp & Hq & _).
    simpl in Hp, Hq.
    unfold confirmBatchSave, saveItems, queueResolved. simpl.
    rewrite Hp, Hq. split; [apply map_id_resolved | reflexivity].
Qed.

Lemma editor_keeps_the_queue_resolved_witness :
  Forall (resolves (deck_phrases deckABCDE)) (deck_queue deckABCDE) /\
  let d' := @handleAddPhrase SampleRuntime.runtime deckABCDE "deck"
              (deck_phrases deckABCDE) 0 in
  queueResolved d' /\
  head (deck_queue d') = Some (@uuidv4 SampleRuntime.runtime 0) /\
  exists p, deck_phrases d' = p :: deck_phrases deckABCDE /\
            id p = @uuidv4 SampleRuntime.runtime 0 /\
            consecutiveCorrect p = 0 /\ consecutiveWrong p = 0 /\
            totalReviews p = 0.
Proof.
  assert (Hres : Forall (resolves (deck_phrases deckABCDE)) (deck_queue deckABCDE))
    by apply map_id_resolved.
  split; [exact Hres|].
  exact (proj1 (editor_keeps_the_queue_resolved SampleRuntime.runtime
                  deckABCDE "deck" (deck_phrases deckABCDE) Hres) 0%nat).
Defined.

End EditorFurther.
